(** * Order book client: a shallow embedding of [order_book_client.py]

    The development follows the source file top to bottom:
    - [OrderedDict]: the insertion-ordered dictionary of [collections], as an
      association list with the three operations the client uses;
    - [PyFloat]: CPython's [float] (IEEE-754 binary64, round to nearest even)
      for the expressions the client evaluates on it: [float(s)],
      [x * 10_000_000], [int(x)], [value / 10_000_000] and the [.7f] format;
    - the [OrderBook] class, then [OrderBookClient] with its snapshot loader,
      its delta handler and the reconnecting read loop.

    Integers are Python's unbounded [int], hence [Z] throughout; the 64-bit
    fields of a delta frame are values in [0, 2^64). *)

From Stdlib Require Import ZArith List Bool Lia String Ascii.
From Stdlib Require Import Sorting.Sorted Sorting.Permutation.
From Stdlib Require Strings.Byte.
Import ListNotations.

Local Open Scope Z_scope.

(* ===================================================================== *)
(** ** [collections.OrderedDict] with integer keys and values            *)
(* ===================================================================== *)

Module OrderedDict.

(** Items in iteration order.  A dictionary built by the operations below
    never holds a key twice. *)
Definition t := list (Z * Z).

Definition empty : t := [].

(** [d[k] = v]: an existing key keeps its position, a new one goes last. *)
Fixpoint set (d : t) (k v : Z) : t :=
  match d with
  | [] => [(k, v)]
  | (k', v') :: r =>
      if k' =? k then (k', v) :: r else (k', v') :: set r k v
  end.

(** [d.pop(k, None)], the returned value dropped. *)
Fixpoint pop (d : t) (k : Z) : t :=
  match d with
  | [] => []
  | (k', v') :: r => if k' =? k then r else (k', v') :: pop r k
  end.

(** [d.get(k)]. *)
Fixpoint get (d : t) (k : Z) : option Z :=
  match d with
  | [] => None
  | (k', v') :: r => if k' =? k then Some v' else get r k
  end.

(** [d.items()]. *)
Definition items (d : t) : list (Z * Z) := d.

(** [OrderedDict(pairs)]: the pairs are stored one after the other. *)
Definition of_items (l : list (Z * Z)) : t :=
  fold_left (fun d kv => set d (fst kv) (snd kv)) l empty.

(** [len(d)]. *)
Definition len (d : t) : Z := Z.of_nat (List.length d).

Definition keys (d : t) : list Z := map fst d.

End OrderedDict.

(* ===================================================================== *)
(** ** [sorted(items, key=lambda x: x[0], reverse=...)]                  *)
(* ===================================================================== *)

(** Python's [sorted] is stable, also under [reverse=True]: items with equal
    keys keep their relative order.  [before a b] tells that key [a] may
    stand before key [b]. *)
Section Sorted.
Variable before : Z -> Z -> bool.

Fixpoint insert_item (x : Z * Z) (l : list (Z * Z)) : list (Z * Z) :=
  match l with
  | [] => [x]
  | y :: r =>
      if before (fst x) (fst y) then x :: y :: r else y :: insert_item x r
  end.

Fixpoint sorted_items (l : list (Z * Z)) : list (Z * Z) :=
  match l with
  | [] => []
  | x :: r => insert_item x (sorted_items r)
  end.
End Sorted.

(** [sorted(..., key=lambda x: x[0])] *)
Definition sorted_ascending : list (Z * Z) -> list (Z * Z) :=
  sorted_items Z.leb.

(** [sorted(..., key=lambda x: x[0], reverse=True)] *)
Definition sorted_descending : list (Z * Z) -> list (Z * Z) :=
  sorted_items Z.geb.

(** [lst[:n]] with Python's reading of a negative bound. *)
Definition slice_to {A} (l : list A) (n : Z) : list A :=
  if n <? 0
  then firstn (Z.to_nat (Z.of_nat (List.length l) + n)) l
  else firstn (Z.to_nat n) l.

(* ===================================================================== *)
(** ** CPython [float]: IEEE-754 binary64, round to nearest, ties to even *)
(* ===================================================================== *)

Module PyFloat.

(** [Finite neg m e] is the number [(-1)^neg * m * 2^e], with
    [0 <= m <= 2^53] and [-1074 <= e <= 971]. *)
Inductive float :=
| Finite (neg : bool) (m : Z) (e : Z)
| Infinity (neg : bool)
| NaN.

Definition prec : Z := 53.
Definition emin : Z := -1074.
Definition emax : Z := 971.

(** The integer nearest to [n / d], ties to even ([0 <= n], [0 < d]). *)
Definition rne_div (n d : Z) : Z :=
  let q := n / d in
  let r := n mod d in
  match 2 * r ?= d with
  | Lt => q
  | Gt => q + 1
  | Eq => if Z.even q then q else q + 1
  end.

(** [floor (log2 (n / d))] for [0 < n] and [0 < d]. *)
Definition floor_log2 (n d : Z) : Z :=
  let l := Z.log2 n - Z.log2 d in
  if n * 2 ^ Z.max 0 (- l) <? d * 2 ^ Z.max 0 l then l - 1 else l.

(** The binary64 number nearest to [(-1)^neg * n / d] ([0 <= n], [0 < d]):
    53 significant bits, gradual underflow below [2^-1022], overflow to
    infinity from [2^1024 - 2^970] on. *)
Definition round_binary64 (neg : bool) (n d : Z) : float :=
  if n =? 0 then Finite neg 0 0
  else
    let e := Z.max emin (floor_log2 n d - (prec - 1)) in
    let m := rne_div (n * 2 ^ Z.max 0 (- e)) (d * 2 ^ Z.max 0 e) in
    if (emax <? e) || ((e =? emax) && (2 ^ prec <=? m))
    then Infinity neg
    else Finite neg m e.

(** [float(z)] of an [int]; [None] is [OverflowError]. *)
Definition of_int (z : Z) : option float :=
  match round_binary64 (z <? 0) (Z.abs z) 1 with
  | Infinity _ => None
  | x => Some x
  end.

(** [x * y] on floats. *)
Definition mul (x y : float) : float :=
  match x, y with
  | NaN, _ | _, NaN => NaN
  | Infinity s, Infinity s' => Infinity (xorb s s')
  | Infinity s, Finite s' m _ | Finite s' m _, Infinity s =>
      if m =? 0 then NaN else Infinity (xorb s s')
  | Finite s m e, Finite s' m' e' =>
      let p := m * m' in
      let ex := e + e' in
      round_binary64 (xorb s s') (p * 2 ^ Z.max 0 ex) (2 ^ Z.max 0 (- ex))
  end.

(** [int(x)]: the integer part, rounding toward zero.  [None] is the
    [OverflowError] of an infinity or the [ValueError] of a NaN. *)
Definition to_int (x : float) : option Z :=
  match x with
  | Finite s m e =>
      let a := (m * 2 ^ Z.max 0 e) / 2 ^ Z.max 0 (- e) in
      Some (if s then - a else a)
  | Infinity _ | NaN => None
  end.

(** [a / b] on two [int]s: the quotient is rounded once, from the exact
    rational.  [None] is [ZeroDivisionError] or [OverflowError]. *)
Definition true_divide (a b : Z) : option float :=
  if b =? 0 then None
  else
    match round_binary64 (xorb (a <? 0) (b <? 0)) (Z.abs a) (Z.abs b) with
    | Infinity _ => None
    | x => Some x
    end.

(** The integer [w] such that [format(x, '.7f')] prints [w / 10^7]: the
    exact binary value times [10^7], rounded to nearest, ties to even. *)
Definition scaled7 (m e : Z) : Z :=
  rne_div (m * 10 ^ 7 * 2 ^ Z.max 0 e) (2 ^ Z.max 0 (- e)).

End PyFloat.

(* ===================================================================== *)
(** ** Decimal strings                                                    *)
(* ===================================================================== *)

Module DecimalText.

Definition digit_of_ascii (c : ascii) : option Z :=
  let n := Z.of_N (N_of_ascii c) in
  if (48 <=? n) && (n <=? 57) then Some (n - 48) else None.

Definition ascii_of_digit (d : Z) : ascii :=
  ascii_of_N (Z.to_N (48 + d)).

(** The value of a run of decimal digits read after [acc]; [None] when a
    character is not a digit. *)
Fixpoint digits_value (s : string) (acc : Z) : option Z :=
  match s with
  | EmptyString => Some acc
  | String c r =>
      match digit_of_ascii c with
      | Some d => digits_value r (10 * acc + d)
      | None => None
      end
  end.

(** The text before the first ["."] and, when there is one, the text
    after it. *)
Fixpoint split_point (s : string) : string * option string :=
  match s with
  | EmptyString => (EmptyString, None)
  | String c r =>
      if Ascii.eqb c "."%char then (EmptyString, Some r)
      else let '(a, b) := split_point r in (String c a, b)
  end.

(** A decimal literal: the number [(-1)^neg * digits / 10^scale]. *)
Record literal := { neg : bool; digits : Z; scale : nat }.

Definition unsigned_literal (sg : bool) (s : string) : option literal :=
  let '(ip, fp) := split_point s in
  let fp := match fp with Some f => f | None => EmptyString end in
  if (String.length ip + String.length fp =? 0)%nat then None
  else
    match digits_value (ip ++ fp) 0 with
    | Some n => Some {| neg := sg; digits := n; scale := String.length fp |}
    | None => None
    end.

(** Plain decimal literals: an optional sign, digits, and an optional
    point among them, with one digit at least (["12"], ["-0.5"], ["7."],
    [".25"]).  These are the strings the snapshot endpoint sends.
    Python's [float] reads more (exponents, ["inf"], ["nan"], underscores,
    blanks around the number); those are not covered and give [None]
    here, as does a string [float] refuses with [ValueError]. *)
Definition parse (s : string) : option literal :=
  match s with
  | String "-" r => unsigned_literal true r
  | String "+" r => unsigned_literal false r
  | _ => unsigned_literal false s
  end.

(** [k] digits of [n], the most significant first (zero padded). *)
Fixpoint fixed_digits (k : nat) (n : Z) : string :=
  match k with
  | O => EmptyString
  | S k' =>
      fixed_digits k' (n / 10) ++ String (ascii_of_digit (n mod 10)) EmptyString
  end.

(** The number of decimal digits of [n] is at most [digits_bound n]. *)
Definition digits_bound (n : Z) : nat := S (Z.to_nat (Z.log2 n)).

Fixpoint natural_digits (fuel : nat) (n : Z) : string :=
  match fuel with
  | O => EmptyString
  | S f =>
      (if n <? 10 then EmptyString else natural_digits f (n / 10))
        ++ String (ascii_of_digit (n mod 10)) EmptyString
  end.

(** [str(n)] for [0 <= n]: no leading zero, ["0"] for zero. *)
Definition natural (n : Z) : string := natural_digits (digits_bound n) n.

(** The integer nearest to the exact value of a literal times [10^7]
    (ties to even), the real-number reading of [round(value * 10^7)]. *)
Definition nearest_scaled (l : literal) : Z :=
  let a := PyFloat.rne_div (digits l * 10 ^ 7) (10 ^ Z.of_nat (scale l)) in
  if neg l then - a else a.

End DecimalText.

(** [float(s)] on plain decimal literals, correctly rounded. *)
Definition float_of_string (s : string) : option PyFloat.float :=
  match DecimalText.parse s with
  | Some l =>
      Some (PyFloat.round_binary64 (DecimalText.neg l) (DecimalText.digits l)
              (10 ^ Z.of_nat (DecimalText.scale l)))
  | None => None
  end.

(** [format(x, '.7f')]. *)
Definition format_7f (x : PyFloat.float) : string :=
  match x with
  | PyFloat.Finite s m e =>
      let w := PyFloat.scaled7 m e in
      ((if s then "-" else "")
         ++ DecimalText.natural (w / 10 ^ 7) ++ "."
         ++ DecimalText.fixed_digits 7 (w mod 10 ^ 7))%string
  | PyFloat.Infinity s => ((if s then "-" else "") ++ "inf")%string
  | PyFloat.NaN => "nan"%string
  end.

(** [float(s) * k] with an [int] [k]: [k] is converted first ([None] is its
    [OverflowError]). *)
Definition float_times_int (x : PyFloat.float) (k : Z) : option PyFloat.float :=
  match PyFloat.of_int k with
  | Some y => Some (PyFloat.mul x y)
  | None => None
  end.

(** [int(float(s) * 10_000_000)], the conversion of [_process_snapshot];
    [None] when one of the three steps raises. *)
Definition to_scaled (s : string) : option Z :=
  match float_of_string s with
  | Some x =>
      match float_times_int x 10000000 with
      | Some y => PyFloat.to_int y
      | None => None
      end
  | None => None
  end.

(** [format_decimal] of [to_json]: [f"{value / 10_000_000:.7f}"]; [None]
    is the [OverflowError] of the division. *)
Definition format_decimal (value : Z) : option string :=
  match PyFloat.true_divide value 10000000 with
  | Some x => Some (format_7f x)
  | None => None
  end.

(* ===================================================================== *)
(** ** [class OrderBook]                                                  *)
(* ===================================================================== *)

Record OrderBook := {
  depth : Z;
  bids : OrderedDict.t;
  asks : OrderedDict.t;
  last_update_id : Z
}.

(** [OrderBook.__init__] *)
Definition OrderBook_init (depth : Z) : OrderBook :=
  {| depth := depth;
     bids := OrderedDict.empty;
     asks := OrderedDict.empty;
     last_update_id := 0 |}.

Definition with_bids (b : OrderBook) (d : OrderedDict.t) : OrderBook :=
  {| depth := depth b; bids := d; asks := asks b;
     last_update_id := last_update_id b |}.

Definition with_asks (b : OrderBook) (d : OrderedDict.t) : OrderBook :=
  {| depth := depth b; bids := bids b; asks := d;
     last_update_id := last_update_id b |}.

Definition with_last_update_id (b : OrderBook) (n : Z) : OrderBook :=
  {| depth := depth b; bids := bids b; asks := asks b;
     last_update_id := n |}.

Definition _sort_bids (b : OrderBook) : OrderBook :=
  with_bids b
    (OrderedDict.of_items (sorted_descending (OrderedDict.items (bids b)))).

Definition _sort_asks (b : OrderBook) : OrderBook :=
  with_asks b
    (OrderedDict.of_items (sorted_ascending (OrderedDict.items (asks b)))).

Definition update_bid (b : OrderBook) (price quantity : Z) : OrderBook :=
  if quantity =? 0
  then with_bids b (OrderedDict.pop (bids b) price)
  else _sort_bids (with_bids b (OrderedDict.set (bids b) price quantity)).

Definition update_ask (b : OrderBook) (price quantity : Z) : OrderBook :=
  if quantity =? 0
  then with_asks b (OrderedDict.pop (asks b) price)
  else _sort_asks (with_asks b (OrderedDict.set (asks b) price quantity)).

(** The JSON object of the snapshot endpoint and of the assertion body:
    [{"lastUpdateId": ..., "bids": [[price, qty], ...], "asks": [...]}]. *)
Record BookJson := {
  lastUpdateId : Z;
  json_bids : list (string * string);
  json_asks : list (string * string)
}.

(** [[format_decimal(price), format_decimal(qty)] for price, qty in ...] *)
Fixpoint format_levels (l : list (Z * Z)) : option (list (string * string)) :=
  match l with
  | [] => Some []
  | (price, qty) :: r =>
      match format_decimal price, format_decimal qty, format_levels r with
      | Some p, Some q, Some r' => Some ((p, q) :: r')
      | _, _, _ => None
      end
  end.

(** [OrderBook.to_json]; [None] when [format_decimal] raises. *)
Definition to_json (b : OrderBook) : option BookJson :=
  match format_levels (slice_to (OrderedDict.items (bids b)) (depth b)),
        format_levels (slice_to (OrderedDict.items (asks b)) (depth b)) with
  | Some bs, Some as_ =>
      Some {| lastUpdateId := last_update_id b;
              json_bids := bs; json_asks := as_ |}
  | _, _ => None
  end.

Definition get_size (b : OrderBook) : Z * Z :=
  (OrderedDict.len (bids b), OrderedDict.len (asks b)).

(* ===================================================================== *)
(** ** [struct.unpack('>HQQQ', message)]                                  *)
(* ===================================================================== *)

(** A big-endian unsigned integer. *)
Definition be_uint (l : list Byte.byte) : Z :=
  fold_left (fun acc b => 256 * acc + Z.of_N (Strings.Byte.to_N b)) l 0.

(** Fields at offsets 0, 2, 10 and 18; [None] is [struct.error], raised
    when the buffer is not 26 bytes long. *)
Definition unpack_HQQQ (m : list Byte.byte) : option (Z * Z * Z * Z) :=
  if (List.length m =? 26)%nat
  then Some (be_uint (firstn 2 m),
             be_uint (firstn 8 (skipn 2 m)),
             be_uint (firstn 8 (skipn 10 m)),
             be_uint (firstn 8 (skipn 18 m)))
  else None.

(* ===================================================================== *)
(** ** [class OrderBookClient]                                            *)
(* ===================================================================== *)

(** What the client does to the outside, in the order it does it. *)
Inductive effect :=
| HttpPost (url : string) (body : option BookJson)
| HttpGet (url : string)
| WsConnect (url : string)
| Sleep (seconds : Z).

Record OrderBookClient := {
  target_ordinal : Z;
  order_book : OrderBook;
  running : bool;
  effects : list effect
}.

(** [OrderBookClient.__init__] *)
Definition OrderBookClient_init (target_ordinal depth : Z) : OrderBookClient :=
  {| target_ordinal := target_ordinal;
     order_book := OrderBook_init depth;
     running := false;
     effects := [] |}.

Definition with_order_book (c : OrderBookClient) (b : OrderBook) :=
  {| target_ordinal := target_ordinal c; order_book := b;
     running := running c; effects := effects c |}.

Definition with_running (c : OrderBookClient) (r : bool) :=
  {| target_ordinal := target_ordinal c; order_book := order_book c;
     running := r; effects := effects c |}.

Definition emit (c : OrderBookClient) (e : effect) :=
  {| target_ordinal := target_ordinal c; order_book := order_book c;
     running := running c; effects := effects c ++ [e] |}.

(** A message of the websocket: [bytes] for a binary frame, [str] for a
    text frame. *)
Inductive ws_message :=
| Binary (payload : list Byte.byte)
| Text (s : string).

Definition start_url : string := "http://localhost:9090/start".
Definition snapshot_url : string := "http://localhost:9090/snapshot?depth=100".
Definition assertion_url : string := "http://localhost:9090/assertion".
Definition delta_url : string := "ws://localhost:9091/delta".

(** One loop of [_process_snapshot]: [d[price] = quantity] for each level,
    in order.  The flag is [false] when a conversion raised; the dictionary
    then holds the levels stored before. *)
Fixpoint store_levels (d : OrderedDict.t) (levels : list (string * string))
  : OrderedDict.t * bool :=
  match levels with
  | [] => (d, true)
  | (p, q) :: r =>
      match to_scaled p, to_scaled q with
      | Some price, Some quantity =>
          store_levels (OrderedDict.set d price quantity) r
      | _, _ => (d, false)
      end
  end.

(** [_process_snapshot] on the book; the flag is [false] when it raised.
    The exception leaves [start], which cleans up and re-raises. *)
Definition _process_snapshot (b : OrderBook) (snapshot : BookJson)
  : OrderBook * bool :=
  let b := with_last_update_id b (lastUpdateId snapshot) in
  let b := with_asks (with_bids b OrderedDict.empty) OrderedDict.empty in
  let '(bs, ok) := store_levels (bids b) (json_bids snapshot) in
  let b := with_bids b bs in
  if negb ok then (b, false)
  else
    let '(as_, ok) := store_levels (asks b) (json_asks snapshot) in
    let b := with_asks b as_ in
    if negb ok then (b, false)
    else (_sort_asks (_sort_bids b), true).

(** [_validate_order_book]: every exception is caught inside, and the
    response only goes to the log. *)
Definition _validate_order_book (c : OrderBookClient) : OrderBookClient :=
  match to_json (order_book c) with
  | Some body => emit c (HttpPost assertion_url (Some body))
  | None => c
  end.

(** The body of [_process_delta] once the message is unpacked. *)
Definition apply_delta (c : OrderBookClient) (is_bid ordinal_id price quantity : Z)
  : OrderBookClient :=
  let b := if is_bid =? 1
           then update_bid (order_book c) price quantity
           else update_ask (order_book c) price quantity in
  let c := with_order_book c (with_last_update_id b ordinal_id) in
  if ordinal_id >=? target_ordinal c
  then with_running (_validate_order_book c) false
  else c.

(** [_process_delta].  A [str] of 26 characters passes the length test and
    makes [struct.unpack] raise [TypeError], which [except Exception]
    catches. *)
Definition _process_delta (c : OrderBookClient) (message : ws_message)
  : OrderBookClient :=
  match message with
  | Binary m =>
      if negb (List.length m =? 26)%nat then c
      else
        match unpack_HQQQ m with
        | Some (is_bid, ordinal_id, price, quantity) =>
            apply_delta c is_bid ordinal_id price quantity
        | None => c
        end
  | Text s =>
      if negb (String.length s =? 26)%nat then c else c
  end.

(** How a connection ends after its last message: the iteration stops
    (closed normally), [ConnectionClosed] is raised, or another exception
    is (a failed [websockets.connect] is a connection without messages
    that ends this way). *)
Inductive closing := EndOfStream | ConnectionClosed | OtherError.

Record connection := {
  messages : list ws_message;
  close : closing
}.

(** [async for message in websocket]: the state after the loop, and
    whether it was left by [break]. *)
Fixpoint read_messages (c : OrderBookClient) (ms : list ws_message)
  : OrderBookClient * bool :=
  match ms with
  | [] => (c, false)
  | m :: r =>
      if negb (running c) then (c, true)
      else read_messages (_process_delta c m) r
  end.

(** One turn of [while self.running] on the next connection. *)
Definition serve_connection (c : OrderBookClient) (cn : connection)
  : OrderBookClient :=
  let c := emit c (WsConnect delta_url) in
  let '(c, broke) := read_messages c (messages cn) in
  if broke then c
  else
    match close cn with
    | EndOfStream => c
    | ConnectionClosed => emit c (Sleep 1)
    | OtherError => if running c then emit c (Sleep 1) else c
    end.

(** [while self.running: ...] over the connections the network grants, in
    order; when they are used up the observation ends. *)
Fixpoint reconnect_loop (c : OrderBookClient) (cns : list connection)
  : OrderBookClient :=
  match cns with
  | [] => c
  | cn :: rest =>
      if running c then reconnect_loop (serve_connection c cn) rest else c
  end.

Definition _connect_websocket (c : OrderBookClient) (cns : list connection)
  : OrderBookClient :=
  reconnect_loop (with_running c true) cns.

(** [_get_snapshot]: the request, then [_process_snapshot] on a 200
    response.  The flag is [false] when an exception was raised. *)
Definition _get_snapshot (c : OrderBookClient) (status : Z) (data : BookJson)
  : OrderBookClient * bool :=
  let c := emit c (HttpGet snapshot_url) in
  if negb (status =? 200) then (c, false)
  else
    let '(b, ok) := _process_snapshot (order_book c) data in
    (with_order_book c b, ok).

(** [_start_server] *)
Definition _start_server (c : OrderBookClient) (status : Z)
  : OrderBookClient * bool :=
  let c := emit c (HttpPost start_url None) in
  (c, status =? 200).

(** What the network answers during one run. *)
Record network := {
  start_status : Z;
  snapshot_status : Z;
  snapshot_data : BookJson;
  connections : list connection
}.

(** [cleanup] *)
Definition cleanup (c : OrderBookClient) : OrderBookClient :=
  with_running c false.

(** [start]: the final client and whether it returned ([true]) or raised. *)
Definition start (c : OrderBookClient) (net : network) : OrderBookClient * bool :=
  let '(c, ok) := _start_server c (start_status net) in
  if negb ok then (cleanup c, false)
  else
    let '(c, ok) := _get_snapshot c (snapshot_status net) (snapshot_data net) in
    if negb ok then (cleanup c, false)
    else (_connect_websocket c (connections net), true).

(** [main] with its two arguments parsed. *)
Definition main (ob_id depth : Z) (net : network) : OrderBookClient :=
  cleanup (fst (start (OrderBookClient_init ob_id depth) net)).

(* ===================================================================== *)
(** ** Vocabulary of the properties                                       *)
(* ===================================================================== *)

(** Prices met in iteration order go strictly down, resp. up. *)
Definition strictly_descending (d : OrderedDict.t) : Prop :=
  StronglySorted Z.gt (OrderedDict.keys d).

Definition strictly_ascending (d : OrderedDict.t) : Prop :=
  StronglySorted Z.lt (OrderedDict.keys d).

(** The weak orders of the same name. *)
Definition non_increasing (d : OrderedDict.t) : Prop :=
  StronglySorted Z.ge (OrderedDict.keys d).

Definition non_decreasing (d : OrderedDict.t) : Prop :=
  StronglySorted Z.le (OrderedDict.keys d).

(** No entry of the dictionary has quantity 0. *)
Definition no_zero_quantity (d : OrderedDict.t) : Prop :=
  Forall (fun kv => snd kv <> 0) d.

Definition book_no_zero (b : OrderBook) : Prop :=
  no_zero_quantity (bids b) /\ no_zero_quantity (asks b).

(** Bids best first and asks best first. *)
Definition book_ordered (b : OrderBook) : Prop :=
  strictly_descending (bids b) /\ strictly_ascending (asks b).

(** No level of the snapshot has a quantity that converts to 0. *)
Definition snapshot_no_zero (snapshot : BookJson) : Prop :=
  Forall (fun level => to_scaled (snd level) <> Some 0)
         (json_bids snapshot ++ json_asks snapshot).

(** The books a run can hold: [__init__], then snapshots among the
    [admitted] ones that load without an exception and messages handled by
    [_process_delta], in any number and order. *)
Inductive reachable_from (admitted : BookJson -> Prop) : OrderBook -> Prop :=
| reachable_init depth :
    reachable_from admitted (OrderBook_init depth)
| reachable_snapshot b snapshot b' :
    reachable_from admitted b ->
    admitted snapshot ->
    _process_snapshot b snapshot = (b', true) ->
    reachable_from admitted b'
| reachable_delta c message :
    reachable_from admitted (order_book c) ->
    reachable_from admitted (order_book (_process_delta c message)).

Definition reachable_book : OrderBook -> Prop :=
  reachable_from (fun _ => True).

(** The book after a delta: one ledger updated, then the sequence number
    overwritten. *)
Definition book_after_delta (b : OrderBook) (is_bid ordinal_id price quantity : Z)
  : OrderBook :=
  with_last_update_id
    (if is_bid =? 1 then update_bid b price quantity
     else update_ask b price quantity)
    ordinal_id.

(** A well-formed delta frame: a binary message of 26 bytes. *)
Definition is_delta (message : ws_message) : bool :=
  match message with
  | Binary m => (List.length m =? 26)%nat
  | Text _ => false
  end.

(** The fields of a binary message, zero for a message that has none. *)
Definition side_of (message : ws_message) : Z :=
  match message with
  | Binary m => be_uint (firstn 2 m)
  | Text _ => 0
  end.

Definition ordinal_of (message : ws_message) : Z :=
  match message with
  | Binary m => be_uint (firstn 8 (skipn 2 m))
  | Text _ => 0
  end.

Definition price_of (message : ws_message) : Z :=
  match message with
  | Binary m => be_uint (firstn 8 (skipn 10 m))
  | Text _ => 0
  end.

Definition quantity_of (message : ws_message) : Z :=
  match message with
  | Binary m => be_uint (firstn 8 (skipn 18 m))
  | Text _ => 0
  end.

(** The messages of a connection handled one after the other, whatever
    the [running] flag. *)
Definition process_all (c : OrderBookClient) (ms : list ws_message)
  : OrderBookClient :=
  fold_left _process_delta ms c.

(** A frame with the given fields, big-endian, as the server packs it. *)
Definition be_bytes (width : nat) (z : Z) : list Byte.byte :=
  map (fun i =>
         match Strings.Byte.of_N
                 (Z.to_N ((z / 256 ^ Z.of_nat (width - 1 - i)) mod 256)) with
         | Some b => b
         | None => Byte.x00
         end)
      (seq 0 width).

Definition delta_frame (side ordinal price quantity : Z) : ws_message :=
  Binary (be_bytes 2 side ++ be_bytes 8 ordinal
            ++ be_bytes 8 price ++ be_bytes 8 quantity).

(** The sequence numbers of the well-formed frames of [ms] never go below
    [n] nor below one another, in order of arrival. *)
Fixpoint sequenced_from (n : Z) (ms : list ws_message) : Prop :=
  match ms with
  | [] => True
  | m :: r =>
      if is_delta m
      then n <= ordinal_of m /\ sequenced_from (ordinal_of m) r
      else sequenced_from n r
  end.

(** The book after a message: a well-formed delta is applied, anything
    else leaves the book as it is. *)
Definition book_after_message (b : OrderBook) (m : ws_message) : OrderBook :=
  if is_delta m
  then book_after_delta b (side_of m) (ordinal_of m) (price_of m) (quantity_of m)
  else b.

(** The messages of a run, in order of arrival. *)
Definition all_messages (cns : list connection) : list ws_message :=
  flat_map messages cns.

Definition is_connect (e : effect) : bool :=
  match e with WsConnect _ => true | _ => false end.

Definition is_sleep (e : effect) : bool :=
  match e with Sleep _ => true | _ => false end.

(** Effects that are connections and back-off sleeps only, resp. sleeps
    only. *)
Definition quiet_effects (E : list effect) : Prop :=
  Forall (fun e => is_connect e = true \/ is_sleep e = true) E.

Definition sleeps_only (E : list effect) : Prop :=
  Forall (fun e => is_sleep e = true) E.

(** What [_validate_order_book] sends for a book: the assertion request
    when the book serialises, nothing when [to_json] raises. *)
Definition validation_effects (b : OrderBook) : list effect :=
  match to_json b with
  | Some body => [HttpPost assertion_url (Some body)]
  | None => []
  end.

(** [n / d < 2^j] for a positive [d], stated on integers. *)
Definition below_pow2 (n d j : Z) : Prop :=
  n * 2 ^ Z.max 0 (- j) < d * 2 ^ Z.max 0 j.

(** Every price and quantity of the book is below [2^1024] in absolute
    value, the range of the finite floats. *)
Definition in_float_range (kv : Z * Z) : Prop :=
  Z.abs (fst kv) < 2 ^ 1024 /\ Z.abs (snd kv) < 2 ^ 1024.

Definition book_in_float_range (b : OrderBook) : Prop :=
  Forall in_float_range (bids b) /\ Forall in_float_range (asks b).

(** ** Sample data                                                        *)

Definition example_snapshot : BookJson :=
  {| lastUpdateId := 5;
     json_bids := [("10.0000000", "1.0000000"); ("9.5000000", "3.0000000")];
     json_asks := [("10.5000000", "2.0000000")] |}%string.

(** A client whose snapshot is loaded and whose read loop is on, with
    target 8 and depth 100. *)
Definition example_client : OrderBookClient :=
  with_running
    (with_order_book (OrderBookClient_init 8 100)
       (fst (_process_snapshot (OrderBook_init 100) example_snapshot)))
    true.

(** A snapshot with a level of quantity zero. *)
Definition zero_snapshot : BookJson :=
  {| lastUpdateId := 5;
     json_bids := [("10.0000000", "0.0000000")];
     json_asks := [] |}%string.

(** Three connections in a row: the first is cut, the target 8 is reached
    in the second. *)
Definition example_connections : list connection :=
  [ {| messages := [delta_frame 1 6 95000000 0;
                    delta_frame 0 7 105000000 10000000];
       close := ConnectionClosed |};
    {| messages := [delta_frame 1 8 97500000 20000000;
                    delta_frame 1 9 97500000 0];
       close := EndOfStream |};
    {| messages := [delta_frame 0 10 105000000 0];
       close := EndOfStream |} ].

(* ===================================================================== *)
(** ** Vocabulary of the further properties                               *)
(* ===================================================================== *)

(** The levels of a snapshot converted as [_process_snapshot] converts
    them, [None] when a string does not convert. *)
Fixpoint decode_levels (levels : list (string * string)) : option (list (Z * Z)) :=
  match levels with
  | [] => Some []
  | (p, q) :: r =>
      match to_scaled p, to_scaled q, decode_levels r with
      | Some price, Some quantity, Some r' => Some ((price, quantity) :: r')
      | _, _, _ => None
      end
  end.

(** The quantity a list of levels gives a price: that of its last
    occurrence. *)
Definition last_quantity (levels : list (Z * Z)) (price : Z) : option Z :=
  OrderedDict.get (rev levels) price.

(** A well-formed delta whose sequence number is at or above the target. *)
Definition reaches_target (target : Z) (m : ws_message) : bool :=
  is_delta m && (target <=? ordinal_of m).

(** A request to the assertion endpoint. *)
Definition is_assertion (e : effect) : bool :=
  match e with
  | HttpPost url (Some _) => String.eqb url assertion_url
  | _ => false
  end.

(** A printed number read as an exact decimal and scaled by [10^7]. *)
Definition exact_scaled (s : string) : option Z :=
  option_map DecimalText.nearest_scaled (DecimalText.parse s).

(** The levels of a payload read back exactly. *)
Fixpoint read_levels (levels : list (string * string)) : option (list (Z * Z)) :=
  match levels with
  | [] => Some []
  | (p, q) :: r =>
      match exact_scaled p, exact_scaled q, read_levels r with
      | Some price, Some quantity, Some r' => Some ((price, quantity) :: r')
      | _, _, _ => None
      end
  end.

(** Price and quantity are below [2^29 * 10^7] in absolute value. *)
Definition in_exact_range (kv : Z * Z) : Prop :=
  Z.abs (fst kv) < 2 ^ 29 * 10 ^ 7 /\ Z.abs (snd kv) < 2 ^ 29 * 10 ^ 7.

(** The delta is for the bids ([is_bid == 1]), or for the asks. *)
Definition on_side (bid : bool) (m : ws_message) : bool :=
  Bool.eqb (side_of m =? 1) bid.

(** The quantity carried by the last well-formed delta of a side at a
    price, when the messages hold one. *)
Fixpoint last_delta (bid : bool) (price : Z) (ms : list ws_message) : option Z :=
  match ms with
  | [] => None
  | m :: r =>
      match last_delta bid price r with
      | Some q => Some q
      | None =>
          if is_delta m && on_side bid m && (price_of m =? price)
          then Some (quantity_of m)
          else None
      end
  end.

(** The sequence number of the last well-formed delta. *)
Fixpoint last_ordinal (ms : list ws_message) : option Z :=
  match ms with
  | [] => None
  | m :: r =>
      match last_ordinal r with
      | Some n => Some n
      | None => if is_delta m then Some (ordinal_of m) else None
      end
  end.

(** A lookup overlaid with a later quantity: zero removes the level. *)
Definition overlay (later before : option Z) : option Z :=
  match later with
  | Some q => if q =? 0 then None else Some q
  | None => before
  end.

(** A plain decimal with seven fractional digits at most and an exact
    scaled value of [2^51] at most in absolute value (225179981.3685248). *)
Definition plain_number (s : string) : Prop :=
  exists l, DecimalText.parse s = Some l
            /\ (DecimalText.scale l <= 7)%nat
            /\ Z.abs (DecimalText.nearest_scaled l) <= 2 ^ 51.

Definition plain_level (level : string * string) : Prop :=
  plain_number (fst level) /\ plain_number (snd level).

(** [v] is the exact scaled value of [s], or the next integer toward
    zero: of the same sign, and one unit smaller in absolute value at
    most. *)
Definition within_one (s : string) (v : Z) : Prop :=
  exists x, exact_scaled s = Some x
            /\ Z.abs x - 1 <= Z.abs v <= Z.abs x
            /\ (0 <= x -> 0 <= v)
            /\ (x <= 0 -> v <= 0).

Definition level_within_one (level : string * string) (kv : Z * Z) : Prop :=
  within_one (fst level) (fst kv) /\ within_one (snd level) (snd kv).

(** What one connection costs while the target is not reached: the
    connection, and a sleep of one second unless the stream just ends. *)
Definition connection_effects (cn : connection) : list effect :=
  WsConnect delta_url
    :: match close cn with
       | EndOfStream => []
       | ConnectionClosed | OtherError => [Sleep 1]
       end.

(** The string is a plain decimal literal, one of those [float] is
    modelled on. *)
Definition plain_decimal (s : string) : Prop := DecimalText.parse s <> None.

Definition plain_decimals (levels : list (string * string)) : Prop :=
  Forall (fun level => plain_decimal (fst level) /\ plain_decimal (snd level))
         levels.

(** [float(s) * 10_000_000] is infinite, so that [int] of it raises
    [OverflowError]. *)
Definition product_is_infinite (s : string) : Prop :=
  exists x sg,
    float_of_string s = Some x
    /\ float_times_int x 10000000 = Some (PyFloat.Infinity sg).

Definition infinite_level (level : string * string) : Prop :=
  product_is_infinite (fst level) \/ product_is_infinite (snd level).

(* ===================================================================== *)
(** * Properties                                                          *)
(* ===================================================================== *)

(** ** The dictionary                                                     *)

Section DictFacts.
Import OrderedDict.

Lemma keys_set (d : t) (k v : Z) :
  forall x, In x (keys (set d k v)) <-> x = k \/ In x (keys d).
Proof.
  induction d as [|[k' v'] r IH]; intros x; simpl.
  - intuition.
  - destruct (Z.eqb_spec k' k) as [->|Hne]; simpl.
    + intuition.
    + rewrite IH. intuition.
Qed.

Lemma set_fresh (d : t) (k v : Z) :
  ~ In k (keys d) -> set d k v = d ++ [(k, v)].
Proof.
  induction d as [|[k' v'] r IH]; simpl; intros Hk.
  - reflexivity.
  - destruct (Z.eqb_spec k' k) as [->|Hne].
    + exfalso. apply Hk. now left.
    + rewrite IH; [reflexivity|]. intros Hin. apply Hk. now right.
Qed.

Lemma NoDup_keys_set (d : t) (k v : Z) :
  NoDup (keys d) -> NoDup (keys (set d k v)).
Proof.
  induction d as [|[k' v'] r IH]; simpl; intros Hnd.
  - constructor; [intros []|constructor].
  - inversion Hnd as [|? ? Hnotin Hnd']; subst.
    destruct (Z.eqb_spec k' k) as [->|Hne]; simpl.
    + constructor; assumption.
    + constructor; [|apply IH; assumption].
      rewrite keys_set. intros [Heq|Hin]; [congruence|contradiction].
Qed.

Lemma get_set_same (d : t) (k v : Z) : get (set d k v) k = Some v.
Proof.
  induction d as [|[k' v'] r IH]; simpl.
  - now rewrite Z.eqb_refl.
  - destruct (Z.eqb_spec k' k) as [->|Hne]; simpl.
    + now rewrite Z.eqb_refl.
    + destruct (Z.eqb_spec k' k); [contradiction|assumption].
Qed.

Lemma get_set_other (d : t) (k v k0 : Z) :
  k0 <> k -> get (set d k v) k0 = get d k0.
Proof.
  intros Hne. induction d as [|[k' v'] r IH]; simpl.
  - destruct (Z.eqb_spec k k0); [congruence|reflexivity].
  - destruct (Z.eqb_spec k' k) as [->|Hne']; simpl.
    + destruct (Z.eqb_spec k k0); [congruence|reflexivity].
    + now rewrite IH.
Qed.

Lemma get_None_iff (d : t) (k : Z) : get d k = None <-> ~ In k (keys d).
Proof.
  induction d as [|[k' v'] r IH]; simpl.
  - intuition.
  - destruct (Z.eqb_spec k' k) as [->|Hne].
    + split; [discriminate|]. intros H. exfalso. apply H. now left.
    + rewrite IH. intuition.
Qed.

Lemma pop_absent (d : t) (k : Z) : get d k = None -> pop d k = d.
Proof.
  induction d as [|[k' v'] r IH]; simpl; [reflexivity|].
  destruct (Z.eqb_spec k' k); [discriminate|].
  intros H. now rewrite IH.
Qed.

Lemma keys_pop_incl (d : t) (k : Z) :
  forall x, In x (keys (pop d k)) -> In x (keys d).
Proof.
  induction d as [|[k' v'] r IH]; simpl; intros x; [tauto|].
  destruct (Z.eqb_spec k' k); simpl; [tauto|].
  intros [H|H]; [now left|right; now apply IH].
Qed.

Lemma pop_incl (d : t) (k : Z) :
  forall x, In x (pop d k) -> In x d.
Proof.
  induction d as [|[k' v'] r IH]; simpl; intros x; [tauto|].
  destruct (Z.eqb_spec k' k); simpl; [tauto|].
  intros [H|H]; [now left|right; now apply IH].
Qed.

Lemma get_pop_same (d : t) (k : Z) :
  NoDup (keys d) -> get (pop d k) k = None.
Proof.
  induction d as [|[k' v'] r IH]; simpl; intros Hnd; [reflexivity|].
  inversion Hnd as [|? ? Hnotin Hnd']; subst.
  destruct (Z.eqb_spec k' k) as [->|Hne]; simpl.
  - now apply get_None_iff.
  - destruct (Z.eqb_spec k' k); [contradiction|now apply IH].
Qed.

Lemma get_pop_other (d : t) (k k0 : Z) :
  k0 <> k -> get (pop d k) k0 = get d k0.
Proof.
  intros Hne. induction d as [|[k' v'] r IH]; simpl; [reflexivity|].
  destruct (Z.eqb_spec k' k) as [->|Hne']; simpl.
  - destruct (Z.eqb_spec k k0); [congruence|reflexivity].
  - now rewrite IH.
Qed.

Lemma length_pop_present (d : t) (k : Z) :
  get d k <> None -> List.length d = S (List.length (pop d k)).
Proof.
  induction d as [|[k' v'] r IH]; simpl; [congruence|].
  destruct (Z.eqb_spec k' k); intros H; [reflexivity|].
  simpl. now rewrite <- IH.
Qed.

Lemma len_pop_present (d : t) (k : Z) :
  get d k <> None -> len (pop d k) = len d - 1.
Proof.
  intros H. unfold len. rewrite (length_pop_present d k H). lia.
Qed.

Lemma StronglySorted_keys_pop (R : Z -> Z -> Prop) (d : t) (k : Z) :
  StronglySorted R (keys d) -> StronglySorted R (keys (pop d k)).
Proof.
  induction d as [|[k' v'] r IH]; simpl; intros Hs; [constructor|].
  apply StronglySorted_inv in Hs as [Hs Hall].
  destruct (Z.eqb_spec k' k); simpl; [assumption|].
  constructor; [now apply IH|].
  rewrite Forall_forall in *. intros x Hx. apply Hall.
  now apply keys_pop_incl in Hx.
Qed.

Lemma fold_set_fresh (l acc : list (Z * Z)) :
  NoDup (keys (acc ++ l)) ->
  fold_left (fun d kv => set d (fst kv) (snd kv)) l acc = acc ++ l.
Proof.
  revert acc. induction l as [|[k v] r IH]; intros acc Hnd; simpl.
  - now rewrite app_nil_r.
  - rewrite set_fresh.
    + rewrite IH; rewrite <- app_assoc; [reflexivity|exact Hnd].
    + unfold keys in Hnd. rewrite map_app in Hnd. simpl in Hnd.
      apply NoDup_remove_2 in Hnd. intros Hin. apply Hnd.
      apply in_or_app. now left.
Qed.

(** A list of pairs with distinct keys is its own dictionary. *)
Lemma of_items_NoDup (l : list (Z * Z)) :
  NoDup (keys l) -> of_items l = l.
Proof. intros H. unfold of_items, empty. now rewrite fold_set_fresh. Qed.

Lemma Forall_set (P : Z * Z -> Prop) (d : t) (k v : Z) :
  Forall P d -> P (k, v) -> Forall P (set d k v).
Proof.
  intros Hd Hv. induction d as [|[k' v'] r IH]; simpl.
  - constructor; [exact Hv|constructor].
  - inversion Hd; subst.
    destruct (Z.eqb_spec k' k) as [->|Hne]; constructor; auto.
Qed.

Lemma Forall_pop (P : Z * Z -> Prop) (d : t) (k : Z) :
  Forall P d -> Forall P (pop d k).
Proof.
  rewrite !Forall_forall. intros H x Hx. apply H. now apply pop_incl in Hx.
Qed.

Lemma Forall_fold_set (P : Z * Z -> Prop) (l acc : list (Z * Z)) :
  Forall P acc -> Forall P l ->
  Forall P (fold_left (fun d kv => set d (fst kv) (snd kv)) l acc).
Proof.
  revert acc.
  induction l as [|[k v] r IH]; intros acc Hacc Hl; simpl; [assumption|].
  inversion Hl; subst. apply IH; [|assumption].
  now apply Forall_set.
Qed.

End DictFacts.

(** ** Sorting                                                            *)

Section SortFacts.
Import OrderedDict.
Variable before : Z -> Z -> bool.
Variable R : Z -> Z -> Prop.
Hypothesis R_trans : forall a b c, R a b -> R b c -> R a c.
Hypothesis before_true : forall a b, before a b = true -> a <> b -> R a b.
Hypothesis before_false : forall a b, before a b = false -> R b a.

Lemma insert_item_perm (x : Z * Z) (l : list (Z * Z)) :
  Permutation (insert_item before x l) (x :: l).
Proof.
  induction l as [|y r IH]; simpl; [reflexivity|].
  destruct (before (fst x) (fst y)); [reflexivity|].
  rewrite IH. apply perm_swap.
Qed.

Lemma sorted_items_perm (l : list (Z * Z)) :
  Permutation (sorted_items before l) l.
Proof.
  induction l as [|x r IH]; simpl; [reflexivity|].
  rewrite insert_item_perm. now constructor.
Qed.

Lemma keys_sorted_items (l : list (Z * Z)) :
  Permutation (keys (sorted_items before l)) (keys l).
Proof. unfold keys. apply Permutation_map, sorted_items_perm. Qed.

Lemma insert_item_sorted (x : Z * Z) (l : list (Z * Z)) :
  StronglySorted R (keys l) -> ~ In (fst x) (keys l) ->
  StronglySorted R (keys (insert_item before x l)).
Proof.
  induction l as [|y r IH]; simpl; intros Hs Hfresh.
  - constructor; constructor.
  - apply StronglySorted_inv in Hs as [Hs Hall].
    destruct (before (fst x) (fst y)) eqn:Hb; simpl.
    + assert (Hxy : R (fst x) (fst y)).
      { apply before_true; [assumption|]. intros Heq. apply Hfresh. now left. }
      constructor; [constructor; assumption|].
      constructor; [assumption|].
      rewrite Forall_forall in *. intros z Hz. eapply R_trans; eauto.
    + constructor; [apply IH; tauto|].
      rewrite Forall_forall in *. intros z Hz.
      apply (Permutation_in _ (Permutation_map fst (insert_item_perm x r))) in Hz.
      destruct Hz as [<-|Hz]; [now apply before_false|now apply Hall].
Qed.

Lemma sorted_items_sorted (l : list (Z * Z)) :
  NoDup (keys l) -> StronglySorted R (keys (sorted_items before l)).
Proof.
  induction l as [|x r IH]; simpl; intros Hnd; [constructor|].
  inversion Hnd as [|? ? Hnotin Hnd']; subst.
  apply insert_item_sorted; [now apply IH|].
  intros Hin. apply Hnotin.
  exact (Permutation_in _ (keys_sorted_items r) Hin).
Qed.

End SortFacts.

Lemma StronglySorted_NoDup (R : Z -> Z -> Prop) (l : list Z) :
  (forall a, ~ R a a) -> StronglySorted R l -> NoDup l.
Proof.
  intros Hirr. induction 1 as [|a l Hs IH Hall]; constructor; [|assumption].
  intros Hin. rewrite Forall_forall in Hall. exact (Hirr a (Hall a Hin)).
Qed.

Lemma StronglySorted_weaken (R R' : Z -> Z -> Prop) (l : list Z) :
  (forall a b, R a b -> R' a b) -> StronglySorted R l -> StronglySorted R' l.
Proof.
  intros Hw. induction 1 as [|a l Hs IH Hall]; constructor; [assumption|].
  eapply Forall_impl; [|exact Hall]. intros b. apply Hw.
Qed.

Lemma strictly_descending_NoDup d :
  strictly_descending d -> NoDup (OrderedDict.keys d).
Proof. apply StronglySorted_NoDup. intros a. lia. Qed.

Lemma strictly_ascending_NoDup d :
  strictly_ascending d -> NoDup (OrderedDict.keys d).
Proof. apply StronglySorted_NoDup. intros a. lia. Qed.

Lemma sorted_descending_ordered (l : list (Z * Z)) :
  NoDup (OrderedDict.keys l) -> strictly_descending (sorted_descending l).
Proof.
  apply sorted_items_sorted.
  - intros a b c. lia.
  - intros a b H Hne. apply Z.geb_le in H. lia.
  - intros a b H. rewrite Z.geb_leb in H. apply Z.leb_gt in H. lia.
Qed.

Lemma sorted_ascending_ordered (l : list (Z * Z)) :
  NoDup (OrderedDict.keys l) -> strictly_ascending (sorted_ascending l).
Proof.
  apply sorted_items_sorted.
  - intros a b c. lia.
  - intros a b H Hne. apply Z.leb_le in H. lia.
  - intros a b H. apply Z.leb_gt in H. lia.
Qed.

(** On a dictionary, [_sort_bids] and [_sort_asks] store the sorted items
    unchanged. *)
Lemma sort_bids_items (b : OrderBook) :
  NoDup (OrderedDict.keys (bids b)) ->
  bids (_sort_bids b) = sorted_descending (bids b).
Proof.
  intros Hnd. unfold _sort_bids, OrderedDict.items. simpl.
  apply of_items_NoDup, strictly_descending_NoDup.
  now apply sorted_descending_ordered.
Qed.

Lemma sort_asks_items (b : OrderBook) :
  NoDup (OrderedDict.keys (asks b)) ->
  asks (_sort_asks b) = sorted_ascending (asks b).
Proof.
  intros Hnd. unfold _sort_asks, OrderedDict.items. simpl.
  apply of_items_NoDup, strictly_ascending_NoDup.
  now apply sorted_ascending_ordered.
Qed.

(** ** Frames                                                             *)

Lemma be_uint_fold_bound (l : list Byte.byte) (acc : Z) :
  0 <= acc ->
  0 <= fold_left (fun a b => 256 * a + Z.of_N (Strings.Byte.to_N b)) l acc
    < (acc + 1) * 256 ^ Z.of_nat (List.length l).
Proof.
  revert acc. induction l as [|b r IH]; intros acc Hacc.
  - simpl. lia.
  - cbn [fold_left List.length]. rewrite Nat2Z.inj_succ, Z.pow_succ_r by lia.
    pose proof (Strings.Byte.to_N_bounded b) as Hb.
    assert (Hb' : 0 <= Z.of_N (Strings.Byte.to_N b) <= 255) by lia.
    specialize (IH (256 * acc + Z.of_N (Strings.Byte.to_N b))).
    assert (0 < 256 ^ Z.of_nat (List.length r)) by (apply Z.pow_pos_nonneg; lia).
    nia.
Qed.

(** An unsigned field of [n] bytes is below [256^n]. *)
Lemma be_uint_bound (l : list Byte.byte) :
  0 <= be_uint l < 256 ^ Z.of_nat (List.length l).
Proof.
  pose proof (be_uint_fold_bound l 0 ltac:(lia)) as H. unfold be_uint. lia.
Qed.

Lemma be_uint_firstn_bound (n : nat) (l : list Byte.byte) :
  0 <= be_uint (firstn n l) < 256 ^ Z.of_nat n.
Proof.
  pose proof (be_uint_bound (firstn n l)) as H.
  pose proof (firstn_le_length n l) as Hl.
  assert (256 ^ Z.of_nat (List.length (firstn n l)) <= 256 ^ Z.of_nat n)
    by (apply Z.pow_le_mono_r; lia).
  lia.
Qed.

(** The four fields of a frame are a 16-bit and three 64-bit unsigned
    numbers. *)
Lemma frame_fields_range (m : ws_message) :
  0 <= side_of m < 2 ^ 16
  /\ 0 <= ordinal_of m < 2 ^ 64
  /\ 0 <= price_of m < 2 ^ 64
  /\ 0 <= quantity_of m < 2 ^ 64.
Proof.
  destruct m as [bs|s]; cbn [side_of ordinal_of price_of quantity_of].
  2: { repeat split; try (vm_compute; discriminate); reflexivity. }
  pose proof (be_uint_firstn_bound 2 bs).
  pose proof (be_uint_firstn_bound 8 (skipn 2 bs)).
  pose proof (be_uint_firstn_bound 8 (skipn 10 bs)).
  pose proof (be_uint_firstn_bound 8 (skipn 18 bs)).
  change (256 ^ Z.of_nat 2) with (2 ^ 16) in *.
  change (256 ^ Z.of_nat 8) with (2 ^ 64) in *.
  lia.
Qed.


(** ** The delta handler, case by case                                    *)

Lemma order_book_validate (c : OrderBookClient) :
  order_book (_validate_order_book c) = order_book c.
Proof. unfold _validate_order_book. now destruct (to_json (order_book c)). Qed.

Lemma running_validate (c : OrderBookClient) :
  running (_validate_order_book c) = running c.
Proof. unfold _validate_order_book. now destruct (to_json (order_book c)). Qed.

Lemma target_validate (c : OrderBookClient) :
  target_ordinal (_validate_order_book c) = target_ordinal c.
Proof. unfold _validate_order_book. now destruct (to_json (order_book c)). Qed.

Lemma order_book_apply_delta c is_bid ordinal_id price quantity :
  order_book (apply_delta c is_bid ordinal_id price quantity)
  = book_after_delta (order_book c) is_bid ordinal_id price quantity.
Proof.
  unfold apply_delta, book_after_delta. cbn [target_ordinal with_order_book].
  destruct (ordinal_id >=? target_ordinal c); cbn [order_book with_running];
    [rewrite order_book_validate|]; reflexivity.
Qed.

Lemma process_delta_wellformed (c : OrderBookClient) (m : ws_message) :
  is_delta m = true ->
  _process_delta c m
  = apply_delta c (side_of m) (ordinal_of m) (price_of m) (quantity_of m).
Proof.
  destruct m as [bs|s]; simpl; [|discriminate].
  intros H. unfold unpack_HQQQ. now rewrite H.
Qed.

Lemma process_delta_malformed (c : OrderBookClient) (m : ws_message) :
  is_delta m = false -> _process_delta c m = c.
Proof.
  destruct m as [bs|s]; simpl.
  - intros H. now rewrite H.
  - intros _. now destruct (String.length s =? 26)%nat.
Qed.

(** A property of books that both updates keep, for prices and quantities
    in the range of a frame, and that does not read the sequence number is
    kept by [_process_delta]. *)
Lemma process_delta_preserves (P : OrderBook -> Prop) :
  (forall b p q, 0 <= p < 2 ^ 64 -> 0 <= q < 2 ^ 64 ->
                 P b -> P (update_bid b p q)) ->
  (forall b p q, 0 <= p < 2 ^ 64 -> 0 <= q < 2 ^ 64 ->
                 P b -> P (update_ask b p q)) ->
  (forall b n, P b -> P (with_last_update_id b n)) ->
  forall c m, P (order_book c) -> P (order_book (_process_delta c m)).
Proof.
  intros Hbid Hask Hseq c m HP.
  destruct (is_delta m) eqn:Hm.
  - rewrite process_delta_wellformed, order_book_apply_delta by assumption.
    unfold book_after_delta. apply Hseq.
    destruct (frame_fields_range m) as (_ & _ & Hp & Hq).
    destruct (side_of m =? 1); [apply Hbid|apply Hask]; assumption.
  - now rewrite process_delta_malformed.
Qed.

(** ** What [store_levels] leaves in the dictionary                       *)

Lemma store_levels_fold (d : OrderedDict.t) (levels : list (string * string)) :
  exists stored : list (Z * Z),
    fst (store_levels d levels)
    = fold_left (fun d kv => OrderedDict.set d (fst kv) (snd kv)) stored d
    /\ (snd (store_levels d levels) = true ->
        Forall2 (fun level kv => to_scaled (fst level) = Some (fst kv)
                                 /\ to_scaled (snd level) = Some (snd kv))
                levels stored).
Proof.
  revert d. induction levels as [|[p q] r IH]; intros d; simpl.
  - exists []. split; [reflexivity|constructor].
  - destruct (to_scaled p) as [price|] eqn:Hp;
      [destruct (to_scaled q) as [quantity|] eqn:Hq|].
    + destruct (IH (OrderedDict.set d price quantity)) as (stored & Hf & Hok).
      exists ((price, quantity) :: stored). split; [exact Hf|].
      intros H. constructor; [now split|now apply Hok].
    + exists []. split; [reflexivity|discriminate].
    + exists []. split; [reflexivity|discriminate].
Qed.

Lemma fold_set_NoDup (stored : list (Z * Z)) (d : OrderedDict.t) :
  NoDup (OrderedDict.keys d) ->
  NoDup (OrderedDict.keys
           (fold_left (fun d kv => OrderedDict.set d (fst kv) (snd kv)) stored d)).
Proof.
  revert d. induction stored as [|[k v] r IH]; intros d Hd; simpl; [assumption|].
  apply IH. now apply NoDup_keys_set.
Qed.

Lemma store_levels_NoDup (d : OrderedDict.t) (levels : list (string * string)) :
  NoDup (OrderedDict.keys d) ->
  NoDup (OrderedDict.keys (fst (store_levels d levels))).
Proof.
  intros Hd. destruct (store_levels_fold d levels) as (stored & -> & _).
  now apply fold_set_NoDup.
Qed.

(** The shape of a snapshot load that did not raise. *)
Lemma process_snapshot_ok (b : OrderBook) (snapshot : BookJson) (b' : OrderBook) :
  _process_snapshot b snapshot = (b', true) ->
  let bs := fst (store_levels OrderedDict.empty (json_bids snapshot)) in
  let as_ := fst (store_levels OrderedDict.empty (json_asks snapshot)) in
  snd (store_levels OrderedDict.empty (json_bids snapshot)) = true
  /\ snd (store_levels OrderedDict.empty (json_asks snapshot)) = true
  /\ depth b' = depth b
  /\ last_update_id b' = lastUpdateId snapshot
  /\ bids b' = sorted_descending bs
  /\ asks b' = sorted_ascending as_.
Proof.
  unfold _process_snapshot. cbn [bids asks with_bids with_asks with_last_update_id].
  destruct (store_levels OrderedDict.empty (json_bids snapshot)) as [bs okb] eqn:Hb.
  destruct okb; cbn [negb]; [|discriminate].
  destruct (store_levels OrderedDict.empty (json_asks snapshot)) as [as_ oka] eqn:Ha.
  destruct oka; cbn [negb]; [|discriminate].
  intros H. injection H as <-. cbn [fst snd].
  assert (Hnb : NoDup (OrderedDict.keys bs)).
  { change bs with (fst (bs, true)). rewrite <- Hb.
    apply store_levels_NoDup. constructor. }
  assert (Hna : NoDup (OrderedDict.keys as_)).
  { change as_ with (fst (as_, true)). rewrite <- Ha.
    apply store_levels_NoDup. constructor. }
  split; [reflexivity|]. split; [reflexivity|].
  split; [reflexivity|]. split; [reflexivity|].
  split.
  - unfold _sort_asks. cbn [bids with_asks]. apply sort_bids_items. exact Hnb.
  - apply sort_asks_items. exact Hna.
Qed.

(** ** The ordering invariant                                             *)

Lemma update_bid_ordered (b : OrderBook) (p q : Z) :
  book_ordered b -> book_ordered (update_bid b p q).
Proof.
  intros [Hb Ha]. unfold update_bid.
  destruct (q =? 0).
  - split; [|exact Ha]. now apply StronglySorted_keys_pop.
  - split; [|exact Ha].
    rewrite sort_bids_items.
    + apply sorted_descending_ordered. cbn [bids with_bids].
      now apply NoDup_keys_set, strictly_descending_NoDup.
    + cbn [bids with_bids]. now apply NoDup_keys_set, strictly_descending_NoDup.
Qed.

Lemma update_ask_ordered (b : OrderBook) (p q : Z) :
  book_ordered b -> book_ordered (update_ask b p q).
Proof.
  intros [Hb Ha]. unfold update_ask.
  destruct (q =? 0).
  - split; [exact Hb|]. now apply StronglySorted_keys_pop.
  - split; [exact Hb|].
    rewrite sort_asks_items.
    + apply sorted_ascending_ordered. cbn [asks with_asks].
      now apply NoDup_keys_set, strictly_ascending_NoDup.
    + cbn [asks with_asks]. now apply NoDup_keys_set, strictly_ascending_NoDup.
Qed.

Lemma process_snapshot_ordered (b : OrderBook) (snapshot : BookJson) (b' : OrderBook) :
  _process_snapshot b snapshot = (b', true) -> book_ordered b'.
Proof.
  intros H. apply process_snapshot_ok in H as (_ & _ & _ & _ & Hb & Ha).
  split; [rewrite Hb|rewrite Ha].
  - apply sorted_descending_ordered, store_levels_NoDup. constructor.
  - apply sorted_ascending_ordered, store_levels_NoDup. constructor.
Qed.

Lemma reachable_ordered (admitted : BookJson -> Prop) (b : OrderBook) :
  reachable_from admitted b -> book_ordered b.
Proof.
  induction 1 as [d|b snapshot b' _ _ _ Hs|c m _ IH].
  - split; constructor.
  - exact (process_snapshot_ordered _ _ _ Hs).
  - revert IH. apply process_delta_preserves.
    + intros b0 p q _ _. apply update_bid_ordered.
    + intros b0 p q _ _. apply update_ask_ordered.
    + intros b0 n H. exact H.
Qed.

Lemma reachable_from_weaken (P Q : BookJson -> Prop) (b : OrderBook) :
  (forall s, P s -> Q s) -> reachable_from P b -> reachable_from Q b.
Proof.
  intros HPQ. induction 1 as [d|b snapshot b' _ IH Hadm Hs|c m _ IH].
  - constructor.
  - eapply reachable_snapshot; eauto.
  - now constructor.
Qed.

Lemma example_client_reachable : reachable_book (order_book example_client).
Proof.
  unfold example_client. cbn [order_book with_running with_order_book].
  eapply reachable_snapshot with (b := OrderBook_init 100)
                                 (snapshot := example_snapshot).
  - constructor.
  - exact I.
  - vm_compute. reflexivity.
Qed.

(** C5. In every book a run can hold (after [__init__], after a snapshot,
    after each message handled), the bids iterate in strictly decreasing
    price order and the asks in strictly increasing price order; a
    fortiori the bids are non-increasing and the asks non-decreasing. *)
Theorem ordering_invariant (b : OrderBook) :
  reachable_book b ->
  strictly_descending (bids b) /\ strictly_ascending (asks b)
  /\ non_increasing (bids b) /\ non_decreasing (asks b).
Proof.
  intros H. apply reachable_ordered in H as [Hb Ha].
  repeat split; try assumption.
  - revert Hb. apply StronglySorted_weaken. intros x y. lia.
  - revert Ha. apply StronglySorted_weaken. intros x y. lia.
Qed.

Lemma ordering_invariant_witness :
  let b := order_book (_process_delta example_client
                         (delta_frame 1 6 97500000 40000000)) in
  reachable_book b
  /\ OrderedDict.keys (bids b) = [100000000; 97500000; 95000000]
  /\ strictly_descending (bids b) /\ strictly_ascending (asks b)
  /\ non_increasing (bids b) /\ non_decreasing (asks b).
Proof.
  assert (H : reachable_book
                (order_book (_process_delta example_client
                               (delta_frame 1 6 97500000 40000000)))).
  { apply reachable_delta, example_client_reachable. }
  split; [exact H|]. split; [vm_compute; reflexivity|].
  exact (ordering_invariant _ H).
Defined.

(** ** Zero quantities                                                    *)

Lemma update_bid_asks (b : OrderBook) (p q : Z) : asks (update_bid b p q) = asks b.
Proof. unfold update_bid. now destruct (q =? 0). Qed.

Lemma update_ask_bids (b : OrderBook) (p q : Z) : bids (update_ask b p q) = bids b.
Proof. unfold update_ask. now destruct (q =? 0). Qed.

Lemma update_bid_zero (b : OrderBook) (p : Z) :
  bids (update_bid b p 0) = OrderedDict.pop (bids b) p.
Proof. reflexivity. Qed.

Lemma update_ask_zero (b : OrderBook) (p : Z) :
  asks (update_ask b p 0) = OrderedDict.pop (asks b) p.
Proof. reflexivity. Qed.

(** C6. A delta of quantity 0 removes its price from the ledger of its
    side and touches nothing else: every other price keeps its quantity and
    the other ledger is the same.  When the price was present the ledger
    is one entry shorter; when it was absent the ledger is unchanged, and
    so are the sizes [get_size] reports. *)
Theorem zero_quantity_removal (c : OrderBookClient) (m : ws_message) :
  reachable_book (order_book c) ->
  is_delta m = true ->
  quantity_of m = 0 ->
  let ledger := fun b => if side_of m =? 1 then bids b else asks b in
  let other := fun b => if side_of m =? 1 then asks b else bids b in
  let b := order_book c in
  let b' := order_book (_process_delta c m) in
  other b' = other b
  /\ OrderedDict.get (ledger b') (price_of m) = None
  /\ (forall k, k <> price_of m ->
        OrderedDict.get (ledger b') k = OrderedDict.get (ledger b) k)
  /\ (OrderedDict.get (ledger b) (price_of m) <> None ->
        OrderedDict.len (ledger b') = OrderedDict.len (ledger b) - 1)
  /\ (OrderedDict.get (ledger b) (price_of m) = None ->
        ledger b' = ledger b /\ get_size b' = get_size b).
Proof.
  intros Hreach Hm Hq. cbv zeta.
  rewrite process_delta_wellformed, order_book_apply_delta by assumption.
  apply reachable_ordered in Hreach as [Hb Ha].
  apply strictly_descending_NoDup in Hb. apply strictly_ascending_NoDup in Ha.
  unfold book_after_delta, get_size. rewrite Hq.
  destruct (side_of m =? 1); cbn [bids asks with_last_update_id].
  - rewrite update_bid_asks, update_bid_zero.
    split; [reflexivity|]. split; [now apply get_pop_same|].
    split; [intros k Hk; now apply get_pop_other|].
    split; [apply len_pop_present|].
    intros Habs. rewrite (pop_absent _ _ Habs). now split.
  - rewrite update_ask_bids, update_ask_zero.
    split; [reflexivity|]. split; [now apply get_pop_same|].
    split; [intros k Hk; now apply get_pop_other|].
    split; [apply len_pop_present|].
    intros Habs. rewrite (pop_absent _ _ Habs). now split.
Qed.

Lemma zero_quantity_removal_witness :
  let m := delta_frame 1 6 95000000 0 in
  let b := order_book example_client in
  let b' := order_book (_process_delta example_client m) in
  OrderedDict.get (bids b) 95000000 = Some 30000000
  /\ asks b' = asks b
  /\ OrderedDict.get (bids b') 95000000 = None
  /\ OrderedDict.len (bids b') = OrderedDict.len (bids b) - 1.
Proof.
  cbv zeta.
  pose proof (zero_quantity_removal example_client
                (delta_frame 1 6 95000000 0)
                example_client_reachable eq_refl eq_refl) as H.
  cbv zeta in H.
  change (side_of (delta_frame 1 6 95000000 0) =? 1) with true in H.
  change (price_of (delta_frame 1 6 95000000 0)) with 95000000 in H.
  cbv iota in H.
  destruct H as (Hother & Hgone & _ & Hlen & _).
  split; [vm_compute; reflexivity|].
  split; [exact Hother|]. split; [exact Hgone|].
  apply Hlen. vm_compute. discriminate.
Defined.

Lemma get_In (d : OrderedDict.t) (k v : Z) :
  NoDup (OrderedDict.keys d) ->
  (OrderedDict.get d k = Some v <-> In (k, v) d).
Proof.
  induction d as [|[k' v'] r IH]; simpl; intros Hnd.
  - split; [discriminate|tauto].
  - inversion Hnd as [|? ? Hnotin Hnd']; subst.
    destruct (Z.eqb_spec k' k) as [->|Hne].
    + split.
      * intros [= ->]. now left.
      * intros [[= ->]|Hin]; [reflexivity|].
        exfalso. apply Hnotin. now apply (in_map fst) in Hin.
    + rewrite (IH Hnd'). split; [tauto|].
      intros [[= -> ->]|Hin]; [contradiction|assumption].
  Qed.

Lemma get_permutation (d d' : OrderedDict.t) (k : Z) :
  NoDup (OrderedDict.keys d) -> Permutation d' d ->
  OrderedDict.get d' k = OrderedDict.get d k.
Proof.
  intros Hnd Hp.
  assert (Hnd' : NoDup (OrderedDict.keys d')).
  { eapply Permutation_NoDup; [|exact Hnd].
    apply Permutation_map. now symmetry. }
  destruct (OrderedDict.get d k) as [v|] eqn:Hg.
  - apply get_In; [assumption|]. apply get_In in Hg; [|assumption].
    eapply Permutation_in; [symmetry; exact Hp|exact Hg].
  - destruct (OrderedDict.get d' k) as [v|] eqn:Hg'; [|reflexivity].
    apply get_In in Hg'; [|assumption].
    apply (Permutation_in _ Hp), get_In in Hg'; [congruence|assumption].
Qed.

(** What an update leaves at its own price. *)
Lemma update_bid_get (b : OrderBook) (p q : Z) :
  NoDup (OrderedDict.keys (bids b)) ->
  OrderedDict.get (bids (update_bid b p q)) p
  = if q =? 0 then None else Some q.
Proof.
  intros Hnd. unfold update_bid. destruct (q =? 0).
  - now apply get_pop_same.
  - assert (Hs : NoDup (OrderedDict.keys (OrderedDict.set (bids b) p q)))
      by now apply NoDup_keys_set.
    rewrite sort_bids_items by exact Hs. cbn [bids with_bids].
    unfold sorted_descending.
    rewrite (get_permutation _ _ _ Hs (sorted_items_perm _ _)).
    apply get_set_same.
Qed.

Lemma update_ask_get (b : OrderBook) (p q : Z) :
  NoDup (OrderedDict.keys (asks b)) ->
  OrderedDict.get (asks (update_ask b p q)) p
  = if q =? 0 then None else Some q.
Proof.
  intros Hnd. unfold update_ask. destruct (q =? 0).
  - now apply get_pop_same.
  - assert (Hs : NoDup (OrderedDict.keys (OrderedDict.set (asks b) p q)))
      by now apply NoDup_keys_set.
    rewrite sort_asks_items by exact Hs. cbn [asks with_asks].
    unfold sorted_ascending.
    rewrite (get_permutation _ _ _ Hs (sorted_items_perm _ _)).
    apply get_set_same.
Qed.

Lemma no_zero_of_sorted (before : Z -> Z -> bool) (d : OrderedDict.t) :
  no_zero_quantity d ->
  no_zero_quantity (OrderedDict.of_items (sorted_items before d)).
Proof.
  intros H. unfold OrderedDict.of_items, no_zero_quantity.
  apply Forall_fold_set.
  - constructor.
  - unfold no_zero_quantity in H. rewrite Forall_forall in *.
    intros x Hx. apply H. exact (Permutation_in _ (sorted_items_perm _ _) Hx).
Qed.

Lemma update_bid_no_zero (b : OrderBook) (p q : Z) :
  book_no_zero b -> book_no_zero (update_bid b p q).
Proof.
  intros [Hb Ha]. split; [|now rewrite update_bid_asks].
  unfold update_bid. destruct (Z.eqb_spec q 0) as [->|Hq].
  - now apply Forall_pop.
  - apply no_zero_of_sorted. cbn [bids with_bids].
    apply Forall_set; [assumption|]. exact Hq.
Qed.

Lemma update_ask_no_zero (b : OrderBook) (p q : Z) :
  book_no_zero b -> book_no_zero (update_ask b p q).
Proof.
  intros [Hb Ha]. split; [now rewrite update_ask_bids|].
  unfold update_ask. destruct (Z.eqb_spec q 0) as [->|Hq].
  - now apply Forall_pop.
  - apply no_zero_of_sorted. cbn [asks with_asks].
    apply Forall_set; [assumption|]. exact Hq.
Qed.

Lemma store_levels_no_zero (levels : list (string * string)) (d : OrderedDict.t) :
  Forall (fun level => to_scaled (snd level) <> Some 0) levels ->
  no_zero_quantity d ->
  snd (store_levels d levels) = true ->
  no_zero_quantity (fst (store_levels d levels)).
Proof.
  intros Hl Hd Hok.
  destruct (store_levels_fold d levels) as (stored & -> & Hst).
  specialize (Hst Hok). apply Forall_fold_set.
  - exact Hd.
  - clear Hok Hd. induction Hst as [|[p q] [k v] ls st [_ Hq] _ IH];
      constructor.
    + inversion Hl; subst. cbn [snd] in *. congruence.
    + apply IH. now inversion Hl.
Qed.

Lemma process_snapshot_no_zero (b : OrderBook) (snapshot : BookJson) (b' : OrderBook) :
  snapshot_no_zero snapshot ->
  _process_snapshot b snapshot = (b', true) -> book_no_zero b'.
Proof.
  intros Hz H. apply process_snapshot_ok in H as (Hokb & Hoka & _ & _ & Hb & Ha).
  unfold snapshot_no_zero in Hz. apply Forall_app in Hz as [Hzb Hza].
  split; [rewrite Hb|rewrite Ha]; unfold no_zero_quantity;
    (eapply Permutation_Forall; [symmetry; apply sorted_items_perm|]);
    apply store_levels_no_zero; trivial; constructor.
Qed.

Lemma reachable_no_zero (b : OrderBook) :
  reachable_from snapshot_no_zero b -> book_no_zero b.
Proof.
  induction 1 as [d|b snapshot b' _ _ Hadm Hs|c m _ IH].
  - split; constructor.
  - exact (process_snapshot_no_zero _ _ _ Hadm Hs).
  - revert IH. apply process_delta_preserves.
    + intros b0 p q _ _. apply update_bid_no_zero.
    + intros b0 p q _ _. apply update_ask_no_zero.
    + intros b0 n H. exact H.
Qed.

(** [update_bid] and [update_ask] never store a zero
    quantity: after either, the price holds the new quantity when that is
    not 0 and is absent when it is 0.  [_process_snapshot] stores every
    level as converted, so the ledgers are free of zero quantities in the
    books reached through snapshots without a zero quantity and through
    any messages. *)
Theorem no_zero_quantity_invariant :
  (forall b p q,
      reachable_book b ->
      OrderedDict.get (bids (update_bid b p q)) p
      = (if q =? 0 then None else Some q)
      /\ OrderedDict.get (asks (update_ask b p q)) p
         = (if q =? 0 then None else Some q))
  /\ (forall b, reachable_from snapshot_no_zero b -> book_no_zero b).
Proof.
  split.
  - intros b p q H. apply reachable_ordered in H as [Hb Ha].
    split; [apply update_bid_get|apply update_ask_get].
    + now apply strictly_descending_NoDup.
    + now apply strictly_ascending_NoDup.
  - exact reachable_no_zero.
Qed.

Lemma example_snapshot_no_zero : snapshot_no_zero example_snapshot.
Proof.
  unfold snapshot_no_zero, example_snapshot. cbn [json_bids json_asks app].
  repeat constructor; vm_compute; discriminate.
Qed.

Lemma no_zero_quantity_invariant_witness :
  let b := order_book (_process_delta example_client
                         (delta_frame 1 6 95000000 0)) in
  reachable_from snapshot_no_zero b /\ book_no_zero b
  /\ OrderedDict.get (bids (update_bid b 97500000 0)) 97500000 = None.
Proof.
  assert (H : reachable_from snapshot_no_zero
                (order_book (_process_delta example_client
                               (delta_frame 1 6 95000000 0)))).
  { apply reachable_delta.
    eapply reachable_snapshot with (b := OrderBook_init 100)
                                   (snapshot := example_snapshot).
    - constructor.
    - exact example_snapshot_no_zero.
    - vm_compute. reflexivity. }
  split; [exact H|].
  split; [exact (proj2 no_zero_quantity_invariant _ H)|].
  assert (H' : reachable_book
                 (order_book (_process_delta example_client
                                (delta_frame 1 6 95000000 0)))).
  { revert H. apply reachable_from_weaken. intros s _. exact I. }
  exact (proj1 (proj1 no_zero_quantity_invariant _ 97500000 0 H')).
Defined.

(** A level of quantity ["0.0000000"] in the snapshot is stored with
    quantity 0. *)
Lemma snapshot_stores_zero_quantity :
  let b := fst (_process_snapshot (OrderBook_init 100) zero_snapshot) in
  snd (_process_snapshot (OrderBook_init 100) zero_snapshot) = true
  /\ reachable_book b
  /\ OrderedDict.get (bids b) 100000000 = Some 0
  /\ ~ book_no_zero b.
Proof.
  cbv zeta. split; [vm_compute; reflexivity|].
  split.
  - eapply reachable_snapshot with (b := OrderBook_init 100)
                                   (snapshot := zero_snapshot).
    + constructor.
    + exact I.
    + vm_compute. reflexivity.
  - split; [vm_compute; reflexivity|].
    intros [Hb _]. vm_compute in Hb. inversion Hb as [|x l Hx Hl]; subst.
    now apply Hx.
Qed.

(** The book after a well-formed frame: [update_bid] when the side field
    is 1, [update_ask] with any other side value, from 0 to 65535; the
    sequence number is taken over and the ledger of the other side is
    untouched. *)
Lemma process_delta_routes (c : OrderBookClient) (m : ws_message) :
  is_delta m = true ->
  let b := order_book c in
  let b' := order_book (_process_delta c m) in
  0 <= side_of m < 65536
  /\ (side_of m = 1 ->
      b' = with_last_update_id
             (update_bid b (price_of m) (quantity_of m)) (ordinal_of m)
      /\ asks b' = asks b)
  /\ (side_of m <> 1 ->
      b' = with_last_update_id
             (update_ask b (price_of m) (quantity_of m)) (ordinal_of m)
      /\ bids b' = bids b).
Proof.
  intros Hm. cbv zeta.
  rewrite process_delta_wellformed, order_book_apply_delta by assumption.
  unfold book_after_delta.
  split; [pose proof (frame_fields_range m); lia|].
  split; intros Hs.
  - rewrite Hs. cbn [Z.eqb Pos.eqb]. split; [reflexivity|].
    cbn [asks with_last_update_id]. apply update_bid_asks.
  - destruct (Z.eqb_spec (side_of m) 1) as [He|_]; [contradiction|].
    split; [reflexivity|].
    cbn [bids with_last_update_id]. apply update_ask_bids.
Qed.


(** A side field of 2 goes to the asks as well. *)
Example side_two_updates_asks :
  let b' := order_book (_process_delta example_client
                          (delta_frame 2 6 105000000 70000000)) in
  OrderedDict.get (asks b') 105000000 = Some 70000000
  /\ OrderedDict.get (bids b') 105000000 = None.
Proof. vm_compute. split; reflexivity. Qed.

(** ** The sequence number                                                *)

Lemma last_update_id_process_delta (c : OrderBookClient) (m : ws_message) :
  last_update_id (order_book (_process_delta c m))
  = if is_delta m then ordinal_of m else last_update_id (order_book c).
Proof.
  destruct (is_delta m) eqn:Hm.
  - rewrite process_delta_wellformed, order_book_apply_delta by assumption.
    reflexivity.
  - now rewrite process_delta_malformed.
Qed.

Lemma process_all_app (c : OrderBookClient) (ms ms' : list ws_message) :
  process_all c (ms ++ ms') = process_all (process_all c ms) ms'.
Proof. apply fold_left_app. Qed.

Lemma sequenced_from_app (ms : list ws_message) :
  forall n c pre m post,
    sequenced_from n ms ->
    n = last_update_id (order_book c) ->
    ms = pre ++ m :: post ->
    sequenced_from (last_update_id (order_book (process_all c pre))) (m :: post).
Proof.
  induction ms as [|x r IH]; intros n c pre m post Hseq Hn Hsplit.
  - destruct pre; discriminate.
  - destruct pre as [|y pre'].
    + injection Hsplit as -> ->. subst n. exact Hseq.
    + injection Hsplit as -> Hr. cbn [process_all fold_left].
      cbn [sequenced_from] in Hseq.
      apply (IH (last_update_id (order_book (_process_delta c y)))
                (_process_delta c y) pre' m post); [|reflexivity|exact Hr].
      rewrite last_update_id_process_delta.
      destruct (is_delta y); [tauto|subst n; exact Hseq].
Qed.

(** C2 (amended). A well-formed delta overwrites [last_update_id] with its
    own sequence number and nothing checks the order.  Along a stream whose
    sequence numbers start at or above the current [last_update_id] and
    never decrease, every message leaves [last_update_id] greater than or
    equal to its previous value. *)
Theorem last_update_id_monotone (c : OrderBookClient) (ms : list ws_message) :
  sequenced_from (last_update_id (order_book c)) ms ->
  forall pre m post,
    ms = pre ++ m :: post ->
    last_update_id (order_book (process_all c pre))
    <= last_update_id (order_book (process_all c (pre ++ [m]))).
Proof.
  intros Hseq pre m post Hsplit.
  pose proof (sequenced_from_app ms _ c pre m post Hseq eq_refl Hsplit) as H.
  rewrite process_all_app. cbn [process_all fold_left].
  rewrite last_update_id_process_delta.
  cbn [sequenced_from] in H. destruct (is_delta m); [tauto|lia].
Qed.

Lemma last_update_id_monotone_witness :
  let ms := [delta_frame 1 6 95000000 0; Text "hello";
             delta_frame 0 6 105000000 10000000;
             delta_frame 1 7 90000000 10000000] in
  sequenced_from (last_update_id (order_book example_client)) ms
  /\ last_update_id (order_book (process_all example_client (firstn 3 ms)))
     <= last_update_id
          (order_book (process_all example_client
                         (firstn 3 ms ++ [delta_frame 1 7 90000000 10000000]))).
Proof.
  cbv zeta.
  assert (H : sequenced_from (last_update_id (order_book example_client))
                [delta_frame 1 6 95000000 0; Text "hello";
                 delta_frame 0 6 105000000 10000000;
                 delta_frame 1 7 90000000 10000000]).
  { vm_compute. repeat split; discriminate. }
  split; [exact H|].
  exact (last_update_id_monotone example_client _ H
           [delta_frame 1 6 95000000 0; Text "hello";
            delta_frame 0 6 105000000 10000000]
           (delta_frame 1 7 90000000 10000000) [] eq_refl).
Defined.

(** C2, as stated, fails: after a snapshot at sequence 5, a delta with
    sequence 3 is applied and sets [last_update_id] back to 3. *)
Lemma last_update_id_decreases :
  let c := _process_delta example_client (delta_frame 1 3 95000000 0) in
  reachable_book (order_book example_client)
  /\ last_update_id (order_book example_client) = 5
  /\ last_update_id (order_book c) = 3
  /\ last_update_id (order_book c) < last_update_id (order_book example_client)
  /\ OrderedDict.get (bids (order_book c)) 95000000 = None.
Proof.
  cbv zeta. split; [exact example_client_reachable|].
  vm_compute. repeat split; reflexivity.
Qed.

(** ** Messages that are not deltas                                       *)

Lemma order_book_process_delta (c : OrderBookClient) (m : ws_message) :
  order_book (_process_delta c m) = book_after_message (order_book c) m.
Proof.
  unfold book_after_message. destruct (is_delta m) eqn:Hm.
  - now rewrite process_delta_wellformed, order_book_apply_delta.
  - now rewrite process_delta_malformed.
Qed.

Lemma order_book_process_all (ms : list ws_message) (c : OrderBookClient) :
  order_book (process_all c ms) = fold_left book_after_message ms (order_book c).
Proof.
  revert c. induction ms as [|m r IH]; intros c; [reflexivity|].
  cbn [process_all fold_left]. change (fold_left _process_delta r ?x)
    with (process_all x r).
  now rewrite IH, order_book_process_delta.
Qed.

Lemma read_messages_stopped (ms : list ws_message) (c : OrderBookClient) :
  running c = false -> fst (read_messages c ms) = c.
Proof. intros H. destruct ms; simpl; [reflexivity|]. now rewrite H. Qed.

Lemma read_messages_skip (pre : list ws_message) :
  forall c bad post,
    is_delta bad = false ->
    fst (read_messages c (pre ++ bad :: post)) = fst (read_messages c (pre ++ post)).
Proof.
  induction pre as [|x r IH]; intros c bad post Hbad.
  - cbn [app read_messages]. destruct (running c) eqn:Hr; cbn [negb].
    + now rewrite process_delta_malformed.
    + now rewrite read_messages_stopped.
  - cbn [app read_messages]. destruct (running c); cbn [negb]; [|reflexivity].
    now apply IH.
Qed.

Lemma apply_delta_below c is_bid ordinal_id price quantity :
  ordinal_id < target_ordinal c ->
  apply_delta c is_bid ordinal_id price quantity
  = with_order_book c
      (book_after_delta (order_book c) is_bid ordinal_id price quantity).
Proof.
  intros H. unfold apply_delta. cbn [target_ordinal with_order_book].
  destruct (Z.geb_spec ordinal_id (target_ordinal c)); [lia|reflexivity].
Qed.

Lemma apply_delta_at c is_bid ordinal_id price quantity :
  target_ordinal c <= ordinal_id ->
  apply_delta c is_bid ordinal_id price quantity
  = with_running
      (_validate_order_book
         (with_order_book c
            (book_after_delta (order_book c) is_bid ordinal_id price quantity)))
      false.
Proof.
  intros H. unfold apply_delta. cbn [target_ordinal with_order_book].
  destruct (Z.geb_spec ordinal_id (target_ordinal c)); [reflexivity|lia].
Qed.

Lemma process_delta_below (c : OrderBookClient) (m : ws_message) :
  is_delta m = true -> ordinal_of m < target_ordinal c ->
  _process_delta c m = with_order_book c (book_after_message (order_book c) m).
Proof.
  intros Hm Hlt. rewrite process_delta_wellformed, apply_delta_below by assumption.
  unfold book_after_message. now rewrite Hm.
Qed.

(** C9. A message that is not a 26-byte binary frame (a binary frame of
    another length, or a text frame, which [struct.unpack] refuses)
    leaves the client as it was: ledgers, sequence number, flag and
    effects.  The read loop goes on: dropping such a message from a
    connection does not change the state the loop ends in, and between two
    deltas read while the client runs, both deltas are applied. *)
Theorem malformed_message_discarded (c : OrderBookClient) (bad : ws_message) :
  is_delta bad = false ->
  _process_delta c bad = c
  /\ (forall pre post,
        fst (read_messages c (pre ++ bad :: post))
        = fst (read_messages c (pre ++ post)))
  /\ (forall f1 f2,
        is_delta f1 = true -> is_delta f2 = true ->
        running c = true -> ordinal_of f1 < target_ordinal c ->
        fst (read_messages c [f1; bad; f2])
        = _process_delta (_process_delta c f1) f2).
Proof.
  intros Hbad. split; [now apply process_delta_malformed|].
  split; [intros pre post; now apply read_messages_skip|].
  intros f1 f2 H1 H2 Hrun Hlt.
  change [f1; bad; f2] with ([f1] ++ bad :: [f2]).
  rewrite (read_messages_skip [f1] c bad [f2] Hbad).
  cbn [app read_messages]. rewrite Hrun. cbn [negb].
  rewrite (process_delta_below c f1 H1 Hlt).
  cbn [running with_order_book]. rewrite Hrun. reflexivity.
Qed.

(** A binary frame of 25 bytes is one of these messages. *)
Lemma short_frame_is_malformed (bs : list Byte.byte) :
  List.length bs = 25%nat -> is_delta (Binary bs) = false.
Proof. intros H. simpl. now rewrite H. Qed.

Lemma malformed_message_discarded_witness :
  let f1 := delta_frame 1 6 95000000 0 in
  let bad := Binary (be_bytes 2 1 ++ be_bytes 8 7 ++ be_bytes 8 1 ++ be_bytes 7 1) in
  let f2 := delta_frame 0 7 105000000 10000000 in
  is_delta bad = false
  /\ _process_delta example_client bad = example_client
  /\ fst (read_messages example_client [f1; bad; f2])
     = _process_delta (_process_delta example_client f1) f2
  /\ last_update_id (order_book (fst (read_messages example_client [f1; bad; f2]))) = 7.
Proof.
  cbv zeta.
  pose proof (malformed_message_discarded example_client
                (Binary (be_bytes 2 1 ++ be_bytes 8 7 ++ be_bytes 8 1 ++ be_bytes 7 1))
                eq_refl) as (Hsame & _ & Hboth).
  split; [reflexivity|]. split; [exact Hsame|].
  assert (Hlt : ordinal_of (delta_frame 1 6 95000000 0) < target_ordinal example_client)
    by (vm_compute; reflexivity).
  pose proof (Hboth (delta_frame 1 6 95000000 0)
                (delta_frame 0 7 105000000 10000000)
                eq_refl eq_refl eq_refl Hlt) as H.
  split; [exact H|]. vm_compute. reflexivity.
Defined.

(** ** The read loop                                                      *)

Lemma client_eta (c : OrderBookClient) :
  c = {| target_ordinal := target_ordinal c; order_book := order_book c;
         running := running c; effects := effects c |}.
Proof. now destruct c. Qed.

Lemma process_all_below (ms : list ws_message) :
  forall c,
    Forall (fun m => is_delta m = true) ms ->
    Forall (fun m => ordinal_of m < target_ordinal c) ms ->
    process_all c ms = with_order_book c (order_book (process_all c ms)).
Proof.
  induction ms as [|m r IH]; intros c Hd Hb.
  - now destruct c.
  - inversion Hd as [|? ? Hm Hd']; inversion Hb as [|? ? Hlt Hb']; subst.
    cbn [process_all fold_left].
    change (fold_left _process_delta r ?x) with (process_all x r).
    rewrite (process_delta_below c m Hm Hlt).
    rewrite (IH (with_order_book c (book_after_message (order_book c) m)) Hd' Hb')
      at 1.
    reflexivity.
Qed.

Lemma read_messages_below (ms : list ws_message) :
  forall c,
    running c = true ->
    Forall (fun m => is_delta m = true) ms ->
    Forall (fun m => ordinal_of m < target_ordinal c) ms ->
    read_messages c ms = (process_all c ms, false).
Proof.
  induction ms as [|m r IH]; intros c Hrun Hd Hb; [reflexivity|].
  inversion Hd as [|? ? Hm Hd']; inversion Hb as [|? ? Hlt Hb']; subst.
  cbn [read_messages process_all fold_left]. rewrite Hrun. cbn [negb].
  rewrite (process_delta_below c m Hm Hlt).
  now apply IH.
Qed.

Lemma effects_validate (c : OrderBookClient) :
  effects (_validate_order_book c)
  = effects c ++ validation_effects (order_book c).
Proof.
  unfold _validate_order_book, validation_effects.
  destruct (to_json (order_book c)); [reflexivity|].
  now rewrite app_nil_r.
Qed.

(** The client after the delta that reaches the target. *)
Lemma process_delta_at (c : OrderBookClient) (d : ws_message) :
  is_delta d = true -> target_ordinal c <= ordinal_of d ->
  _process_delta c d
  = {| target_ordinal := target_ordinal c;
       order_book := book_after_message (order_book c) d;
       running := false;
       effects := effects c
                  ++ validation_effects (book_after_message (order_book c) d) |}.
Proof.
  intros Hd Hge. rewrite process_delta_wellformed, apply_delta_at by assumption.
  rewrite (client_eta (with_running _ false)).
  cbn [target_ordinal order_book running effects with_running].
  rewrite target_validate, order_book_validate, effects_validate.
  unfold book_after_message. rewrite Hd. reflexivity.
Qed.

Lemma read_messages_hit (pre : list ws_message) :
  forall c d post,
    running c = true ->
    Forall (fun m => is_delta m = true) pre ->
    Forall (fun m => ordinal_of m < target_ordinal c) pre ->
    is_delta d = true -> target_ordinal c <= ordinal_of d ->
    read_messages c (pre ++ d :: post)
    = (process_all c (pre ++ [d]),
       match post with [] => false | _ :: _ => true end).
Proof.
  induction pre as [|m r IH]; intros c d post Hrun Hdp Hb Hd Hge.
  - cbn [app read_messages process_all fold_left]. rewrite Hrun. cbn [negb].
    rewrite (process_delta_at c d Hd Hge).
    destruct post; reflexivity.
  - inversion Hdp as [|? ? Hm Hdp']; inversion Hb as [|? ? Hlt Hb']; subst.
    cbn [app read_messages process_all fold_left]. rewrite Hrun. cbn [negb].
    rewrite (process_delta_below c m Hm Hlt).
    now apply IH.
Qed.

Lemma process_all_hit (pre : list ws_message) (c : OrderBookClient) (d : ws_message) :
  Forall (fun m => is_delta m = true) pre ->
  Forall (fun m => ordinal_of m < target_ordinal c) pre ->
  is_delta d = true -> target_ordinal c <= ordinal_of d ->
  let b := order_book (process_all c (pre ++ [d])) in
  process_all c (pre ++ [d])
  = {| target_ordinal := target_ordinal c;
       order_book := b;
       running := false;
       effects := effects c ++ validation_effects b |}.
Proof.
  intros Hdp Hb Hd Hge. cbv zeta.
  rewrite process_all_app. cbn [process_all fold_left].
  change (fold_left _process_delta pre c) with (process_all c pre).
  rewrite (process_all_below pre c Hdp Hb).
  rewrite process_delta_at by assumption. reflexivity.
Qed.

Ltac effects_shape :=
  unfold quiet_effects, sleeps_only;
  repeat (apply Forall_cons || apply Forall_nil);
  solve [reflexivity | now left | now right].

(** One connection whose deltas all stay below the target. *)
Lemma serve_connection_below (c : OrderBookClient) (cn : connection) :
  running c = true ->
  Forall (fun m => is_delta m = true) (messages cn) ->
  Forall (fun m => ordinal_of m < target_ordinal c) (messages cn) ->
  exists E,
    serve_connection c cn
    = {| target_ordinal := target_ordinal c;
         order_book := order_book (process_all c (messages cn));
         running := true;
         effects := effects c ++ E |}
    /\ quiet_effects E.
Proof.
  intros Hrun Hd Hb. unfold serve_connection.
  rewrite (read_messages_below (messages cn) (emit c (WsConnect delta_url)))
    by assumption.
  rewrite (process_all_below (messages cn) (emit c (WsConnect delta_url)))
    by assumption.
  rewrite !order_book_process_all. cbn [order_book emit].
  destruct (close cn);
    [exists [WsConnect delta_url]
    |exists [WsConnect delta_url; Sleep 1]
    |exists [WsConnect delta_url; Sleep 1]];
    unfold with_order_book, emit;
    cbn [running target_ordinal order_book effects];
    rewrite ?Hrun; unfold emit; cbn [running target_ordinal order_book effects];
    rewrite <- ?app_assoc; cbn [app];
    (split; [reflexivity|effects_shape]).
Qed.

(** The connection in which the target is reached. *)
Lemma serve_connection_hit (c : OrderBookClient) (cn : connection)
      (pre : list ws_message) (d : ws_message) (post : list ws_message) :
  running c = true ->
  messages cn = pre ++ d :: post ->
  Forall (fun m => is_delta m = true) pre ->
  Forall (fun m => ordinal_of m < target_ordinal c) pre ->
  is_delta d = true -> target_ordinal c <= ordinal_of d ->
  let b := order_book (process_all c (pre ++ [d])) in
  exists E2,
    serve_connection c cn
    = {| target_ordinal := target_ordinal c;
         order_book := b;
         running := false;
         effects := effects c ++ [WsConnect delta_url]
                      ++ validation_effects b ++ E2 |}
    /\ sleeps_only E2.
Proof.
  intros Hrun Hms Hdp Hb Hd Hge. cbv zeta. unfold serve_connection.
  rewrite Hms.
  rewrite (read_messages_hit pre (emit c (WsConnect delta_url)) d post)
    by assumption.
  rewrite (process_all_hit pre (emit c (WsConnect delta_url)) d)
    by assumption.
  rewrite !order_book_process_all. cbn [order_book emit target_ordinal effects].
  set (b := fold_left book_after_message (pre ++ [d]) (order_book c)).
  destruct post as [|x post'].
  - destruct (close cn);
      [exists []|exists [Sleep 1]|exists []];
      unfold emit; cbn [running target_ordinal order_book effects];
      rewrite <- ?app_assoc; cbn [app]; rewrite ?app_nil_r;
      (split; [reflexivity|effects_shape]).
  - exists []. rewrite <- ?app_assoc. cbn [app]. rewrite app_nil_r.
    split; [reflexivity|effects_shape].
Qed.

Lemma reconnect_loop_stopped (cns : list connection) (c : OrderBookClient) :
  running c = false -> reconnect_loop c cns = c.
Proof. intros H. destruct cns; simpl; [reflexivity|]. now rewrite H. Qed.

(** The loop from a split of the stream at the first delta that reaches
    the target. *)
Lemma reconnect_loop_hit (cns : list connection) :
  forall c pre d post,
    running c = true ->
    all_messages cns = pre ++ d :: post ->
    Forall (fun m => is_delta m = true) pre ->
    Forall (fun m => ordinal_of m < target_ordinal c) pre ->
    is_delta d = true -> target_ordinal c <= ordinal_of d ->
    let b := order_book (process_all c (pre ++ [d])) in
    exists E1 E2,
      reconnect_loop c cns
      = {| target_ordinal := target_ordinal c;
           order_book := b;
           running := false;
           effects := effects c ++ E1 ++ validation_effects b ++ E2 |}
      /\ quiet_effects E1 /\ sleeps_only E2.
Proof.
  induction cns as [|cn rest IH]; intros c pre d post Hrun Hall Hdp Hb Hd Hge.
  - destruct pre; discriminate.
  - cbv zeta. cbn [reconnect_loop]. rewrite Hrun.
    unfold all_messages in Hall. cbn [flat_map] in Hall.
    apply app_eq_app in Hall as [l [[Hcn Hrest]|[Hpre Hrest]]].
    + (* the split lies in this connection or right after it *)
      destruct l as [|x l'].
      * rewrite app_nil_r in Hcn. cbn [app] in Hrest.
        destruct (serve_connection_below c cn Hrun) as (E & Hserve & HE);
          [now rewrite Hcn|now rewrite Hcn|].
        rewrite Hserve.
        match goal with |- context [reconnect_loop ?c' rest] =>
          destruct (IH c' [] d post) as (E1 & E2 & Hloop & HE1 & HE2);
            [reflexivity|now symmetry|constructor|constructor|assumption
            |assumption|] end.
        cbv zeta in Hloop. rewrite Hloop.
        cbn [target_ordinal effects order_book app].
        exists (E ++ E1), E2.
        rewrite !order_book_process_all. cbn [order_book].
        rewrite Hcn, <- fold_left_app, <- !app_assoc. cbn [app].
        split; [reflexivity|]. split; [now apply Forall_app|assumption].
      * injection Hrest as Hx Hpost. subst x post.
        destruct (serve_connection_hit c cn pre d l' Hrun Hcn Hdp Hb Hd Hge)
          as (E2 & Hserve & HE2).
        cbv zeta in Hserve. rewrite Hserve.
        rewrite reconnect_loop_stopped by reflexivity.
        exists [WsConnect delta_url], E2.
        split; [reflexivity|]. split; [|assumption].
        effects_shape.
    + (* this connection ends below the target *)
      subst pre. apply Forall_app in Hdp as [Hdp1 Hdp2].
      apply Forall_app in Hb as [Hb1 Hb2].
      destruct (serve_connection_below c cn Hrun Hdp1 Hb1) as (E & Hserve & HE).
      rewrite Hserve.
      match goal with |- context [reconnect_loop ?c' rest] =>
        destruct (IH c' l d post) as (E1 & E2 & Hloop & HE1 & HE2);
          [reflexivity|exact Hrest|assumption|assumption|assumption
          |assumption|] end.
      cbv zeta in Hloop. rewrite Hloop.
      cbn [target_ordinal effects order_book].
      exists (E ++ E1), E2.
      rewrite !order_book_process_all. cbn [order_book].
      rewrite <- fold_left_app, <- !app_assoc.
      split; [reflexivity|]. split; [now apply Forall_app|assumption].
Qed.

(** ** Rounding                                                           *)

Section Rounding.
Import PyFloat.

Lemma rne_div_cases (n d : Z) :
  0 < d ->
  (rne_div n d = n / d /\ 2 * (n mod d) <= d)
  \/ (rne_div n d = n / d + 1 /\ d <= 2 * (n mod d)).
Proof.
  intros Hd. unfold rne_div.
  destruct (Z.compare_spec (2 * (n mod d)) d) as [He|Hl|Hg].
  - destruct (Z.even (n / d)); [left|right]; split; lia.
  - left. split; lia.
  - right. split; lia.
Qed.

(** [rne_div n d] is within one half of [n / d]. *)
Lemma rne_div_spec (n d : Z) :
  0 <= n -> 0 < d ->
  0 <= rne_div n d /\ 2 * Z.abs (rne_div n d * d - n) <= d.
Proof.
  intros Hn Hd.
  pose proof (Z.div_mod n d ltac:(lia)) as Hdm.
  pose proof (Z.mod_pos_bound n d Hd) as Hr.
  pose proof (Z.div_pos n d Hn Hd) as Hq.
  destruct (rne_div_cases n d Hd) as [[-> H]|[-> H]]; split; nia.
Qed.

(** An integer strictly within one half of [n / d] is [rne_div n d]. *)
Lemma rne_div_unique (n d w : Z) :
  0 < d -> 2 * Z.abs (w * d - n) < d -> rne_div n d = w.
Proof.
  intros Hd Hw.
  pose proof (Z.div_mod n d ltac:(lia)) as Hdm.
  pose proof (Z.mod_pos_bound n d Hd) as Hr.
  destruct (rne_div_cases n d Hd) as [[-> H]|[-> H]].
  - destruct (Z.lt_trichotomy w (n / d)) as [Hlt|[Heq|Hgt]]; [nia|lia|nia].
  - destruct (Z.lt_trichotomy w (n / d + 1)) as [Hlt|[Heq|Hgt]]; [nia|lia|nia].
Qed.

(** A bound on the quotient bounds its rounding. *)
Lemma rne_div_le (n d B : Z) :
  0 < d -> n <= d * B -> rne_div n d <= B.
Proof.
  intros Hd Hn.
  pose proof (Z.div_mod n d ltac:(lia)) as Hdm.
  pose proof (Z.mod_pos_bound n d Hd) as Hr.
  destruct (rne_div_cases n d Hd) as [[-> H]|[-> H]]; nia.
Qed.

End Rounding.

Section Exponents.
Import PyFloat.

Lemma pow2_pos (a : Z) : 0 <= a -> 0 < 2 ^ a.
Proof. intros H. apply Z.pow_pos_nonneg; lia. Qed.

Lemma scale_lt_pow2 (x a c : Z) :
  0 <= a -> 0 <= c -> x < 2 ^ a -> x * 2 ^ c < 2 ^ (a + c).
Proof.
  intros Ha Hc Hx. rewrite Z.pow_add_r by assumption.
  apply Z.mul_lt_mono_pos_r; [now apply pow2_pos|assumption].
Qed.

Lemma scale_ge_pow2 (y a c : Z) :
  0 <= a -> 0 <= c -> 2 ^ a <= y -> 2 ^ (a + c) <= y * 2 ^ c.
Proof.
  intros Ha Hc Hy. rewrite Z.pow_add_r by assumption.
  apply Z.mul_le_mono_nonneg_r; [pose proof (pow2_pos c Hc); lia|assumption].
Qed.

(** [below_pow2] holds from some exponent on. *)
Lemma below_pow2_mono (n d j j' : Z) :
  0 <= n -> 0 < d -> j <= j' -> below_pow2 n d j -> below_pow2 n d j'.
Proof.
  unfold below_pow2. intros Hn Hd Hj H.
  set (A := Z.max 0 (- j)) in *. set (B := Z.max 0 j) in *.
  set (A' := Z.max 0 (- j')). set (B' := Z.max 0 j').
  assert (HA : 0 <= A) by lia. assert (HB : 0 <= B) by lia.
  assert (HA' : 0 <= A') by lia. assert (HB' : 0 <= B') by lia.
  assert (Hexp : B + A' <= B' + A) by lia.
  apply (Z.mul_lt_mono_pos_r (2 ^ A)); [now apply pow2_pos|].
  apply Z.lt_le_trans with (d * 2 ^ B * 2 ^ A').
  - apply (Z.mul_lt_mono_pos_r (2 ^ A')) in H; [|now apply pow2_pos].
    replace (n * 2 ^ A' * 2 ^ A) with (n * 2 ^ A * 2 ^ A') by ring.
    exact H.
  - rewrite <- !Z.mul_assoc, <- !Z.pow_add_r by assumption.
    apply Z.mul_le_mono_nonneg_l; [lia|].
    apply Z.pow_le_mono_r; lia.
Qed.

(** [floor_log2 n d] is the exponent [k] with [2^k <= n / d < 2^(k+1)]. *)
Lemma floor_log2_spec (n d : Z) :
  0 < n -> 0 < d ->
  ~ below_pow2 n d (floor_log2 n d) /\ below_pow2 n d (floor_log2 n d + 1).
Proof.
  intros Hn Hd. unfold floor_log2.
  pose proof (Z.log2_spec n Hn) as [Hn1 Hn2].
  pose proof (Z.log2_spec d Hd) as [Hd1 Hd2].
  pose proof (Z.log2_nonneg n) as Ha. pose proof (Z.log2_nonneg d) as Hb.
  set (a := Z.log2 n) in *. set (b := Z.log2 d) in *.
  set (l := a - b).
  destruct (Z.ltb_spec (n * 2 ^ Z.max 0 (- l)) (d * 2 ^ Z.max 0 l)) as [Ht|Ht].
  - split.
    + unfold below_pow2.
      pose proof (scale_lt_pow2 d (Z.succ b) (Z.max 0 (l - 1))
                    ltac:(lia) ltac:(lia) Hd2) as H1.
      pose proof (scale_ge_pow2 n a (Z.max 0 (- (l - 1)))
                    ltac:(lia) ltac:(lia) Hn1) as H2.
      replace (Z.succ b + Z.max 0 (l - 1)) with (a + Z.max 0 (- (l - 1)))
        in H1 by lia.
      lia.
    + replace (l - 1 + 1) with l by lia. exact Ht.
  - split.
    + unfold below_pow2. lia.
    + unfold below_pow2.
      pose proof (scale_lt_pow2 n (Z.succ a) (Z.max 0 (- (l + 1)))
                    ltac:(lia) ltac:(lia) Hn2) as H1.
      pose proof (scale_ge_pow2 d b (Z.max 0 (l + 1))
                    ltac:(lia) ltac:(lia) Hd1) as H2.
      replace (Z.succ a + Z.max 0 (- (l + 1))) with (b + Z.max 0 (l + 1))
        in H1 by lia.
      lia.
Qed.

Lemma floor_log2_le (n d : Z) :
  floor_log2 n d <= Z.log2 n - Z.log2 d.
Proof. unfold floor_log2. destruct (_ <? _); lia. Qed.

Lemma floor_log2_ge (n d : Z) :
  Z.log2 n - Z.log2 d - 1 <= floor_log2 n d.
Proof. unfold floor_log2. destruct (_ <? _); lia. Qed.

End Exponents.

Section Binary64.
Import PyFloat.

Lemma below_pow2_split (n d e b : Z) :
  0 <= n -> 0 < d -> 0 <= b ->
  below_pow2 n d (e + b) ->
  n * 2 ^ Z.max 0 (- e) < d * 2 ^ Z.max 0 e * 2 ^ b.
Proof.
  unfold below_pow2. intros Hn Hd Hb H.
  set (A := Z.max 0 (- e)). set (B := Z.max 0 e).
  set (A' := Z.max 0 (- (e + b))) in *. set (B' := Z.max 0 (e + b)) in *.
  assert (Hexp : B' + A = B + b + A') by lia.
  apply (Z.mul_lt_mono_pos_r (2 ^ A')); [apply pow2_pos; lia|].
  apply (Z.mul_lt_mono_pos_r (2 ^ A)) in H; [|apply pow2_pos; lia].
  replace (n * 2 ^ A * 2 ^ A') with (n * 2 ^ A' * 2 ^ A) by ring.
  replace (d * 2 ^ B * 2 ^ b * 2 ^ A') with (d * 2 ^ B' * 2 ^ A); [exact H|].
  rewrite <- !Z.mul_assoc, <- !Z.pow_add_r by lia.
  f_equal. f_equal. lia.
Qed.

(** The shape of a finite result of [round_binary64]. *)
Lemma round_binary64_finite (s : bool) (n d : Z) (s' : bool) (m e : Z) :
  0 <= n -> 0 < d ->
  round_binary64 s n d = Finite s' m e ->
  s' = s /\ 0 <= m <= 2 ^ prec /\ emin <= e <= emax
  /\ (e = emax -> m < 2 ^ prec).
Proof.
  intros Hn Hd. unfold round_binary64.
  destruct (Z.eqb_spec n 0) as [->|Hn0].
  - intros [= <- <- <-]. unfold prec, emin, emax. repeat split; lia.
  - set (e0 := Z.max emin (floor_log2 n d - (prec - 1))).
    set (m0 := rne_div (n * 2 ^ Z.max 0 (- e0)) (d * 2 ^ Z.max 0 e0)).
    destruct ((emax <? e0) || ((e0 =? emax) && (2 ^ prec <=? m0))) eqn:Hov;
      [discriminate|].
    intros [= <- <- <-].
    apply orb_false_iff in Hov as [Hov1 Hov2].
    apply Z.ltb_ge in Hov1.
    assert (Hpos : 0 < d * 2 ^ Z.max 0 e0)
      by (apply Z.mul_pos_pos; [assumption|apply pow2_pos; lia]).
    assert (Hnum : 0 <= n * 2 ^ Z.max 0 (- e0))
      by (apply Z.mul_nonneg_nonneg; [assumption|
          pose proof (pow2_pos (Z.max 0 (- e0)) ltac:(lia)); lia]).
    destruct (rne_div_spec _ _ Hnum Hpos) as [Hm0 _]. fold m0 in Hm0.
    split; [reflexivity|]. split; [split; [exact Hm0|]|].
    + apply rne_div_le; [exact Hpos|].
      apply Z.lt_le_incl, below_pow2_split; [lia|assumption|unfold prec; lia|].
      destruct (floor_log2_spec n d ltac:(lia) Hd) as [_ Hup].
      revert Hup. apply below_pow2_mono; [lia|assumption|].
      unfold e0, prec. lia.
    + split; [unfold e0; lia|].
      intros He. rewrite He, Z.eqb_refl in Hov2. cbn [andb] in Hov2.
      now apply Z.leb_gt in Hov2.
Qed.

(** [int(x)] of a finite float is below [2^1024] in absolute value. *)
Lemma to_int_bound (s : bool) (m e v : Z) :
  0 <= m <= 2 ^ prec -> e <= emax -> (e = emax -> m < 2 ^ prec) ->
  to_int (Finite s m e) = Some v -> Z.abs v < 2 ^ 1024.
Proof.
  intros Hm He Htop [= <-].
  set (a := m * 2 ^ Z.max 0 e / 2 ^ Z.max 0 (- e)).
  assert (Ha : 0 <= a < 2 ^ 1024).
  { unfold a. destruct (Z.le_gt_cases 0 e) as [Hpos|Hneg].
    - replace (Z.max 0 (- e)) with 0 by lia. replace (Z.max 0 e) with e by lia.
      rewrite Z.pow_0_r, Z.div_1_r.
      pose proof (pow2_pos e Hpos) as Hp.
      split; [nia|].
      destruct (Z.eq_dec e emax) as [->|Hne].
      + specialize (Htop eq_refl).
        change (2 ^ 1024) with (2 ^ prec * 2 ^ emax).
        apply Z.mul_lt_mono_pos_r; [reflexivity|assumption].
      + assert (Hle : 2 ^ e <= 2 ^ (emax - 1))
          by (apply Z.pow_le_mono_r; unfold emax in *; lia).
        change (2 ^ 1024) with (2 * (2 ^ prec * 2 ^ (emax - 1))).
        assert (0 < 2 ^ prec) by reflexivity.
        nia.
    - replace (Z.max 0 e) with 0 by lia. rewrite Z.pow_0_r, Z.mul_1_r.
      pose proof (pow2_pos (Z.max 0 (- e)) ltac:(lia)) as Hp.
      split; [apply Z.div_pos; lia|].
      apply Z.le_lt_trans with m.
      + apply Z.div_le_upper_bound; [assumption|]. nia.
      + apply Z.le_lt_trans with (2 ^ prec); [lia|reflexivity]. }
  destruct s; lia.
Qed.

(** The quotient of an integer below [2^1024] by ten million is a finite
    float: the division does not overflow. *)
Lemma true_divide_finite (v : Z) :
  Z.abs v < 2 ^ 1024 ->
  exists s m e, true_divide v 10000000 = Some (Finite s m e).
Proof.
  intros Hv. unfold true_divide. cbn [Z.eqb].
  change (10000000 <? 0) with false. change (Z.abs 10000000) with 10000000.
  unfold round_binary64.
  destruct (Z.eqb_spec (Z.abs v) 0) as [H0|H0]; [eauto|].
  set (e0 := Z.max emin (floor_log2 (Z.abs v) 10000000 - (prec - 1))).
  assert (He0 : e0 < emax).
  { pose proof (floor_log2_le (Z.abs v) 10000000) as Hk.
    change (Z.log2 10000000) with 23 in Hk.
    assert (Z.log2 (Z.abs v) < 1024) by (apply Z.log2_lt_pow2; lia).
    unfold e0, emin, emax, prec. lia. }
  destruct (Z.ltb_spec emax e0); [lia|].
  destruct (Z.eqb_spec e0 emax); [lia|].
  cbn [orb andb]. eauto.
Qed.

(** The round trip at the heart of [to_json]: dividing a scaled integer
    below [2^29 * 10^7] in absolute value by ten million and printing seven
    decimals gives the integer back.  Below that bound the quotient is
    under [2^29], so two neighbouring floats are at most [2^-24 < 10^-7]
    apart. *)
Lemma true_divide_scaled7 (v : Z) :
  Z.abs v < 2 ^ 29 * 10 ^ 7 ->
  exists m e,
    true_divide v 10000000 = Some (Finite (v <? 0) m e)
    /\ scaled7 m e = Z.abs v.
Proof.
  intros Hv. unfold true_divide. cbn [Z.eqb].
  change (10000000 <? 0) with false. rewrite xorb_false_r.
  change (Z.abs 10000000) with 10000000.
  pose proof (Z.abs_nonneg v) as Hv0.
  set (a := Z.abs v) in *. unfold round_binary64.
  destruct (Z.eqb_spec a 0) as [Ha0|Ha0].
  - exists 0, 0. split; [reflexivity|]. rewrite Ha0. reflexivity.
  - set (k := floor_log2 a 10000000).
    assert (Hk : -24 <= k <= 28).
    { split.
      - pose proof (floor_log2_ge a 10000000) as Hge.
        change (Z.log2 10000000) with 23 in Hge.
        pose proof (Z.log2_nonneg a). fold k in Hge. lia.
      - destruct (Z.le_gt_cases k 28) as [Hle|Hgt]; [assumption|exfalso].
        destruct (floor_log2_spec a 10000000 ltac:(lia) ltac:(lia)) as [Hlow _].
        apply Hlow. fold k.
        apply (below_pow2_mono a 10000000 29 k); [lia|lia|lia|].
        unfold below_pow2. change (Z.max 0 (- 29)) with 0.
        change (Z.max 0 29) with 29. change (10 ^ 7) with 10000000 in Hv.
        rewrite Z.pow_0_r. lia. }
    replace (Z.max emin (k - (prec - 1))) with (k - 52)
      by (unfold emin, prec; lia).
    replace (Z.max 0 (- (k - 52))) with (52 - k) by lia.
    replace (Z.max 0 (k - 52)) with 0 by lia.
    rewrite Z.pow_0_r, Z.mul_1_r.
    destruct (Z.ltb_spec emax (k - 52)); [unfold emax in *; lia|].
    destruct (Z.eqb_spec (k - 52) emax); [unfold emax in *; lia|].
    cbn [orb andb].
    set (m := rne_div (a * 2 ^ (52 - k)) 10000000).
    exists m, (k - 52). split; [reflexivity|].
    unfold scaled7.
    replace (Z.max 0 (- (k - 52))) with (52 - k) by lia.
    replace (Z.max 0 (k - 52)) with 0 by lia.
    rewrite Z.pow_0_r, Z.mul_1_r. change (10 ^ 7) with 10000000.
    pose proof (pow2_pos (52 - k) ltac:(lia)) as Hp.
    assert (Hbig : 10000000 < 2 ^ (52 - k)).
    { apply Z.lt_le_trans with (2 ^ 24); [reflexivity|].
      apply Z.pow_le_mono_r; lia. }
    apply rne_div_unique; [assumption|].
    destruct (rne_div_spec (a * 2 ^ (52 - k)) 10000000) as [_ Hm];
      [nia|lia|].
    fold m in Hm. lia.
Qed.

End Binary64.

(** ** Decimal strings                                                    *)

Section Strings.
Import DecimalText.
Local Open Scope string_scope.

Lemma append_assoc (a b c : string) : (a ++ b) ++ c = a ++ (b ++ c).
Proof. induction a as [|x a IH]; simpl; [reflexivity|now rewrite IH]. Qed.

Lemma length_append (a b : string) :
  String.length (a ++ b) = (String.length a + String.length b)%nat.
Proof. induction a as [|x a IH]; simpl; [reflexivity|now rewrite IH]. Qed.

Lemma digit_roundtrip (d : Z) :
  0 <= d < 10 -> digit_of_ascii (ascii_of_digit d) = Some d.
Proof.
  intros H.
  assert (Hc : d = 0 \/ d = 1 \/ d = 2 \/ d = 3 \/ d = 4
               \/ d = 5 \/ d = 6 \/ d = 7 \/ d = 8 \/ d = 9) by lia.
  repeat (destruct Hc as [->|Hc]; [reflexivity|]). subst d. reflexivity.
Qed.

Lemma digit_not_point (c : ascii) (d : Z) :
  digit_of_ascii c = Some d -> Ascii.eqb c "."%char = false.
Proof.
  intros H. destruct (Ascii.eqb_spec c "."%char) as [->|]; [|reflexivity].
  discriminate.
Qed.

(** A string that starts with a digit carries no sign. *)
Lemma parse_digit_first (c : ascii) (d : Z) (r : string) :
  digit_of_ascii c = Some d ->
  parse (String c r) = unsigned_literal false (String c r).
Proof.
  intros H.
  destruct c as [[] [] [] [] [] [] [] []];
    vm_compute in H; try discriminate H; reflexivity.
Qed.

Lemma digits_value_app (a b : string) (acc : Z) :
  digits_value (a ++ b) acc
  = match digits_value a acc with
    | Some x => digits_value b x
    | None => None
    end.
Proof.
  revert acc. induction a as [|c a IH]; intros acc; simpl; [reflexivity|].
  destruct (digit_of_ascii c); [apply IH|reflexivity].
Qed.

Lemma digits_value_nonneg (s : string) :
  forall acc v, 0 <= acc -> digits_value s acc = Some v -> 0 <= v.
Proof.
  induction s as [|c s IH]; intros acc v Hacc; cbn [digits_value].
  - intros [= <-]. exact Hacc.
  - unfold digit_of_ascii at 1.
    destruct ((48 <=? Z.of_N (N_of_ascii c))%Z && (Z.of_N (N_of_ascii c) <=? 57)%Z)
      eqn:Hc; [|discriminate].
    apply andb_true_iff in Hc as [H1 H2].
    apply Z.leb_le in H1. intros Hv. eapply IH; [|exact Hv]. lia.
Qed.

Lemma split_point_digits (s t : string) (acc v : Z) :
  digits_value s acc = Some v ->
  split_point (s ++ String "." t) = (s, Some t).
Proof.
  revert acc. induction s as [|c s IH]; intros acc; simpl.
  - reflexivity.
  - destruct (digit_of_ascii c) as [d|] eqn:Hc; [|discriminate].
    intros H. rewrite (digit_not_point c d Hc), (IH _ H). reflexivity.
Qed.

Lemma fixed_digits_length (k : nat) (n : Z) :
  String.length (fixed_digits k n) = k.
Proof.
  revert n. induction k as [|k IH]; intros n; simpl; [reflexivity|].
  rewrite length_append, IH. simpl. lia.
Qed.

Lemma fixed_digits_value (k : nat) :
  forall n acc,
    digits_value (fixed_digits k n) acc
    = Some (acc * 10 ^ Z.of_nat k + n mod 10 ^ Z.of_nat k).
Proof.
  induction k as [|k IH]; intros n acc.
  - simpl. rewrite Z.mod_1_r. f_equal. lia.
  - cbn [fixed_digits]. rewrite digits_value_app, IH. cbn [digits_value].
    rewrite digit_roundtrip by (apply Z.mod_pos_bound; lia).
    f_equal. rewrite Nat2Z.inj_succ, Z.pow_succ_r by lia.
    rewrite (Z.rem_mul_r n 10 (10 ^ Z.of_nat k)) by
      (try apply Z.pow_pos_nonneg; lia).
    ring.
Qed.

Lemma natural_digits_value (fuel : nat) :
  forall n,
    0 <= n < 10 ^ Z.of_nat fuel ->
    digits_value (natural_digits fuel n) 0 = Some n.
Proof.
  induction fuel as [|f IH]; intros n Hn.
  - simpl in *. f_equal. lia.
  - cbn [natural_digits]. rewrite digits_value_app.
    rewrite Nat2Z.inj_succ, Z.pow_succ_r in Hn by lia.
    pose proof (Z.div_mod n 10 ltac:(lia)) as Hdm.
    pose proof (Z.mod_pos_bound n 10 ltac:(lia)) as Hr.
    destruct (Z.ltb_spec n 10) as [Hlt|Hge].
    + cbn [digits_value]. rewrite digit_roundtrip by assumption.
      f_equal. rewrite Z.mod_small by lia. lia.
    + rewrite IH.
      * cbn [digits_value]. rewrite digit_roundtrip by assumption.
        f_equal. lia.
      * split; [apply Z.div_pos; lia|].
        apply Z.div_lt_upper_bound; lia.
Qed.

Lemma natural_value (n : Z) :
  0 <= n -> digits_value (natural n) 0 = Some n.
Proof.
  intros Hn. apply natural_digits_value. split; [assumption|].
  unfold digits_bound. rewrite Nat2Z.inj_succ, Z2Nat.id by apply Z.log2_nonneg.
  destruct (Z.eq_dec n 0) as [->|Hn0]; [reflexivity|].
  pose proof (Z.log2_spec n ltac:(lia)) as [_ Hup].
  apply Z.lt_le_trans with (2 ^ Z.succ (Z.log2 n)); [assumption|].
  apply Z.pow_le_mono_l. lia.
Qed.

Lemma natural_starts_with_digit (n : Z) :
  0 <= n ->
  exists c r d, natural n = String c r /\ digit_of_ascii c = Some d.
Proof.
  intros Hn. pose proof (natural_value n Hn) as Hv.
  destruct (natural n) as [|c r] eqn:Hs.
  - exfalso. unfold natural, digits_bound in Hs. cbn [natural_digits] in Hs.
    destruct (if (n <? 10)%Z then _ else _); discriminate.
  - simpl in Hv. destruct (digit_of_ascii c) as [d|] eqn:Hc; [|discriminate].
    now exists c, r, d.
Qed.

(** Reading back a number printed with seven decimals. *)
Lemma unsigned_fixed7 (sg : bool) (w : Z) :
  0 <= w ->
  unsigned_literal sg
    (natural (w / 10 ^ 7) ++ "." ++ fixed_digits 7 (w mod 10 ^ 7))
  = Some {| neg := sg; digits := w; scale := 7 |}.
Proof.
  intros Hw.
  assert (Hq : 0 <= w / 10 ^ 7) by (apply Z.div_pos; lia).
  unfold unsigned_literal.
  change ("." ++ fixed_digits 7 (w mod 10 ^ 7))
    with (String "." (fixed_digits 7 (w mod 10 ^ 7))).
  rewrite (split_point_digits _ _ 0 _ (natural_value _ Hq)).
  rewrite fixed_digits_length.
  rewrite Nat.add_comm. cbn [Nat.add Nat.eqb].
  rewrite digits_value_app, (natural_value _ Hq), fixed_digits_value.
  change (Z.of_nat 7) with 7.
  rewrite Z.mod_mod by lia.
  rewrite (Z.div_mod w (10 ^ 7)) at 3 by lia.
  f_equal. f_equal. lia.
Qed.

Lemma parse_fixed7 (sg : bool) (w : Z) :
  0 <= w ->
  parse ((if sg then "-" else "")
           ++ natural (w / 10 ^ 7) ++ "." ++ fixed_digits 7 (w mod 10 ^ 7))
  = Some {| neg := sg; digits := w; scale := 7 |}.
Proof.
  intros Hw. destruct sg.
  - cbn [append]. cbn [parse]. now apply unsigned_fixed7.
  - cbn [append].
    assert (Hq : 0 <= w / 10 ^ 7) by (apply Z.div_pos; lia).
    destruct (natural_starts_with_digit _ Hq) as (c & r & d & Hs & Hc).
    rewrite <- (unsigned_fixed7 false w Hw).
    rewrite Hs. cbn [append]. apply (parse_digit_first c d _ Hc).
Qed.

End Strings.

(** ** Every stored number is in the range of the finite floats           *)

Section FloatRange.
Import PyFloat.

Lemma parse_digits_nonneg (s : string) (l : DecimalText.literal) :
  DecimalText.parse s = Some l -> 0 <= DecimalText.digits l.
Proof.
  assert (Hu : forall sg t, DecimalText.unsigned_literal sg t = Some l ->
                            0 <= DecimalText.digits l).
  { intros sg t. unfold DecimalText.unsigned_literal.
    destruct (DecimalText.split_point t) as [ip fp].
    destruct (_ =? 0)%nat; [discriminate|].
    destruct (DecimalText.digits_value _ 0) as [n|] eqn:Hn; [|discriminate].
    intros [= <-]. cbn [DecimalText.digits].
    exact (digits_value_nonneg _ 0 n ltac:(lia) Hn). }
  unfold DecimalText.parse.
  destruct s as [|c r]; [apply Hu|].
  destruct c as [[] [] [] [] [] [] [] []]; apply Hu.
Qed.

(** [int(float(s) * 10_000_000)], when it returns, is below [2^1024] in
    absolute value. *)
Lemma to_scaled_bound (s : string) (v : Z) :
  to_scaled s = Some v -> Z.abs v < 2 ^ 1024.
Proof.
  unfold to_scaled, float_of_string.
  destruct (DecimalText.parse s) as [l|] eqn:Hl; [|discriminate].
  pose proof (parse_digits_nonneg s l Hl) as Hd.
  assert (Hden : 0 < 10 ^ Z.of_nat (DecimalText.scale l))
    by (apply Z.pow_pos_nonneg; lia).
  unfold float_times_int.
  change (of_int 10000000)
    with (Some (Finite false 5368709120000000 (-29))).
  destruct (round_binary64 _ _ _) as [sx mx ex|sx|] eqn:Hx;
    cbn [mul]; try discriminate.
  - apply round_binary64_finite in Hx as (_ & [Hmx _] & _); [|assumption..].
    destruct (round_binary64 _ _ _) as [sy my ey|sy|] eqn:Hy;
      try discriminate.
    apply round_binary64_finite in Hy as (_ & Hmy & [_ Hey] & Htop).
    + now apply to_int_bound.
    + apply Z.mul_nonneg_nonneg; [lia|].
      pose proof (pow2_pos (Z.max 0 (ex + -29)) ltac:(lia)). lia.
    + apply pow2_pos. lia.
Qed.

Lemma update_bid_in_range (b : OrderBook) (p q : Z) :
  in_float_range (p, q) ->
  book_in_float_range b -> book_in_float_range (update_bid b p q).
Proof.
  intros Hpq [Hb Ha]. split; [|now rewrite update_bid_asks].
  unfold update_bid. destruct (q =? 0).
  - now apply Forall_pop.
  - unfold _sort_bids, OrderedDict.of_items, OrderedDict.items.
    cbn [bids with_bids]. apply Forall_fold_set; [constructor|].
    eapply Permutation_Forall; [symmetry; apply sorted_items_perm|].
    now apply Forall_set.
Qed.

Lemma update_ask_in_range (b : OrderBook) (p q : Z) :
  in_float_range (p, q) ->
  book_in_float_range b -> book_in_float_range (update_ask b p q).
Proof.
  intros Hpq [Hb Ha]. split; [now rewrite update_ask_bids|].
  unfold update_ask. destruct (q =? 0).
  - now apply Forall_pop.
  - unfold _sort_asks, OrderedDict.of_items, OrderedDict.items.
    cbn [asks with_asks]. apply Forall_fold_set; [constructor|].
    eapply Permutation_Forall; [symmetry; apply sorted_items_perm|].
    now apply Forall_set.
Qed.

Lemma frame_value_in_range (p q : Z) :
  0 <= p < 2 ^ 64 -> 0 <= q < 2 ^ 64 -> in_float_range (p, q).
Proof.
  intros Hp Hq. unfold in_float_range. cbn [fst snd].
  assert (2 ^ 64 < 2 ^ 1024) by reflexivity. lia.
Qed.

Lemma store_levels_in_range (levels : list (string * string)) (d : OrderedDict.t) :
  Forall in_float_range d ->
  snd (store_levels d levels) = true ->
  Forall in_float_range (fst (store_levels d levels)).
Proof.
  intros Hd Hok.
  destruct (store_levels_fold d levels) as (stored & -> & Hst).
  specialize (Hst Hok). apply Forall_fold_set; [exact Hd|].
  clear Hok Hd. induction Hst as [|[p q] [k v] ls st [Hp Hq] _ IH];
    constructor; [|exact IH].
  cbn [fst snd] in *. split; cbn [fst snd]; eapply to_scaled_bound; eassumption.
Qed.

Lemma process_snapshot_in_range (b : OrderBook) (snapshot : BookJson) (b' : OrderBook) :
  _process_snapshot b snapshot = (b', true) -> book_in_float_range b'.
Proof.
  intros H. apply process_snapshot_ok in H as (Hokb & Hoka & _ & _ & Hb & Ha).
  split; [rewrite Hb|rewrite Ha];
    (eapply Permutation_Forall; [symmetry; apply sorted_items_perm|]);
    apply store_levels_in_range; trivial; constructor.
Qed.

Lemma reachable_in_float_range (admitted : BookJson -> Prop) (b : OrderBook) :
  reachable_from admitted b -> book_in_float_range b.
Proof.
  induction 1 as [d|b snapshot b' _ _ _ Hs|c m _ IH].
  - split; constructor.
  - exact (process_snapshot_in_range _ _ _ Hs).
  - revert IH. apply process_delta_preserves.
    + intros b0 p q Hp Hq. now apply update_bid_in_range, frame_value_in_range.
    + intros b0 p q Hp Hq. now apply update_ask_in_range, frame_value_in_range.
    + intros b0 n H. exact H.
Qed.

Lemma format_decimal_total (v : Z) :
  Z.abs v < 2 ^ 1024 -> exists s, format_decimal v = Some s.
Proof.
  intros Hv. unfold format_decimal.
  destruct (true_divide_finite v Hv) as (s & m & e & ->). eauto.
Qed.

Lemma format_levels_total (l : list (Z * Z)) :
  Forall in_float_range l -> exists r, format_levels l = Some r.
Proof.
  induction 1 as [|[p q] l [Hp Hq] _ [r IH]]; [now exists []|].
  cbn [fst snd] in *. cbn [format_levels].
  destruct (format_decimal_total p Hp) as [sp ->].
  destruct (format_decimal_total q Hq) as [sq ->].
  rewrite IH. eauto.
Qed.

Lemma Forall_firstn' {A} (P : A -> Prop) (n : nat) (l : list A) :
  Forall P l -> Forall P (firstn n l).
Proof.
  intros H. rewrite <- (firstn_skipn n l) in H.
  now apply Forall_app in H.
Qed.

Lemma Forall_slice_to {A} (P : A -> Prop) (l : list A) (n : Z) :
  Forall P l -> Forall P (slice_to l n).
Proof.
  intros H. unfold slice_to. destruct (n <? 0); now apply Forall_firstn'.
Qed.

(** [to_json] does not raise on a book whose numbers are in range. *)
Lemma to_json_total (b : OrderBook) :
  book_in_float_range b -> exists body, to_json b = Some body.
Proof.
  intros [Hb Ha]. unfold to_json, OrderedDict.items.
  destruct (format_levels_total _ (Forall_slice_to _ _ (depth b) Hb)) as [bs ->].
  destruct (format_levels_total _ (Forall_slice_to _ _ (depth b) Ha)) as [as_ ->].
  eauto.
Qed.

End FloatRange.

(** ** The termination trigger                                            *)

Lemma first_at_target (t : Z) (ms : list ws_message) :
  (exists m, In m ms /\ t <= ordinal_of m) ->
  exists pre d post,
    ms = pre ++ d :: post
    /\ Forall (fun m => ordinal_of m < t) pre
    /\ t <= ordinal_of d.
Proof.
  induction ms as [|x r IH]; intros (m & Hin & Hm); [destruct Hin|].
  destruct (Z.le_gt_cases t (ordinal_of x)) as [Hx|Hx].
  - exists [], x, r. repeat split; [constructor|assumption].
  - destruct Hin as [->|Hin]; [lia|].
    destruct IH as (pre & d & post & -> & Hpre & Hd); [now exists m|].
    exists (x :: pre), d, post. repeat split; [now constructor|assumption].
Qed.

Lemma StronglySorted_after (l1 : list Z) (x : Z) (l2 : list Z) :
  StronglySorted Z.lt (l1 ++ x :: l2) -> Forall (Z.lt x) l2.
Proof.
  induction l1 as [|y l1 IH]; cbn [app]; intros H;
    apply StronglySorted_inv in H as [Hs Hall]; [assumption|now apply IH].
Qed.

Lemma reachable_process_all (admitted : BookJson -> Prop) (ms : list ws_message) :
  forall c,
    reachable_from admitted (order_book c) ->
    reachable_from admitted (order_book (process_all c ms)).
Proof.
  induction ms as [|m r IH]; intros c H; [exact H|].
  cbn [process_all fold_left]. apply IH. now apply reachable_delta.
Qed.

Lemma reachable_reconnect_loop (admitted : BookJson -> Prop) (cns : list connection) :
  forall c,
    reachable_from admitted (order_book c) ->
    reachable_from admitted (order_book (reconnect_loop c cns)).
Proof.
  assert (Hread : forall ms c,
             reachable_from admitted (order_book c) ->
             reachable_from admitted (order_book (fst (read_messages c ms)))).
  { induction ms as [|m r IH]; intros c H; [exact H|].
    cbn [read_messages]. destruct (running c); cbn [negb]; [|exact H].
    apply IH. now apply reachable_delta. }
  induction cns as [|cn rest IH]; intros c H; [exact H|].
  cbn [reconnect_loop]. destruct (running c); [|exact H].
  apply IH. unfold serve_connection.
  specialize (Hread (messages cn) (emit c (WsConnect delta_url)) H).
  destruct (read_messages (emit c (WsConnect delta_url)) (messages cn))
    as [c' broke].
  cbn [fst] in Hread.
  destruct broke; [exact Hread|].
  destruct (close cn); [exact Hread|exact Hread|].
  destruct (running c'); exact Hread.
Qed.

(** C7. On a stream of well-formed deltas whose sequence numbers increase
    strictly, start below the target and end at or above it, however the
    stream is cut into connections: the read loop validates once, right
    after the first delta [d] whose sequence number is at or above the
    target.  The book it sends and keeps is the one after the deltas up to
    [d]; before the assertion request there are only connections and
    back-off sleeps, after it at most a sleep: no later delta is applied,
    no connection is opened again, and the loop is off. *)
Theorem termination_trigger (c : OrderBookClient) (cns : list connection) :
  reachable_book (order_book c) ->
  Forall (fun m => is_delta m = true) (all_messages cns) ->
  StronglySorted Z.lt (map ordinal_of (all_messages cns)) ->
  (exists m rest,
      all_messages cns = m :: rest /\ ordinal_of m < target_ordinal c) ->
  (exists front m,
      all_messages cns = front ++ [m] /\ target_ordinal c <= ordinal_of m) ->
  exists pre d post body E1 E2,
    all_messages cns = pre ++ d :: post
    /\ pre <> []
    /\ Forall (fun m => ordinal_of m < target_ordinal c) pre
    /\ target_ordinal c <= ordinal_of d
    /\ Forall (fun m => target_ordinal c < ordinal_of m) post
    /\ order_book (_connect_websocket c cns)
       = order_book (process_all c (pre ++ [d]))
    /\ running (_connect_websocket c cns) = false
    /\ to_json (order_book (process_all c (pre ++ [d]))) = Some body
    /\ effects (_connect_websocket c cns)
       = effects c ++ E1 ++ [HttpPost assertion_url (Some body)] ++ E2
    /\ quiet_effects E1
    /\ sleeps_only E2.
Proof.
  intros Hreach Hdelta Hsorted (m0 & rest & Hfirst & Hlow)
         (front & ml & Hlast & Hhigh).
  destruct (first_at_target (target_ordinal c) (all_messages cns))
    as (pre & d & post & Hsplit & Hpre & Hd).
  { exists ml. split; [|assumption]. rewrite Hlast.
    apply in_or_app. right. now left. }
  assert (Hdelta' := Hdelta). rewrite Hsplit in Hdelta'.
  apply Forall_app in Hdelta' as [Hdpre Hdrest].
  apply Forall_cons_iff in Hdrest as [Hdd _].
  destruct (reconnect_loop_hit cns (with_running c true) pre d post)
    as (E1 & E2 & Hloop & HE1 & HE2); try assumption; [reflexivity|].
  cbv zeta in Hloop.
  rewrite order_book_process_all in Hloop.
  cbn [order_book with_running target_ordinal effects] in Hloop.
  rewrite <- order_book_process_all in Hloop.
  destruct (to_json_total (order_book (process_all c (pre ++ [d]))))
    as [body Hbody].
  { eapply reachable_in_float_range, reachable_process_all, Hreach. }
  unfold validation_effects in Hloop. rewrite Hbody in Hloop.
  exists pre, d, post, body, E1, E2.
  unfold _connect_websocket. rewrite Hloop.
  cbn [order_book running effects].
  split; [exact Hsplit|].
  split.
  { intros ->. cbn [app] in Hsplit. rewrite Hfirst in Hsplit.
    injection Hsplit as -> _. lia. }
  split; [exact Hpre|]. split; [exact Hd|].
  split.
  { rewrite Hsplit, map_app in Hsorted. cbn [map] in Hsorted.
    apply StronglySorted_after in Hsorted.
    rewrite Forall_map in Hsorted.
    eapply Forall_impl; [|exact Hsorted]. intros m Hm. cbv beta in Hm. lia. }
  repeat split; assumption.
Qed.

Lemma termination_trigger_witness :
  reachable_book (order_book example_client)
  /\ target_ordinal example_client = 8
  /\ map ordinal_of (all_messages example_connections) = [6; 7; 8; 9; 10]
  /\ exists pre d post body E1 E2,
      all_messages example_connections = pre ++ d :: post
      /\ pre <> []
      /\ Forall (fun m => ordinal_of m < target_ordinal example_client) pre
      /\ target_ordinal example_client <= ordinal_of d
      /\ Forall (fun m => target_ordinal example_client < ordinal_of m) post
      /\ order_book (_connect_websocket example_client example_connections)
         = order_book (process_all example_client (pre ++ [d]))
      /\ running (_connect_websocket example_client example_connections) = false
      /\ to_json (order_book (process_all example_client (pre ++ [d])))
         = Some body
      /\ effects (_connect_websocket example_client example_connections)
         = effects example_client ++ E1
             ++ [HttpPost assertion_url (Some body)] ++ E2
      /\ quiet_effects E1
      /\ sleeps_only E2.
Proof.
  split; [exact example_client_reachable|].
  split; [reflexivity|]. split; [vm_compute; reflexivity|].
  apply termination_trigger.
  - exact example_client_reachable.
  - repeat constructor.
  - assert (Hm : map ordinal_of (all_messages example_connections)
                 = [6; 7; 8; 9; 10]) by (vm_compute; reflexivity).
    rewrite Hm. repeat constructor.
  - exists (delta_frame 1 6 95000000 0),
           (tl (all_messages example_connections)).
    split; [reflexivity|vm_compute; reflexivity].
  - exists (removelast (all_messages example_connections)),
           (delta_frame 0 10 105000000 0).
    split; [reflexivity|vm_compute; discriminate].
Defined.

(** The run of the example: one connection cut before the target, then
    the assertion in the second connection, and nothing after it. *)
Example example_run_effects :
  map (fun e => match e with
                | HttpPost url (Some body) => (url, lastUpdateId body)
                | HttpPost url None => (url, 0)
                | HttpGet url => (url, 0)
                | WsConnect url => (url, 0)
                | Sleep n => (EmptyString, n)
                end)
      (effects (_connect_websocket example_client example_connections))
  = [(delta_url, 0); (EmptyString, 1); (delta_url, 0); (assertion_url, 8)].
Proof. vm_compute. reflexivity. Qed.

(** ** Serialization                                                      *)

Lemma nearest_scaled_scale7 (sg : bool) (w : Z) :
  DecimalText.nearest_scaled
    {| DecimalText.neg := sg; DecimalText.digits := w;
       DecimalText.scale := 7 |} = if sg then - w else w.
Proof.
  unfold DecimalText.nearest_scaled.
  cbn [DecimalText.neg DecimalText.digits DecimalText.scale].
  change (10 ^ Z.of_nat 7) with (10 ^ 7).
  replace (PyFloat.rne_div (w * 10 ^ 7) (10 ^ 7)) with w; [reflexivity|].
  symmetry. apply rne_div_unique; [reflexivity|].
  replace (w * 10 ^ 7 - w * 10 ^ 7) with 0 by ring. reflexivity.
Qed.

(** Below the point of failure.  For every scaled integer [v] below [2^29 * 10^7] in
    absolute value (the value 536870912.0), [format_decimal] prints a
    sign when [v] is negative, the integer part of [|v| / 10^7], a point
    and exactly seven digits, and the string read back as an exact decimal
    and scaled by [10^7] is [v] again. *)
Theorem serialization_round_trip (v : Z) :
  Z.abs v < 2 ^ 29 * 10 ^ 7 ->
  exists s l,
    format_decimal v = Some s
    /\ s = ((if (v <? 0)%Z then "-" else "")
             ++ DecimalText.natural (Z.abs v / 10 ^ 7) ++ "."
             ++ DecimalText.fixed_digits 7 (Z.abs v mod 10 ^ 7))%string
    /\ String.length (DecimalText.fixed_digits 7 (Z.abs v mod 10 ^ 7)) = 7%nat
    /\ DecimalText.parse s = Some l
    /\ DecimalText.scale l = 7%nat
    /\ DecimalText.nearest_scaled l = v.
Proof.
  intros Hv.
  destruct (true_divide_scaled7 v Hv) as (m & e & Hdiv & Hw).
  exists ((if (v <? 0)%Z then "-" else "")
            ++ DecimalText.natural (Z.abs v / 10 ^ 7) ++ "."
            ++ DecimalText.fixed_digits 7 (Z.abs v mod 10 ^ 7))%string,
         {| DecimalText.neg := v <? 0; DecimalText.digits := Z.abs v;
            DecimalText.scale := 7 |}.
  split.
  { unfold format_decimal. rewrite Hdiv. unfold format_7f. rewrite Hw.
    reflexivity. }
  split; [reflexivity|].
  split; [apply fixed_digits_length|].
  split; [apply parse_fixed7, Z.abs_nonneg|].
  split; [reflexivity|].
  rewrite nearest_scaled_scale7.
  destruct (Z.ltb_spec v 0); lia.
Qed.

Lemma serialization_round_trip_witness :
  Z.abs 12345678901 < 2 ^ 29 * 10 ^ 7
  /\ format_decimal 12345678901 = Some "1234.5678901"%string
  /\ exists s l,
      format_decimal 12345678901 = Some s
      /\ s = ((if (12345678901 <? 0)%Z then "-" else "")
               ++ DecimalText.natural (Z.abs 12345678901 / 10 ^ 7) ++ "."
               ++ DecimalText.fixed_digits 7 (Z.abs 12345678901 mod 10 ^ 7))%string
      /\ String.length
           (DecimalText.fixed_digits 7 (Z.abs 12345678901 mod 10 ^ 7)) = 7%nat
      /\ DecimalText.parse s = Some l
      /\ DecimalText.scale l = 7%nat
      /\ DecimalText.nearest_scaled l = 12345678901.
Proof.
  assert (H : Z.abs 12345678901 < 2 ^ 29 * 10 ^ 7) by reflexivity.
  split; [exact H|]. split; [vm_compute; reflexivity|].
  exact (serialization_round_trip 12345678901 H).
Defined.

(** A negative number keeps its sign through the round trip. *)
Example negative_round_trip :
  format_decimal (-5) = Some "-0.0000005"%string
  /\ option_map DecimalText.nearest_scaled (DecimalText.parse "-0.0000005")
     = Some (-5).
Proof. vm_compute. split; reflexivity. Qed.

(** For larger values, which a delta can carry in its 64-bit fields, the
    quotient by ten million is rounded to a float whose seven decimals are
    those of another integer. *)
Lemma serialization_round_trip_fails :
  format_decimal 5368709120000003 = Some "536870912.0000004"%string
  /\ option_map DecimalText.nearest_scaled
       (DecimalText.parse "536870912.0000004") = Some 5368709120000004
  /\ 5368709120000004 <> 5368709120000003
  /\ 0 <= 5368709120000003 < 2 ^ 64.
Proof.
  split; [vm_compute; reflexivity|]. split; [vm_compute; reflexivity|].
  split; [discriminate|]. split; [discriminate|reflexivity].
Qed.

(** [to_json] keeps at most [depth] levels a side when [depth] is not
    negative. *)
Lemma format_levels_length (l : list (Z * Z)) (r : list (string * string)) :
  format_levels l = Some r -> List.length r = List.length l.
Proof.
  revert r. induction l as [|[p q] l IH]; intros r; cbn [format_levels].
  - now intros [= <-].
  - destruct (format_decimal p); [|discriminate].
    destruct (format_decimal q); [|discriminate].
    destruct (format_levels l) as [r'|]; [|discriminate].
    intros [= <-]. cbn [List.length]. f_equal. now apply IH.
Qed.

Lemma to_json_depth (b : OrderBook) (body : BookJson) :
  0 <= depth b -> to_json b = Some body ->
  Z.of_nat (List.length (json_bids body)) <= depth b
  /\ Z.of_nat (List.length (json_asks body)) <= depth b.
Proof.
  intros Hd. unfold to_json, slice_to, OrderedDict.items.
  destruct (Z.ltb_spec (depth b) 0); [lia|].
  destruct (format_levels (firstn _ (bids b))) as [bs|] eqn:Hb; [|discriminate].
  destruct (format_levels (firstn _ (asks b))) as [as_|] eqn:Ha; [|discriminate].
  intros [= <-]. cbn [json_bids json_asks].
  apply format_levels_length in Hb, Ha. rewrite Hb, Ha.
  pose proof (firstn_le_length (Z.to_nat (depth b)) (bids b)).
  pose proof (firstn_le_length (Z.to_nat (depth b)) (asks b)).
  lia.
Qed.

(** ** The snapshot request and the snapshot numbers                      *)

(** C4. Whatever depth the client is configured with, [_get_snapshot]
    requests the snapshot with [depth=100]: the configured depth reaches
    [to_json] only. *)
Theorem snapshot_request_ignores_depth :
  forall target depth status data,
    effects (fst (_get_snapshot (OrderBookClient_init target depth) status data))
    = [HttpGet "http://localhost:9090/snapshot?depth=100"%string].
Proof.
  intros target depth status data. unfold _get_snapshot.
  destruct (negb (status =? 200)); [reflexivity|].
  destruct (_process_snapshot _ data). reflexivity.
Qed.

(** A client started with depth 50 asks for 100 levels and reports 50. *)
Example depth_fifty_requests_hundred :
  let c := fst (_get_snapshot (OrderBookClient_init 10 50) 200 example_snapshot) in
  effects c = [HttpGet "http://localhost:9090/snapshot?depth=100"%string]
  /\ depth (order_book c) = 50.
Proof. vm_compute. split; reflexivity. Qed.

(** C3. [_process_snapshot] converts ["0.0000021"] to 20: the float
    nearest to 0.0000021, times ten million, is just under 21, and [int]
    drops the fraction.  The integer nearest to the value times [10^7]
    is 21. *)
Theorem to_scaled_truncates :
  to_scaled "0.0000021" = Some 20
  /\ option_map DecimalText.nearest_scaled (DecimalText.parse "0.0000021")
     = Some 21
  /\ bids (fst (_process_snapshot (OrderBook_init 100)
                  {| lastUpdateId := 1;
                     json_bids := [("0.0000021", "1.0000000")]%string;
                     json_asks := [] |}))
     = [(20, 10000000)].
Proof. vm_compute. repeat split; reflexivity. Qed.

(** More than seven decimals are dropped as well, not rounded. *)
Example to_scaled_drops_extra_digits :
  to_scaled "0.00000096" = Some 9
  /\ option_map DecimalText.nearest_scaled (DecimalText.parse "0.00000096")
     = Some 10.
Proof. vm_compute. split; reflexivity. Qed.

(** The printed form of 21 does not convert back to 21. *)
Example format_then_to_scaled :
  format_decimal 21 = Some "0.0000021"%string
  /\ to_scaled "0.0000021" = Some 20.
Proof. vm_compute. split; reflexivity. Qed.

(** ** Whole runs                                                         *)

(** The book a run of [start] ends with is one of the reachable books, so
    the invariants above hold of it. *)
Lemma start_reachable (c : OrderBookClient) (net : network) :
  reachable_book (order_book c) ->
  snd (start c net) = true ->
  reachable_book (order_book (fst (start c net))).
Proof.
  intros Hreach. unfold start, _start_server, _get_snapshot.
  destruct (start_status net =? 200); cbn [negb]; [|discriminate].
  destruct (negb (snapshot_status net =? 200)); cbn [negb]; [discriminate|].
  cbn [order_book emit].
  destruct (_process_snapshot (order_book c) (snapshot_data net))
    as [b ok] eqn:Hs.
  destruct ok; cbn [negb]; [|discriminate].
  intros _. cbn [fst]. unfold _connect_websocket.
  apply reachable_reconnect_loop.
  cbn [order_book with_running with_order_book].
  eapply reachable_snapshot; [exact Hreach|exact I|exact Hs].
Qed.

Lemma main_book_ordered (ob_id depth : Z) (net : network) :
  snd (start (OrderBookClient_init ob_id depth) net) = true ->
  book_ordered (order_book (main ob_id depth net)).
Proof.
  intros H. unfold main, cleanup. cbn [order_book with_running].
  eapply reachable_ordered, start_reachable; [constructor|exact H].
Qed.

(** Among the first 300 seven-digit inputs, the ones [to_scaled] converts
    to the integer below. *)
Example to_scaled_off_by_one :
  filter (fun w =>
            negb (match to_scaled ("0." ++ DecimalText.fixed_digits 7 w) with
                  | Some x => x =? w
                  | None => false
                  end))
         (map Z.of_nat (seq 1 300))
  = [21; 42; 57; 84; 91; 107; 114; 161; 168; 175; 182; 207; 214; 221; 228; 253].
Proof. vm_compute. reflexivity. Qed.

(* ===================================================================== *)
(** * Further properties of the order book                                *)
(* ===================================================================== *)

(** ** A sorted ledger is determined by its contents                      *)

Section SortedExtensionality.
Variable R : Z -> Z -> Prop.
Hypothesis R_irrefl : forall a, ~ R a a.
Hypothesis R_trans : forall a b c, R a b -> R b c -> R a c.

Lemma get_head_sorted (k v : Z) (r : OrderedDict.t) :
  StronglySorted R (OrderedDict.keys ((k, v) :: r)) ->
  OrderedDict.get r k = None.
Proof.
  intros H. apply get_None_iff.
  apply (StronglySorted_NoDup R _ R_irrefl) in H.
  now inversion H.
Qed.

Lemma get_Some_in_keys (d : OrderedDict.t) (k v : Z) :
  OrderedDict.get d k = Some v -> In k (OrderedDict.keys d).
Proof.
  intros H. destruct (in_dec Z.eq_dec k (OrderedDict.keys d)) as [Hin|Hout];
    [assumption|].
  apply get_None_iff in Hout. congruence.
Qed.

(** Two ledgers sorted the same way that answer every lookup alike are the
    same list. *)
Lemma sorted_dict_ext (d1 : OrderedDict.t) :
  forall d2,
    StronglySorted R (OrderedDict.keys d1) ->
    StronglySorted R (OrderedDict.keys d2) ->
    (forall k, OrderedDict.get d1 k = OrderedDict.get d2 k) ->
    d1 = d2.
Proof.
  induction d1 as [|[k1 v1] r1 IH]; intros d2 H1 H2 Hget.
  - destruct d2 as [|[k2 v2] r2]; [reflexivity|].
    specialize (Hget k2). cbn [OrderedDict.get] in Hget.
    rewrite Z.eqb_refl in Hget. discriminate.
  - destruct d2 as [|[k2 v2] r2].
    { specialize (Hget k1). cbn [OrderedDict.get] in Hget.
      rewrite Z.eqb_refl in Hget. discriminate. }
    assert (Hk : k1 = k2).
    { destruct (Z.eq_dec k1 k2) as [|Hne]; [assumption|exfalso].
      pose proof (Hget k1) as Ha. pose proof (Hget k2) as Hb.
      cbn [OrderedDict.get] in Ha, Hb. rewrite !Z.eqb_refl in Ha, Hb.
      destruct (Z.eqb_spec k2 k1) as [|_]; [congruence|].
      destruct (Z.eqb_spec k1 k2) as [|_]; [congruence|].
      symmetry in Ha. apply get_Some_in_keys in Ha, Hb.
      cbn [OrderedDict.keys map fst] in H1, H2.
      apply StronglySorted_inv in H1 as [_ F1].
      apply StronglySorted_inv in H2 as [_ F2].
      rewrite Forall_forall in F1, F2.
      exact (R_irrefl k1 (R_trans _ _ _ (F1 _ Hb) (F2 _ Ha))). }
    subst k2.
    assert (Hv : v1 = v2).
    { specialize (Hget k1). cbn [OrderedDict.get] in Hget.
      rewrite Z.eqb_refl in Hget. congruence. }
    subst v2. f_equal.
    apply IH.
    + cbn [OrderedDict.keys map] in H1. now apply StronglySorted_inv in H1.
    + cbn [OrderedDict.keys map] in H2. now apply StronglySorted_inv in H2.
    + intros k. destruct (Z.eq_dec k k1) as [->|Hne].
      * rewrite (get_head_sorted k1 v1 r1 H1), (get_head_sorted k1 v1 r2 H2).
        reflexivity.
      * specialize (Hget k). cbn [OrderedDict.get] in Hget.
        destruct (Z.eqb_spec k1 k); [congruence|exact Hget].
Qed.

End SortedExtensionality.

Lemma descending_ext (d1 d2 : OrderedDict.t) :
  strictly_descending d1 -> strictly_descending d2 ->
  (forall k, OrderedDict.get d1 k = OrderedDict.get d2 k) -> d1 = d2.
Proof.
  apply (sorted_dict_ext Z.gt); [intros a; lia|intros a b c; lia].
Qed.

Lemma ascending_ext (d1 d2 : OrderedDict.t) :
  strictly_ascending d1 -> strictly_ascending d2 ->
  (forall k, OrderedDict.get d1 k = OrderedDict.get d2 k) -> d1 = d2.
Proof.
  apply (sorted_dict_ext Z.lt); [intros a; lia|intros a b c; lia].
Qed.

Lemma book_ext (b b' : OrderBook) :
  depth b = depth b' -> bids b = bids b' -> asks b = asks b' ->
  last_update_id b = last_update_id b' -> b = b'.
Proof. destruct b, b'; cbn. now intros -> -> -> ->. Qed.

(** ** Lookups and sizes after an update                                  *)

Lemma update_bid_lookup (b : OrderBook) (p q k : Z) :
  NoDup (OrderedDict.keys (bids b)) ->
  OrderedDict.get (bids (update_bid b p q)) k
  = if k =? p then (if q =? 0 then None else Some q)
    else OrderedDict.get (bids b) k.
Proof.
  intros Hnd. destruct (Z.eqb_spec k p) as [->|Hne].
  - now apply update_bid_get.
  - unfold update_bid. destruct (q =? 0).
    + now apply get_pop_other.
    + assert (Hs : NoDup (OrderedDict.keys (OrderedDict.set (bids b) p q)))
        by now apply NoDup_keys_set.
      rewrite sort_bids_items by exact Hs. cbn [bids with_bids].
      unfold sorted_descending.
      rewrite (get_permutation _ _ _ Hs (sorted_items_perm _ _)).
      now apply get_set_other.
Qed.

Lemma update_ask_lookup (b : OrderBook) (p q k : Z) :
  NoDup (OrderedDict.keys (asks b)) ->
  OrderedDict.get (asks (update_ask b p q)) k
  = if k =? p then (if q =? 0 then None else Some q)
    else OrderedDict.get (asks b) k.
Proof.
  intros Hnd. destruct (Z.eqb_spec k p) as [->|Hne].
  - now apply update_ask_get.
  - unfold update_ask. destruct (q =? 0).
    + now apply get_pop_other.
    + assert (Hs : NoDup (OrderedDict.keys (OrderedDict.set (asks b) p q)))
        by now apply NoDup_keys_set.
      rewrite sort_asks_items by exact Hs. cbn [asks with_asks].
      unfold sorted_ascending.
      rewrite (get_permutation _ _ _ Hs (sorted_items_perm _ _)).
      now apply get_set_other.
Qed.

Lemma reachable_NoDup (b : OrderBook) :
  reachable_book b ->
  NoDup (OrderedDict.keys (bids b)) /\ NoDup (OrderedDict.keys (asks b)).
Proof.
  intros H. apply reachable_ordered in H as [Hb Ha].
  split; [now apply strictly_descending_NoDup|now apply strictly_ascending_NoDup].
Qed.

(** X1. [update_bid] and [update_ask] behave as the update of a map from price
    to quantity: the updated price gets the new quantity, or leaves the
    ledger when the quantity is 0, every other price keeps its quantity,
    and the ledger of the other side, the depth and the sequence number
    are untouched. *)
Theorem update_is_map_update (b : OrderBook) (p q : Z) :
  reachable_book b ->
  (forall k,
      OrderedDict.get (bids (update_bid b p q)) k
      = if k =? p then (if q =? 0 then None else Some q)
        else OrderedDict.get (bids b) k)
  /\ (forall k,
        OrderedDict.get (asks (update_ask b p q)) k
        = if k =? p then (if q =? 0 then None else Some q)
          else OrderedDict.get (asks b) k)
  /\ asks (update_bid b p q) = asks b
  /\ bids (update_ask b p q) = bids b
  /\ depth (update_bid b p q) = depth b
  /\ depth (update_ask b p q) = depth b
  /\ last_update_id (update_bid b p q) = last_update_id b
  /\ last_update_id (update_ask b p q) = last_update_id b.
Proof.
  intros H. apply reachable_NoDup in H as [Hb Ha].
  split; [intros k; now apply update_bid_lookup|].
  split; [intros k; now apply update_ask_lookup|].
  unfold update_bid, update_ask. destruct (q =? 0); repeat split.
Qed.

Lemma update_is_map_update_witness :
  let b := order_book example_client in
  reachable_book b
  /\ OrderedDict.get (bids (update_bid b 97500000 40000000)) 97500000
     = Some 40000000
  /\ OrderedDict.get (bids (update_bid b 97500000 40000000)) 95000000
     = OrderedDict.get (bids b) 95000000
  /\ asks (update_bid b 97500000 40000000) = asks b.
Proof.
  cbv zeta.
  destruct (update_is_map_update (order_book example_client)
              97500000 40000000 example_client_reachable)
    as (Hb & _ & Hother & _).
  split; [exact example_client_reachable|].
  split; [exact (Hb 97500000)|]. split; [exact (Hb 95000000)|exact Hother].
Defined.

Lemma length_set (d : OrderedDict.t) (k v : Z) :
  List.length (OrderedDict.set d k v)
  = match OrderedDict.get d k with
    | Some _ => List.length d
    | None => S (List.length d)
    end.
Proof.
  induction d as [|[k' v'] r IH]; cbn [OrderedDict.set OrderedDict.get];
    [reflexivity|].
  destruct (k' =? k); [reflexivity|].
  cbn [List.length]. rewrite IH. now destruct (OrderedDict.get r k).
Qed.

Lemma len_update_bid (b : OrderBook) (p q : Z) :
  NoDup (OrderedDict.keys (bids b)) ->
  OrderedDict.len (bids (update_bid b p q))
  = OrderedDict.len (bids b)
    + match OrderedDict.get (bids b) p with
      | Some _ => if q =? 0 then -1 else 0
      | None => if q =? 0 then 0 else 1
      end.
Proof.
  intros Hnd. unfold update_bid. destruct (q =? 0).
  - cbn [bids with_bids].
    destruct (OrderedDict.get (bids b) p) as [v|] eqn:Hg.
    + rewrite len_pop_present by congruence. lia.
    + rewrite pop_absent by assumption. lia.
  - rewrite sort_bids_items by (now apply NoDup_keys_set).
    cbn [bids with_bids]. unfold OrderedDict.len, sorted_descending.
    rewrite (Permutation_length (sorted_items_perm _ _)), length_set.
    destruct (OrderedDict.get (bids b) p); lia.
Qed.

Lemma len_update_ask (b : OrderBook) (p q : Z) :
  NoDup (OrderedDict.keys (asks b)) ->
  OrderedDict.len (asks (update_ask b p q))
  = OrderedDict.len (asks b)
    + match OrderedDict.get (asks b) p with
      | Some _ => if q =? 0 then -1 else 0
      | None => if q =? 0 then 0 else 1
      end.
Proof.
  intros Hnd. unfold update_ask. destruct (q =? 0).
  - cbn [asks with_asks].
    destruct (OrderedDict.get (asks b) p) as [v|] eqn:Hg.
    + rewrite len_pop_present by congruence. lia.
    + rewrite pop_absent by assumption. lia.
  - rewrite sort_asks_items by (now apply NoDup_keys_set).
    cbn [asks with_asks]. unfold OrderedDict.len, sorted_ascending.
    rewrite (Permutation_length (sorted_items_perm _ _)), length_set.
    destruct (OrderedDict.get (asks b) p); lia.
Qed.

(** X2. The sizes [get_size] reports move by one at most: an update adds a
    level when the price is new and the quantity is not 0, removes one
    when the price is present and the quantity is 0, and keeps the count
    otherwise; the count of the other side never moves. *)
Theorem get_size_after_update (b : OrderBook) (p q : Z) :
  reachable_book b ->
  let step := fun d => match OrderedDict.get d p with
                       | Some _ => if q =? 0 then -1 else 0
                       | None => if q =? 0 then 0 else 1
                       end in
  get_size (update_bid b p q)
  = (fst (get_size b) + step (bids b), snd (get_size b))
  /\ get_size (update_ask b p q)
     = (fst (get_size b), snd (get_size b) + step (asks b)).
Proof.
  intros H. apply reachable_NoDup in H as [Hb Ha]. cbv zeta.
  unfold get_size. cbn [fst snd].
  rewrite update_bid_asks, update_ask_bids, len_update_bid, len_update_ask
    by assumption.
  split; reflexivity.
Qed.

Lemma get_size_after_update_witness :
  let b := order_book example_client in
  reachable_book b
  /\ get_size b = (2, 1)
  /\ get_size (update_bid b 97500000 40000000) = (3, 1)
  /\ get_size (update_ask b 105000000 0) = (2, 0).
Proof.
  cbv zeta.
  destruct (get_size_after_update (order_book example_client) 97500000 40000000
              example_client_reachable) as [H1 _].
  destruct (get_size_after_update (order_book example_client) 105000000 0
              example_client_reachable) as [_ H2].
  split; [exact example_client_reachable|].
  split; [vm_compute; reflexivity|].
  split; [rewrite H1|rewrite H2]; vm_compute; reflexivity.
Defined.

(** ** How updates compose                                                *)

Lemma update_bid_keeps_order (b : OrderBook) (p q : Z) :
  book_ordered b -> strictly_descending (bids (update_bid b p q)).
Proof. intros H. now apply update_bid_ordered. Qed.

Lemma update_ask_keeps_order (b : OrderBook) (p q : Z) :
  book_ordered b -> strictly_ascending (asks (update_ask b p q)).
Proof. intros H. now apply update_ask_ordered. Qed.

Lemma ordered_NoDup (b : OrderBook) :
  book_ordered b ->
  NoDup (OrderedDict.keys (bids b)) /\ NoDup (OrderedDict.keys (asks b)).
Proof.
  intros [Hb Ha].
  split; [now apply strictly_descending_NoDup|now apply strictly_ascending_NoDup].
Qed.

Lemma update_fields (b : OrderBook) (p q : Z) :
  depth (update_bid b p q) = depth b
  /\ last_update_id (update_bid b p q) = last_update_id b
  /\ depth (update_ask b p q) = depth b
  /\ last_update_id (update_ask b p q) = last_update_id b.
Proof. unfold update_bid, update_ask. destruct (q =? 0); repeat split. Qed.

(** Two books with sorted ledgers, the same lookups and the same scalar
    fields are equal. *)
Lemma ordered_book_ext (b b' : OrderBook) :
  book_ordered b -> book_ordered b' ->
  depth b = depth b' -> last_update_id b = last_update_id b' ->
  (forall k, OrderedDict.get (bids b) k = OrderedDict.get (bids b') k) ->
  (forall k, OrderedDict.get (asks b) k = OrderedDict.get (asks b') k) ->
  b = b'.
Proof.
  intros [Hb Ha] [Hb' Ha'] Hd Hl Hgb Hga.
  apply book_ext; trivial;
    [now apply descending_ext|now apply ascending_ext].
Qed.

Ltac update_fields_rewrite :=
  repeat match goal with
    | |- context [depth (update_bid ?b ?p ?q)] =>
        rewrite (proj1 (update_fields b p q))
    | |- context [last_update_id (update_bid ?b ?p ?q)] =>
        rewrite (proj1 (proj2 (update_fields b p q)))
    | |- context [depth (update_ask ?b ?p ?q)] =>
        rewrite (proj1 (proj2 (proj2 (update_fields b p q))))
    | |- context [last_update_id (update_ask ?b ?p ?q)] =>
        rewrite (proj2 (proj2 (proj2 (update_fields b p q))))
    end.

(** X3. The last writer wins: of two updates of one side at the same price,
    only the second shows; the book is the one the second update alone
    would give. *)
Theorem update_overwrites (b : OrderBook) (p q1 q2 : Z) :
  reachable_book b ->
  update_bid (update_bid b p q1) p q2 = update_bid b p q2
  /\ update_ask (update_ask b p q1) p q2 = update_ask b p q2.
Proof.
  intros H. apply reachable_ordered in H.
  pose proof (ordered_NoDup b H) as [Hnb Hna].
  pose proof (update_bid_ordered b p q1 H) as H1.
  pose proof (update_ask_ordered b p q1 H) as H2.
  pose proof (ordered_NoDup _ H1) as [Hnb1 _].
  pose proof (ordered_NoDup _ H2) as [_ Hna2].
  split; apply ordered_book_ext;
    try (now apply update_bid_ordered); try (now apply update_ask_ordered);
    update_fields_rewrite; try reflexivity; intros k;
    rewrite ?update_bid_asks, ?update_ask_bids; try reflexivity.
  - rewrite !update_bid_lookup by assumption. now destruct (k =? p).
  - rewrite !update_ask_lookup by assumption. now destruct (k =? p).
Qed.

Lemma update_overwrites_witness :
  let b := order_book example_client in
  reachable_book b
  /\ update_bid (update_bid b 97500000 40000000) 97500000 0
     = update_bid b 97500000 0
  /\ update_bid b 97500000 0 = b.
Proof.
  cbv zeta. split; [exact example_client_reachable|].
  split.
  - exact (proj1 (update_overwrites (order_book example_client)
                    97500000 40000000 0 example_client_reachable)).
  - vm_compute. reflexivity.
Defined.

(** X4. Updates at different prices commute, and so do an update of the bids
    and an update of the asks: the book does not depend on the order in
    which such updates arrive. *)
Theorem updates_commute (b : OrderBook) (p1 q1 p2 q2 : Z) :
  reachable_book b ->
  (p1 <> p2 ->
   update_bid (update_bid b p1 q1) p2 q2 = update_bid (update_bid b p2 q2) p1 q1
   /\ update_ask (update_ask b p1 q1) p2 q2
      = update_ask (update_ask b p2 q2) p1 q1)
  /\ update_ask (update_bid b p1 q1) p2 q2 = update_bid (update_ask b p2 q2) p1 q1.
Proof.
  intros H. apply reachable_ordered in H.
  pose proof (ordered_NoDup b H) as [Hnb Hna].
  pose proof (ordered_NoDup _ (update_bid_ordered b p1 q1 H)) as [Hb1 Ha1].
  pose proof (ordered_NoDup _ (update_bid_ordered b p2 q2 H)) as [Hb2 Ha2].
  pose proof (ordered_NoDup _ (update_ask_ordered b p1 q1 H)) as [Hb3 Ha3].
  pose proof (ordered_NoDup _ (update_ask_ordered b p2 q2 H)) as [Hb4 Ha4].
  split; [intros Hne; split|]; apply ordered_book_ext;
    try (now repeat (apply update_bid_ordered || apply update_ask_ordered));
    update_fields_rewrite; try reflexivity; intros k;
    rewrite ?update_bid_asks, ?update_ask_bids;
    rewrite ?update_bid_lookup, ?update_ask_lookup by assumption;
    rewrite ?update_bid_asks, ?update_ask_bids; try reflexivity.
  - destruct (Z.eqb_spec k p1), (Z.eqb_spec k p2); congruence.
  - destruct (Z.eqb_spec k p1), (Z.eqb_spec k p2); congruence.
Qed.

Lemma updates_commute_witness :
  let b := order_book example_client in
  reachable_book b
  /\ update_bid (update_bid b 97500000 40000000) 95000000 0
     = update_bid (update_bid b 95000000 0) 97500000 40000000
  /\ OrderedDict.keys (bids (update_bid (update_bid b 97500000 40000000)
                                         95000000 0))
     = [100000000; 97500000].
Proof.
  cbv zeta. split; [exact example_client_reachable|].
  split.
  - assert (Hne : 97500000 <> 95000000) by discriminate.
    exact (proj1 (proj1 (updates_commute (order_book example_client)
                           97500000 40000000 95000000 0
                           example_client_reachable) Hne)).
  - vm_compute. reflexivity.
Defined.

(** X5. Sorting a reachable book again changes nothing: the ledgers are kept
    sorted, [_sort_bids] and [_sort_asks] find them in order. *)
Theorem sort_is_identity_on_reachable (b : OrderBook) :
  reachable_book b -> _sort_bids b = b /\ _sort_asks b = b.
Proof.
  intros H. apply reachable_ordered in H as [Hb Ha].
  pose proof (strictly_descending_NoDup _ Hb) as Hnb.
  pose proof (strictly_ascending_NoDup _ Ha) as Hna.
  split; apply book_ext; try reflexivity.
  - rewrite sort_bids_items by assumption. apply descending_ext.
    + now apply sorted_descending_ordered.
    + assumption.
    + intros k. unfold sorted_descending.
      apply get_permutation; [assumption|apply sorted_items_perm].
  - rewrite sort_asks_items by assumption. apply ascending_ext.
    + now apply sorted_ascending_ordered.
    + assumption.
    + intros k. unfold sorted_ascending.
      apply get_permutation; [assumption|apply sorted_items_perm].
Qed.

Lemma sort_is_identity_on_reachable_witness :
  reachable_book (order_book example_client)
  /\ _sort_bids (order_book example_client) = order_book example_client
  /\ _sort_asks (order_book example_client) = order_book example_client.
Proof.
  split; [exact example_client_reachable|].
  exact (sort_is_identity_on_reachable _ example_client_reachable).
Defined.

(** ** Loading a snapshot                                                 *)

Lemma store_levels_decoded (levels : list (string * string)) :
  forall d,
    store_levels d levels
    = match decode_levels levels with
      | Some l =>
          (fold_left (fun d kv => OrderedDict.set d (fst kv) (snd kv)) l d, true)
      | None => (fst (store_levels d levels), false)
      end.
Proof.
  induction levels as [|[p q] r IH]; intros d; cbn [store_levels decode_levels];
    [reflexivity|].
  destruct (to_scaled p) as [price|]; [|reflexivity].
  destruct (to_scaled q) as [quantity|]; [|reflexivity].
  rewrite IH. destruct (decode_levels r); reflexivity.
Qed.

Lemma get_app (d1 d2 : OrderedDict.t) (k : Z) :
  OrderedDict.get (d1 ++ d2) k
  = match OrderedDict.get d1 k with
    | Some v => Some v
    | None => OrderedDict.get d2 k
    end.
Proof.
  induction d1 as [|[k' v'] r IH]; cbn [app OrderedDict.get]; [reflexivity|].
  now destruct (k' =? k).
Qed.

Lemma get_set (d : OrderedDict.t) (k v k0 : Z) :
  OrderedDict.get (OrderedDict.set d k v) k0
  = if k =? k0 then Some v else OrderedDict.get d k0.
Proof.
  destruct (Z.eqb_spec k k0) as [->|Hne].
  - apply get_set_same.
  - apply get_set_other. congruence.
Qed.

Lemma get_fold_set (l : list (Z * Z)) :
  forall d k,
    OrderedDict.get
      (fold_left (fun d kv => OrderedDict.set d (fst kv) (snd kv)) l d) k
    = match last_quantity l k with
      | Some v => Some v
      | None => OrderedDict.get d k
      end.
Proof.
  unfold last_quantity.
  induction l as [|[k0 v0] r IH]; intros d k; cbn [fold_left rev fst snd];
    [reflexivity|].
  rewrite IH, get_app, get_set. cbn [OrderedDict.get].
  destruct (OrderedDict.get (rev r) k); [reflexivity|].
  now destruct (k0 =? k).
Qed.

(** X6. A snapshot load starts from nothing: the outcome depends on the book
    it is run on through the depth only, so loading the same snapshot
    again gives the same book. *)
Theorem snapshot_replaces_book (b b' : OrderBook) (snapshot : BookJson) :
  depth b = depth b' ->
  _process_snapshot b snapshot = _process_snapshot b' snapshot
  /\ _process_snapshot (fst (_process_snapshot b snapshot)) snapshot
     = _process_snapshot b snapshot.
Proof.
  assert (Hind : forall x y, depth x = depth y ->
                             _process_snapshot x snapshot
                             = _process_snapshot y snapshot).
  { intros x y Hd. unfold _process_snapshot, with_asks, with_bids,
      with_last_update_id. cbn [depth bids asks last_update_id].
    now rewrite Hd. }
  assert (Hdepth : forall x, depth (fst (_process_snapshot x snapshot)) = depth x).
  { intros x. unfold _process_snapshot.
    cbn [bids asks with_bids with_asks with_last_update_id].
    destruct (store_levels OrderedDict.empty (json_bids snapshot)) as [bs okb].
    destruct okb; cbn [negb]; [|reflexivity].
    destruct (store_levels OrderedDict.empty (json_asks snapshot)) as [as_ oka].
    destruct oka; reflexivity. }
  intros Hd. split; [now apply Hind|]. apply Hind, Hdepth.
Qed.

Lemma snapshot_replaces_book_witness :
  let b := fst (_process_snapshot (OrderBook_init 100) example_snapshot) in
  depth (order_book (_process_delta example_client
                       (delta_frame 1 6 95000000 0))) = depth (OrderBook_init 100)
  /\ _process_snapshot
       (order_book (_process_delta example_client (delta_frame 1 6 95000000 0)))
       example_snapshot
     = (b, true).
Proof.
  cbv zeta.
  assert (Hd : depth (order_book (_process_delta example_client
                                    (delta_frame 1 6 95000000 0)))
               = depth (OrderBook_init 100)) by reflexivity.
  split; [exact Hd|].
  rewrite (proj1 (snapshot_replaces_book _ _ example_snapshot Hd)).
  vm_compute. reflexivity.
Defined.

(** X7. A snapshot whose strings all convert loads without an exception.  The
    book takes the snapshot's sequence number; each ledger holds exactly
    the prices of its levels, each once, with the quantity of the last
    level at that price, bids in descending and asks in ascending order. *)
Theorem snapshot_contents (b : OrderBook) (snapshot : BookJson)
        (lb la : list (Z * Z)) :
  decode_levels (json_bids snapshot) = Some lb ->
  decode_levels (json_asks snapshot) = Some la ->
  exists b',
    _process_snapshot b snapshot = (b', true)
    /\ last_update_id b' = lastUpdateId snapshot
    /\ depth b' = depth b
    /\ (forall k, OrderedDict.get (bids b') k = last_quantity lb k)
    /\ (forall k, OrderedDict.get (asks b') k = last_quantity la k)
    /\ strictly_descending (bids b')
    /\ strictly_ascending (asks b').
Proof.
  intros Hb Ha.
  destruct (_process_snapshot b snapshot) as [b' ok] eqn:Hs.
  assert (Hok : ok = true).
  { unfold _process_snapshot in Hs.
    cbn [bids asks with_bids with_asks with_last_update_id] in Hs.
    rewrite (store_levels_decoded (json_bids snapshot)), Hb in Hs.
    cbn [negb] in Hs.
    rewrite (store_levels_decoded (json_asks snapshot)), Ha in Hs.
    cbn [negb] in Hs. now injection Hs. }
  subst ok. exists b'. split; [reflexivity|].
  pose proof (process_snapshot_ordered _ _ _ Hs) as [Hsb Hsa].
  apply process_snapshot_ok in Hs as (_ & _ & Hd & Hl & Hbids & Hasks).
  rewrite (store_levels_decoded (json_bids snapshot)), Hb in Hbids.
  rewrite (store_levels_decoded (json_asks snapshot)), Ha in Hasks.
  cbn [fst] in Hbids, Hasks.
  split; [exact Hl|]. split; [exact Hd|].
  split; [|split; [|split; assumption]]; intros k.
  - rewrite Hbids. unfold sorted_descending.
    rewrite (get_permutation _ _ k (fold_set_NoDup lb [] (NoDup_nil _))
               (sorted_items_perm _ _)).
    rewrite get_fold_set. now destruct (last_quantity lb k).
  - rewrite Hasks. unfold sorted_ascending.
    rewrite (get_permutation _ _ k (fold_set_NoDup la [] (NoDup_nil _))
               (sorted_items_perm _ _)).
    rewrite get_fold_set. now destruct (last_quantity la k).
Qed.

Lemma snapshot_contents_witness :
  let snapshot :=
    {| lastUpdateId := 7;
       json_bids := [("9.5", "1"); ("10", "2"); ("9.5", "3")]%string;
       json_asks := [("11", "4")]%string |} in
  decode_levels (json_bids snapshot)
  = Some [(95000000, 10000000); (100000000, 20000000); (95000000, 30000000)]
  /\ exists b',
      _process_snapshot (OrderBook_init 100) snapshot = (b', true)
      /\ last_update_id b' = 7
      /\ OrderedDict.get (bids b') 95000000 = Some 30000000
      /\ bids b' = [(100000000, 20000000); (95000000, 30000000)].
Proof.
  cbv zeta.
  split; [vm_compute; reflexivity|].
  destruct (snapshot_contents (OrderBook_init 100)
              {| lastUpdateId := 7;
                 json_bids := [("9.5", "1"); ("10", "2"); ("9.5", "3")]%string;
                 json_asks := [("11", "4")]%string |}
              [(95000000, 10000000); (100000000, 20000000); (95000000, 30000000)]
              [(110000000, 40000000)])
    as (b' & Hs & Hl & _ & Hg & _).
  - vm_compute. reflexivity.
  - vm_compute. reflexivity.
  - exists b'. split; [exact Hs|]. split; [exact Hl|].
    split; [rewrite Hg; vm_compute; reflexivity|].
    assert (Hc : _process_snapshot (OrderBook_init 100)
                   {| lastUpdateId := 7;
                      json_bids := [("9.5", "1"); ("10", "2"); ("9.5", "3")]%string;
                      json_asks := [("11", "4")]%string |}
                 = ({| depth := 100;
                       bids := [(100000000, 20000000); (95000000, 30000000)];
                       asks := [(110000000, 40000000)];
                       last_update_id := 7 |}, true))
      by (vm_compute; reflexivity).
    rewrite Hc in Hs. injection Hs as <-. reflexivity.
Defined.

(** [round_binary64] gives a finite number or an infinity of the sign
    asked for. *)
Lemma round_binary64_shape (sg : bool) (n d : Z) :
  (exists m e, PyFloat.round_binary64 sg n d = PyFloat.Finite sg m e)
  \/ PyFloat.round_binary64 sg n d = PyFloat.Infinity sg.
Proof.
  unfold PyFloat.round_binary64.
  destruct (n =? 0); [left; eauto|].
  match goal with |- context [if ?c then _ else _] => destruct c end;
    [right; reflexivity|left; eauto].
Qed.

(** On a plain decimal the conversion raises in one way only: the product
    is infinite. *)
Lemma to_scaled_none_plain (s : string) :
  plain_decimal s -> (to_scaled s = None <-> product_is_infinite s).
Proof.
  unfold plain_decimal, to_scaled, product_is_infinite, float_of_string,
    float_times_int.
  destruct (DecimalText.parse s) as [l|]; [intros _|intros H; now elim H].
  change (PyFloat.of_int 10000000)
    with (Some (PyFloat.Finite false 5368709120000000 (-29))).
  destruct (round_binary64_shape (DecimalText.neg l) (DecimalText.digits l)
              (10 ^ Z.of_nat (DecimalText.scale l)))
    as [(m & e & ->)| ->].
  - cbn [PyFloat.mul].
    match goal with |- context [PyFloat.round_binary64 ?a ?b ?c] =>
      destruct (round_binary64_shape a b c) as [(m' & e' & Hr)|Hr]
    end.
    + split; [rewrite Hr; discriminate|].
      intros (x & sg & [= <-] & Hx). cbn [PyFloat.mul] in Hx.
      rewrite Hr in Hx. discriminate.
    + split; [intros _|rewrite Hr; reflexivity].
      eexists. eexists. split; [reflexivity|]. cbn [PyFloat.mul].
      rewrite Hr. reflexivity.
  - split; [intros _|reflexivity].
    eexists. eexists. split; reflexivity.
Qed.

Lemma decode_levels_none (levels : list (string * string)) :
  plain_decimals levels ->
  (decode_levels levels = None <-> Exists infinite_level levels).
Proof.
  induction 1 as [|[p q] r [Hp Hq] _ IH]; cbn [decode_levels].
  - split; [discriminate|intros H; inversion H].
  - cbn [fst snd] in Hp, Hq.
    pose proof (to_scaled_none_plain p Hp) as HP.
    pose proof (to_scaled_none_plain q Hq) as HQ.
    split.
    + intros H.
      destruct (to_scaled p) as [price|];
        [|apply Exists_cons_hd; left; now apply HP].
      destruct (to_scaled q) as [quantity|];
        [|apply Exists_cons_hd; right; now apply HQ].
      destruct (decode_levels r); [discriminate|].
      apply Exists_cons_tl. now apply IH.
    + intros H. inversion H as [x l [Hx|Hx]|x l Hr]; subst.
      * cbn [fst] in Hx. apply HP in Hx. now rewrite Hx.
      * cbn [snd] in Hx. apply HQ in Hx. rewrite Hx.
        now destruct (to_scaled p).
      * apply IH in Hr. rewrite Hr.
        now destruct (to_scaled p), (to_scaled q).
Qed.

(** X8. When a snapshot load raises.  For a snapshot whose price and
    quantity strings are plain decimal literals, [_process_snapshot] raises
    exactly when [float(s) * 10_000_000] is infinite for one of them, the
    [OverflowError] of [int].  Even then the book has taken the snapshot's
    sequence number: the assignment comes before the conversions. *)
Theorem snapshot_failure (b : OrderBook) (snapshot : BookJson) :
  plain_decimals (json_bids snapshot) ->
  plain_decimals (json_asks snapshot) ->
  (snd (_process_snapshot b snapshot) = false
   <-> Exists infinite_level (json_bids snapshot ++ json_asks snapshot))
  /\ last_update_id (fst (_process_snapshot b snapshot)) = lastUpdateId snapshot
  /\ depth (fst (_process_snapshot b snapshot)) = depth b.
Proof.
  intros Hb Ha.
  pose proof (decode_levels_none _ Hb) as Db.
  pose proof (decode_levels_none _ Ha) as Da.
  rewrite Exists_app, <- Db, <- Da.
  unfold _process_snapshot.
  cbn [bids asks with_bids with_asks with_last_update_id].
  rewrite (store_levels_decoded (json_bids snapshot)).
  destruct (decode_levels (json_bids snapshot)) as [lb|]; cbn [negb fst snd].
  - rewrite (store_levels_decoded (json_asks snapshot)).
    destruct (decode_levels (json_asks snapshot)) as [la|]; cbn [negb fst snd].
    + repeat split; try discriminate. intros [H|H]; discriminate.
    + repeat split; auto.
  - repeat split; auto.
Qed.

(** A quantity that is not a number stops the load. *)
Example snapshot_failure_example :
  let snapshot := {| lastUpdateId := 9;
                     json_bids := [("10", "1"); ("11", "abc")]%string;
                     json_asks := [("12", "1")]%string |} in
  _process_snapshot (order_book example_client) snapshot
  = ({| depth := 100; bids := [(100000000, 10000000)]; asks := [];
        last_update_id := 9 |}, false).
Proof. vm_compute. reflexivity. Qed.

Lemma snapshot_failure_witness :
  let huge := ("1" ++ ("000000000000000000000000000000000000000000000000000000000000"
                       ++ "000000000000000000000000000000000000000000000000000000000000"
                       ++ "000000000000000000000000000000000000000000000000000000000000"
                       ++ "000000000000000000000000000000000000000000000000000000000000"
                       ++ "000000000000000000000000000000000000000000000000000000000000"
                       ++ "000000000000000000000000000000000000000000000000000000000000"))%string in
  let snapshot := {| lastUpdateId := 9;
                     json_bids := [("10", "1"); ("11", huge)]%string;
                     json_asks := [("12", "1")]%string |} in
  snd (_process_snapshot (order_book example_client) snapshot) = false
  /\ last_update_id (fst (_process_snapshot (order_book example_client) snapshot))
     = 9.
Proof.
  cbv zeta.
  match goal with |- snd (_process_snapshot ?b ?s) = _ /\ _ =>
    destruct (snapshot_failure b s) as (Hiff & Hid & _)
  end.
  - repeat (apply Forall_cons || apply Forall_nil); split;
      (unfold plain_decimal; vm_compute; discriminate).
  - repeat (apply Forall_cons || apply Forall_nil); split;
      (unfold plain_decimal; vm_compute; discriminate).
  - split; [|exact Hid].
    apply (proj2 Hiff). cbn [json_bids json_asks app].
    apply Exists_cons_tl, Exists_cons_hd. right.
    exists (PyFloat.Infinity false), false.
    split; [vm_compute; reflexivity|reflexivity].
Defined.

(** ** The validation payload                                             *)

Lemma length_slice_to {A} (l : list A) (n : Z) :
  Z.of_nat (List.length (slice_to l n))
  = if n <? 0 then Z.max 0 (Z.of_nat (List.length l) + n)
    else Z.min n (Z.of_nat (List.length l)).
Proof.
  unfold slice_to. destruct (Z.ltb_spec n 0); rewrite length_firstn; lia.
Qed.

(** X9. On every reachable book [to_json] returns: no number in it is too
    large for the division.  The payload carries the book's sequence
    number and, a side, the first [depth] levels when the depth is not
    negative; a negative depth drops that many levels from the end
    instead, as Python slices do. *)
Theorem to_json_of_reachable (b : OrderBook) :
  reachable_book b ->
  exists body,
    to_json b = Some body
    /\ lastUpdateId body = last_update_id b
    /\ Z.of_nat (List.length (json_bids body))
       = (if depth b <? 0 then Z.max 0 (OrderedDict.len (bids b) + depth b)
          else Z.min (depth b) (OrderedDict.len (bids b)))
    /\ Z.of_nat (List.length (json_asks body))
       = (if depth b <? 0 then Z.max 0 (OrderedDict.len (asks b) + depth b)
          else Z.min (depth b) (OrderedDict.len (asks b))).
Proof.
  intros H. apply reachable_in_float_range in H.
  destruct (to_json_total b H) as [body Hbody]. exists body.
  split; [exact Hbody|].
  unfold to_json, OrderedDict.items in Hbody.
  destruct (format_levels (slice_to (bids b) (depth b))) as [bs|] eqn:Hb;
    [|discriminate].
  destruct (format_levels (slice_to (asks b) (depth b))) as [as_|] eqn:Ha;
    [|discriminate].
  injection Hbody as <-. cbn [lastUpdateId json_bids json_asks].
  apply format_levels_length in Hb, Ha. rewrite Hb, Ha, !length_slice_to.
  repeat split.
Qed.

Lemma to_json_of_reachable_witness :
  let b2 := order_book (_process_delta
                          (with_order_book example_client
                             (fst (_process_snapshot (OrderBook_init (-1))
                                     example_snapshot)))
                          (delta_frame 1 6 97500000 40000000)) in
  reachable_book b2
  /\ depth b2 = -1
  /\ OrderedDict.len (bids b2) = 3
  /\ exists body,
      to_json b2 = Some body
      /\ lastUpdateId body = 6
      /\ Z.of_nat (List.length (json_bids body)) = 2
      /\ Z.of_nat (List.length (json_asks body)) = 0.
Proof.
  cbv zeta.
  assert (H : reachable_book
                (order_book (_process_delta
                               (with_order_book example_client
                                  (fst (_process_snapshot (OrderBook_init (-1))
                                          example_snapshot)))
                               (delta_frame 1 6 97500000 40000000)))).
  { apply reachable_delta. cbn [order_book with_order_book].
    eapply reachable_snapshot with (b := OrderBook_init (-1))
                                   (snapshot := example_snapshot).
    - constructor.
    - exact I.
    - vm_compute. reflexivity. }
  split; [exact H|]. split; [vm_compute; reflexivity|].
  split; [vm_compute; reflexivity|].
  destruct (to_json_of_reachable _ H) as (body & Hb & Hl & Hnb & Hna).
  exists body. split; [exact Hb|].
  split; [rewrite Hl; vm_compute; reflexivity|].
  split; [rewrite Hnb|rewrite Hna]; vm_compute; reflexivity.
Defined.

Lemma format_decimal_exact (v : Z) :
  Z.abs v < 2 ^ 29 * 10 ^ 7 ->
  exists s, format_decimal v = Some s /\ exact_scaled s = Some v.
Proof.
  intros Hv.
  destruct (true_divide_scaled7 v Hv) as (m & e & Hdiv & Hw).
  unfold format_decimal. rewrite Hdiv. unfold format_7f. rewrite Hw.
  eexists. split; [reflexivity|].
  unfold exact_scaled. rewrite parse_fixed7 by apply Z.abs_nonneg.
  cbn [option_map]. rewrite nearest_scaled_scale7.
  f_equal. destruct (Z.ltb_spec v 0); lia.
Qed.

Lemma format_levels_exact (l : list (Z * Z)) :
  Forall in_exact_range l ->
  exists r, format_levels l = Some r /\ read_levels r = Some l.
Proof.
  induction 1 as [|[p q] l [Hp Hq] _ (r & Hr & Hread)].
  - exists []. split; reflexivity.
  - cbn [fst snd] in Hp, Hq.
    destruct (format_decimal_exact p Hp) as (sp & Hsp & Hxp).
    destruct (format_decimal_exact q Hq) as (sq & Hsq & Hxq).
    exists ((sp, sq) :: r). cbn [format_levels read_levels].
    rewrite Hsp, Hsq, Hr, Hxp, Hxq, Hread. split; reflexivity.
Qed.

(** X10. The payload read back.  When every price and quantity of the book is
    below [2^29 * 10^7] in absolute value, the strings [to_json] prints,
    read as exact decimals and scaled by [10^7], are the levels of the
    book again: the first [depth] of each side, in the book's order. *)
Theorem to_json_reads_back (b : OrderBook) :
  Forall in_exact_range (bids b) ->
  Forall in_exact_range (asks b) ->
  exists body,
    to_json b = Some body
    /\ lastUpdateId body = last_update_id b
    /\ read_levels (json_bids body) = Some (slice_to (bids b) (depth b))
    /\ read_levels (json_asks body) = Some (slice_to (asks b) (depth b)).
Proof.
  intros Hb Ha.
  destruct (format_levels_exact _ (Forall_slice_to _ _ (depth b) Hb))
    as (bs & Hbs & Hrb).
  destruct (format_levels_exact _ (Forall_slice_to _ _ (depth b) Ha))
    as (as_ & Has & Hra).
  exists {| lastUpdateId := last_update_id b; json_bids := bs; json_asks := as_ |}.
  unfold to_json, OrderedDict.items. rewrite Hbs, Has.
  repeat split; assumption.
Qed.

Lemma to_json_reads_back_witness :
  let b := order_book example_client in
  Forall in_exact_range (bids b)
  /\ Forall in_exact_range (asks b)
  /\ exists body,
      to_json b = Some body
      /\ json_bids body
         = [("10.0000000", "1.0000000"); ("9.5000000", "3.0000000")]%string
      /\ read_levels (json_bids body)
         = Some [(100000000, 10000000); (95000000, 30000000)].
Proof.
  cbv zeta.
  assert (Hb : Forall in_exact_range (bids (order_book example_client))).
  { replace (bids (order_book example_client))
      with [(100000000, 10000000); (95000000, 30000000)]
      by (vm_compute; reflexivity).
    repeat (apply Forall_cons || apply Forall_nil); split; reflexivity. }
  assert (Ha : Forall in_exact_range (asks (order_book example_client))).
  { replace (asks (order_book example_client))
      with [(105000000, 20000000)] by (vm_compute; reflexivity).
    repeat (apply Forall_cons || apply Forall_nil); split; reflexivity. }
  split; [exact Hb|]. split; [exact Ha|].
  destruct (to_json_reads_back _ Hb Ha) as (body & Hj & _ & Hr & _).
  exists body. split; [exact Hj|].
  assert (Hc : to_json (order_book example_client)
               = Some {| lastUpdateId := 5;
                         json_bids := [("10.0000000", "1.0000000");
                                       ("9.5000000", "3.0000000")]%string;
                         json_asks := [("10.5000000", "2.0000000")]%string |})
    by (vm_compute; reflexivity).
  rewrite Hc in Hj. injection Hj as <-.
  split; [reflexivity|]. vm_compute. reflexivity.
Defined.

(** ** The read loop on any stream                                        *)

Lemma reaches_target_true (t : Z) (m : ws_message) :
  reaches_target t m = true <-> is_delta m = true /\ t <= ordinal_of m.
Proof.
  unfold reaches_target. rewrite andb_true_iff, Z.leb_le. reflexivity.
Qed.

Lemma process_delta_quiet (c : OrderBookClient) (m : ws_message) :
  reaches_target (target_ordinal c) m = false ->
  _process_delta c m = with_order_book c (book_after_message (order_book c) m).
Proof.
  unfold reaches_target. intros H.
  destruct (is_delta m) eqn:Hm; cbn [andb] in H.
  - apply Z.leb_gt in H. now apply process_delta_below.
  - rewrite process_delta_malformed by assumption.
    unfold book_after_message. rewrite Hm. now destruct c.
Qed.

Lemma process_all_quiet (ms : list ws_message) :
  forall c,
    Forall (fun m => reaches_target (target_ordinal c) m = false) ms ->
    process_all c ms = with_order_book c (order_book (process_all c ms)).
Proof.
  induction ms as [|m r IH]; intros c Hq.
  - now destruct c.
  - inversion Hq as [|? ? Hm Hq']; subst.
    cbn [process_all fold_left].
    change (fold_left _process_delta r ?x) with (process_all x r).
    rewrite (process_delta_quiet c m Hm).
    rewrite (IH (with_order_book c (book_after_message (order_book c) m)) Hq')
      at 1.
    reflexivity.
Qed.

Lemma read_messages_quiet (ms : list ws_message) :
  forall c,
    running c = true ->
    Forall (fun m => reaches_target (target_ordinal c) m = false) ms ->
    read_messages c ms = (process_all c ms, false).
Proof.
  induction ms as [|m r IH]; intros c Hrun Hq; [reflexivity|].
  inversion Hq as [|? ? Hm Hq']; subst.
  cbn [read_messages process_all fold_left]. rewrite Hrun. cbn [negb].
  rewrite (process_delta_quiet c m Hm).
  now apply IH.
Qed.

Lemma process_delta_trigger (c : OrderBookClient) (d : ws_message) :
  reaches_target (target_ordinal c) d = true ->
  _process_delta c d
  = {| target_ordinal := target_ordinal c;
       order_book := book_after_message (order_book c) d;
       running := false;
       effects := effects c
                  ++ validation_effects (book_after_message (order_book c) d) |}.
Proof.
  intros H. apply reaches_target_true in H as [Hd Hge].
  now apply process_delta_at.
Qed.

Lemma read_messages_trigger (pre : list ws_message) :
  forall c d post,
    running c = true ->
    Forall (fun m => reaches_target (target_ordinal c) m = false) pre ->
    reaches_target (target_ordinal c) d = true ->
    read_messages c (pre ++ d :: post)
    = (process_all c (pre ++ [d]),
       match post with [] => false | _ :: _ => true end).
Proof.
  induction pre as [|m r IH]; intros c d post Hrun Hq Hd.
  - cbn [app read_messages process_all fold_left]. rewrite Hrun. cbn [negb].
    rewrite (process_delta_trigger c d Hd).
    destruct post; reflexivity.
  - inversion Hq as [|? ? Hm Hq']; subst.
    cbn [app read_messages process_all fold_left]. rewrite Hrun. cbn [negb].
    rewrite (process_delta_quiet c m Hm).
    now apply IH.
Qed.

Lemma process_all_trigger (pre : list ws_message) (c : OrderBookClient)
      (d : ws_message) :
  Forall (fun m => reaches_target (target_ordinal c) m = false) pre ->
  reaches_target (target_ordinal c) d = true ->
  let b := order_book (process_all c (pre ++ [d])) in
  process_all c (pre ++ [d])
  = {| target_ordinal := target_ordinal c;
       order_book := b;
       running := false;
       effects := effects c ++ validation_effects b |}.
Proof.
  intros Hq Hd. cbv zeta.
  rewrite process_all_app. cbn [process_all fold_left].
  change (fold_left _process_delta pre c) with (process_all c pre).
  rewrite (process_all_quiet pre c Hq).
  rewrite process_delta_trigger by assumption. reflexivity.
Qed.

Lemma serve_connection_quiet (c : OrderBookClient) (cn : connection) :
  running c = true ->
  Forall (fun m => reaches_target (target_ordinal c) m = false) (messages cn) ->
  exists E,
    serve_connection c cn
    = {| target_ordinal := target_ordinal c;
         order_book := order_book (process_all c (messages cn));
         running := true;
         effects := effects c ++ E |}
    /\ quiet_effects E
    /\ List.length (filter is_connect E) = 1%nat.
Proof.
  intros Hrun Hq. unfold serve_connection.
  rewrite (read_messages_quiet (messages cn) (emit c (WsConnect delta_url)))
    by assumption.
  rewrite (process_all_quiet (messages cn) (emit c (WsConnect delta_url)))
    by assumption.
  rewrite !order_book_process_all. cbn [order_book emit].
  destruct (close cn);
    [exists [WsConnect delta_url]
    |exists [WsConnect delta_url; Sleep 1]
    |exists [WsConnect delta_url; Sleep 1]];
    unfold with_order_book, emit;
    cbn [running target_ordinal order_book effects];
    rewrite ?Hrun; unfold emit; cbn [running target_ordinal order_book effects];
    rewrite <- ?app_assoc; cbn [app];
    (split; [reflexivity|split; [effects_shape|reflexivity]]).
Qed.

Lemma serve_connection_trigger (c : OrderBookClient) (cn : connection)
      (pre : list ws_message) (d : ws_message) (post : list ws_message) :
  running c = true ->
  messages cn = pre ++ d :: post ->
  Forall (fun m => reaches_target (target_ordinal c) m = false) pre ->
  reaches_target (target_ordinal c) d = true ->
  let b := order_book (process_all c (pre ++ [d])) in
  exists E2,
    serve_connection c cn
    = {| target_ordinal := target_ordinal c;
         order_book := b;
         running := false;
         effects := effects c ++ [WsConnect delta_url]
                      ++ validation_effects b ++ E2 |}
    /\ sleeps_only E2.
Proof.
  intros Hrun Hms Hq Hd. cbv zeta. unfold serve_connection.
  rewrite Hms.
  rewrite (read_messages_trigger pre (emit c (WsConnect delta_url)) d post)
    by assumption.
  rewrite (process_all_trigger pre (emit c (WsConnect delta_url)) d)
    by assumption.
  rewrite !order_book_process_all. cbn [order_book emit target_ordinal effects].
  set (b := fold_left book_after_message (pre ++ [d]) (order_book c)).
  destruct post as [|x post'].
  - destruct (close cn);
      [exists []|exists [Sleep 1]|exists []];
      unfold emit; cbn [running target_ordinal order_book effects];
      rewrite <- ?app_assoc; cbn [app]; rewrite ?app_nil_r;
      (split; [reflexivity|effects_shape]).
  - exists []. rewrite <- ?app_assoc. cbn [app]. rewrite app_nil_r.
    split; [reflexivity|effects_shape].
Qed.

Lemma reconnect_loop_quiet (cns : list connection) :
  forall c,
    running c = true ->
    Forall (fun m => reaches_target (target_ordinal c) m = false)
           (all_messages cns) ->
    exists E,
      reconnect_loop c cns
      = {| target_ordinal := target_ordinal c;
           order_book := order_book (process_all c (all_messages cns));
           running := true;
           effects := effects c ++ E |}
      /\ quiet_effects E
      /\ List.length (filter is_connect E) = List.length cns.
Proof.
  induction cns as [|cn rest IH]; intros c Hrun Hq.
  - exists []. cbn [reconnect_loop all_messages flat_map process_all fold_left].
    rewrite app_nil_r. split; [rewrite <- Hrun; now destruct c|].
    split; [constructor|reflexivity].
  - cbn [reconnect_loop]. rewrite Hrun.
    unfold all_messages in Hq. cbn [flat_map] in Hq.
    apply Forall_app in Hq as [Hq1 Hq2].
    destruct (serve_connection_quiet c cn Hrun Hq1) as (E & Hserve & HE & Hn).
    rewrite Hserve.
    match goal with |- context [reconnect_loop ?c' rest] =>
      destruct (IH c') as (E' & Hloop & HE' & Hn');
        [reflexivity|exact Hq2|] end.
    rewrite Hloop. cbn [target_ordinal effects order_book].
    exists (E ++ E').
    rewrite !order_book_process_all. cbn [order_book].
    unfold all_messages. cbn [flat_map].
    rewrite fold_left_app, <- !app_assoc.
    split; [reflexivity|]. split; [now apply Forall_app|].
    rewrite filter_app, length_app, Hn, Hn'. reflexivity.
Qed.

Lemma reconnect_loop_trigger (cns : list connection) :
  forall c pre d post,
    running c = true ->
    all_messages cns = pre ++ d :: post ->
    Forall (fun m => reaches_target (target_ordinal c) m = false) pre ->
    reaches_target (target_ordinal c) d = true ->
    let b := order_book (process_all c (pre ++ [d])) in
    exists E1 E2,
      reconnect_loop c cns
      = {| target_ordinal := target_ordinal c;
           order_book := b;
           running := false;
           effects := effects c ++ E1 ++ validation_effects b ++ E2 |}
      /\ quiet_effects E1 /\ sleeps_only E2.
Proof.
  induction cns as [|cn rest IH]; intros c pre d post Hrun Hall Hq Hd.
  - destruct pre; discriminate.
  - cbv zeta. cbn [reconnect_loop]. rewrite Hrun.
    unfold all_messages in Hall. cbn [flat_map] in Hall.
    apply app_eq_app in Hall as [l [[Hcn Hrest]|[Hpre Hrest]]].
    + destruct l as [|x l'].
      * rewrite app_nil_r in Hcn. cbn [app] in Hrest.
        destruct (serve_connection_quiet c cn Hrun) as (E & Hserve & HE & _);
          [now rewrite Hcn|].
        rewrite Hserve.
        match goal with |- context [reconnect_loop ?c' rest] =>
          destruct (IH c' [] d post) as (E1 & E2 & Hloop & HE1 & HE2);
            [reflexivity|now symmetry|constructor|assumption|] end.
        cbv zeta in Hloop. rewrite Hloop.
        cbn [target_ordinal effects order_book app].
        exists (E ++ E1), E2.
        rewrite !order_book_process_all. cbn [order_book].
        rewrite Hcn, <- fold_left_app, <- !app_assoc. cbn [app].
        split; [reflexivity|]. split; [now apply Forall_app|assumption].
      * injection Hrest as Hx Hpost. subst x post.
        destruct (serve_connection_trigger c cn pre d l' Hrun Hcn Hq Hd)
          as (E2 & Hserve & HE2).
        cbv zeta in Hserve. rewrite Hserve.
        rewrite reconnect_loop_stopped by reflexivity.
        exists [WsConnect delta_url], E2.
        split; [reflexivity|]. split; [|assumption].
        effects_shape.
    + subst pre. apply Forall_app in Hq as [Hq1 Hq2].
      destruct (serve_connection_quiet c cn Hrun Hq1) as (E & Hserve & HE & _).
      rewrite Hserve.
      match goal with |- context [reconnect_loop ?c' rest] =>
        destruct (IH c' l d post) as (E1 & E2 & Hloop & HE1 & HE2);
          [reflexivity|exact Hrest|assumption|assumption|] end.
      cbv zeta in Hloop. rewrite Hloop.
      cbn [target_ordinal effects order_book].
      exists (E ++ E1), E2.
      rewrite !order_book_process_all. cbn [order_book].
      rewrite <- fold_left_app, <- !app_assoc.
      split; [reflexivity|]. split; [now apply Forall_app|assumption].
Qed.

Lemma first_reaching (t : Z) (ms : list ws_message) :
  Forall (fun m => reaches_target t m = false) ms
  \/ exists pre d post,
      ms = pre ++ d :: post
      /\ Forall (fun m => reaches_target t m = false) pre
      /\ reaches_target t d = true.
Proof.
  induction ms as [|x r IH]; [left; constructor|].
  destruct (reaches_target t x) eqn:Hx.
  - right. exists [], x, r. repeat split; [constructor|assumption].
  - destruct IH as [Hall|(pre & d & post & -> & Hpre & Hd)].
    + left. now constructor.
    + right. exists (x :: pre), d, post.
      repeat split; [now constructor|assumption].
Qed.

(** X11. While no well-formed delta reaches the target, the read loop neither
    validates nor stops: whatever the messages are (out of order, repeated,
    malformed) and however the connections end, every connection offered
    is opened, all deltas are applied, nothing is sent to the assertion
    endpoint and the client is still running. *)
Theorem keeps_running_below_target (c : OrderBookClient) (cns : list connection) :
  Forall (fun m => reaches_target (target_ordinal c) m = false)
         (all_messages cns) ->
  running (_connect_websocket c cns) = true
  /\ order_book (_connect_websocket c cns)
     = order_book (process_all c (all_messages cns))
  /\ exists E,
      effects (_connect_websocket c cns) = effects c ++ E
      /\ quiet_effects E
      /\ List.length (filter is_connect E) = List.length cns.
Proof.
  intros Hq. unfold _connect_websocket.
  destruct (reconnect_loop_quiet cns (with_running c true))
    as (E & Hloop & HE & Hn); [reflexivity|exact Hq|].
  rewrite Hloop. cbn [running order_book effects with_running].
  split; [reflexivity|].
  split; [now rewrite !order_book_process_all|].
  exists E. repeat split; assumption.
Qed.

Lemma keeps_running_below_target_witness :
  let cns := [ {| messages := [delta_frame 1 7 95000000 0;
                               Text "ping";
                               delta_frame 0 6 105000000 0];
                  close := OtherError |};
               {| messages := []; close := ConnectionClosed |} ] in
  Forall (fun m => reaches_target (target_ordinal example_client) m = false)
         (all_messages cns)
  /\ running (_connect_websocket example_client cns) = true
  /\ last_update_id (order_book (_connect_websocket example_client cns)) = 6
  /\ exists E,
      effects (_connect_websocket example_client cns)
      = effects example_client ++ E
      /\ quiet_effects E
      /\ List.length (filter is_connect E) = 2%nat.
Proof.
  cbv zeta.
  assert (H : Forall (fun m => reaches_target (target_ordinal example_client) m
                               = false)
                (all_messages
                   [ {| messages := [delta_frame 1 7 95000000 0;
                                     Text "ping";
                                     delta_frame 0 6 105000000 0];
                        close := OtherError |};
                     {| messages := []; close := ConnectionClosed |} ])).
  { cbn [all_messages flat_map messages app].
    repeat (apply Forall_cons || apply Forall_nil); reflexivity. }
  split; [exact H|].
  destruct (keeps_running_below_target example_client _ H) as (Hr & Hb & HE).
  split; [exact Hr|]. split; [|exact HE].
  rewrite Hb. vm_compute. reflexivity.
Defined.



Lemma filter_assertion_quiet (E : list effect) :
  quiet_effects E -> filter is_assertion E = [].
Proof.
  induction 1 as [|e E He _ IH]; [reflexivity|].
  cbn [filter]. rewrite IH.
  destruct e as [url [body|]| | |]; cbn in He |- *;
    destruct He as [He|He]; try discriminate He; reflexivity.
Qed.

Lemma filter_assertion_sleeps (E : list effect) :
  sleeps_only E -> filter is_assertion E = [].
Proof.
  intros H. apply filter_assertion_quiet.
  eapply Forall_impl; [|exact H]. intros e He. now right.
Qed.

Lemma validation_effects_count (b : OrderBook) :
  (List.length (filter is_assertion (validation_effects b)) <= 1)%nat.
Proof.
  unfold validation_effects. destruct (to_json b); cbn [filter is_assertion].
  - destruct (String.eqb _ _); cbn; lia.
  - cbn. lia.
Qed.

Lemma validation_effects_shape (b : OrderBook) :
  Forall (fun e => is_assertion e = true) (validation_effects b).
Proof.
  unfold validation_effects. destruct (to_json b); repeat constructor.
Qed.

(** The effects of the read loop, on any connections. *)
Lemma loop_effects (c : OrderBookClient) (cns : list connection) :
  exists E,
    effects (_connect_websocket c cns) = effects c ++ E
    /\ (List.length (filter is_assertion E) <= 1)%nat
    /\ (filter is_assertion E <> [] -> running (_connect_websocket c cns) = false)
    /\ Forall (fun e => is_connect e = true \/ is_sleep e = true
                        \/ is_assertion e = true) E.
Proof.
  unfold _connect_websocket.
  destruct (first_reaching (target_ordinal c) (all_messages cns))
    as [Hq|(pre & d & post & Hall & Hq & Hd)].
  - destruct (reconnect_loop_quiet cns (with_running c true))
      as (E & Hloop & Hquiet & _); [reflexivity|exact Hq|].
    rewrite Hloop. cbn [running effects with_running].
    exists E. split; [reflexivity|].
    rewrite (filter_assertion_quiet E Hquiet). cbn [List.length].
    split; [lia|]. split; [congruence|].
    eapply Forall_impl; [|exact Hquiet]. intros e [He|He]; auto.
  - destruct (reconnect_loop_trigger cns (with_running c true) pre d post)
      as (E1 & E2 & Hloop & H1 & H2); try assumption; [reflexivity|].
    cbv zeta in Hloop. rewrite Hloop. cbn [running effects with_running].
    eexists. split; [reflexivity|].
    rewrite !filter_app, (filter_assertion_quiet E1 H1),
      (filter_assertion_sleeps E2 H2), app_nil_r. cbn [app].
    split; [apply validation_effects_count|]. split; [reflexivity|].
    apply Forall_app. split; [|apply Forall_app; split].
    + eapply Forall_impl; [|exact H1]. intros e [He|He]; auto.
    + eapply Forall_impl; [|apply validation_effects_shape]. intros e He; auto.
    + eapply Forall_impl; [|exact H2]. intros e He; auto.
Qed.

(** X13. No run validates twice.  Whatever the connections carry, the read loop
    only adds effects to those already made: connections, sleeps and at
    most one request to the assertion endpoint, and a request that is sent
    leaves the client stopped. *)
Theorem at_most_one_assertion (c : OrderBookClient) (cns : list connection) :
  exists E,
    effects (_connect_websocket c cns) = effects c ++ E
    /\ (List.length (filter is_assertion E) <= 1)%nat
    /\ (filter is_assertion E <> [] -> running (_connect_websocket c cns) = false)
    /\ Forall (fun e => is_connect e = true \/ is_sleep e = true
                        \/ is_assertion e = true) E.
Proof. exact (loop_effects c cns). Qed.

Lemma at_most_one_assertion_witness :
  exists E,
    effects (_connect_websocket example_client example_connections)
    = effects example_client ++ E
    /\ List.length (filter is_assertion E) = 1%nat
    /\ running (_connect_websocket example_client example_connections) = false.
Proof.
  destruct (at_most_one_assertion example_client example_connections)
    as (E & HE & Hn & Hrun & _).
  exists E. split; [exact HE|].
  assert (Hone : List.length (filter is_assertion E) = 1%nat).
  { assert (Hall : List.length
                     (filter is_assertion
                        (effects (_connect_websocket example_client
                                    example_connections))) = 1%nat)
      by (vm_compute; reflexivity).
    rewrite HE, filter_app, length_app in Hall.
    change (List.length (filter is_assertion (effects example_client)))
      with 0%nat in Hall.
    exact Hall. }
  split; [exact Hone|].
  apply Hrun. intros Hnil. rewrite Hnil in Hone. discriminate.
Defined.

(** ** Start-up                                                           *)

(** X14. [start] opens the websocket only after the server start and the
    snapshot have both succeeded.  It raises exactly when the start
    request is not answered with 200, the snapshot request is not, or the
    snapshot does not load; it has then sent the start request and, in the
    last two cases, the snapshot request, nothing else, and the client is
    stopped.  When it returns, those two requests come first, in that
    order, before any connection. *)
Theorem startup_gate (c : OrderBookClient) (net : network) :
  (snd (start c net) = true
   <-> start_status net = 200 /\ snapshot_status net = 200
       /\ snd (_process_snapshot (order_book c) (snapshot_data net)) = true)
  /\ (snd (start c net) = false ->
      running (fst (start c net)) = false
      /\ effects (fst (start c net))
         = effects c ++ HttpPost start_url None
             :: (if start_status net =? 200 then [HttpGet snapshot_url] else []))
  /\ (snd (start c net) = true ->
      exists E,
        effects (fst (start c net))
        = effects c ++ [HttpPost start_url None; HttpGet snapshot_url] ++ E
        /\ Forall (fun e => is_connect e = true \/ is_sleep e = true
                            \/ is_assertion e = true) E
        /\ (List.length (filter is_assertion E) <= 1)%nat).
Proof.
  unfold start, _start_server, _get_snapshot.
  destruct (Z.eqb_spec (start_status net) 200) as [Hs|Hs]; cbn [negb].
  2: { cbn [fst snd]. split; [split; [discriminate|tauto]|].
       split; [|discriminate]. intros _. split; reflexivity. }
  destruct (Z.eqb_spec (snapshot_status net) 200) as [Hg|Hg]; cbn [negb].
  2: { cbn [fst snd]. split; [split; [discriminate|tauto]|].
       split; [|discriminate]. intros _. split; [reflexivity|].
       unfold cleanup, emit. cbn [effects with_running].
       now rewrite <- app_assoc. }
  cbn [order_book emit].
  destruct (_process_snapshot (order_book c) (snapshot_data net))
    as [b ok] eqn:Hp.
  destruct ok; cbn [negb fst snd].
  - split; [tauto|]. split; [discriminate|]. intros _.
    match goal with |- context [_connect_websocket ?c' _] =>
      destruct (loop_effects c' (connections net)) as (E & HE & Hn & _ & Hshape)
    end.
    exists E. rewrite HE. unfold with_order_book, emit. cbn [effects].
    rewrite <- !app_assoc. cbn [app]. repeat split; assumption.
  - split; [split; [discriminate|intros (_ & _ & H); discriminate]|].
    split; [|discriminate]. intros _. split; [reflexivity|].
    unfold cleanup, with_order_book, emit. cbn [effects with_running].
    now rewrite <- app_assoc.
Qed.

(** A refused snapshot request: two requests, no connection. *)
Example startup_refused :
  let net := {| start_status := 200; snapshot_status := 503;
                snapshot_data := example_snapshot;
                connections := example_connections |} in
  start (OrderBookClient_init 8 100) net
  = ({| target_ordinal := 8; order_book := OrderBook_init 100;
        running := false;
        effects := [HttpPost start_url None; HttpGet snapshot_url] |}, false).
Proof. vm_compute. reflexivity. Qed.

Lemma startup_gate_witness :
  let net := {| start_status := 200; snapshot_status := 503;
                snapshot_data := example_snapshot;
                connections := example_connections |} in
  snd (start (OrderBookClient_init 8 100) net) = false
  /\ running (fst (start (OrderBookClient_init 8 100) net)) = false
  /\ effects (fst (start (OrderBookClient_init 8 100) net))
     = [HttpPost start_url None; HttpGet snapshot_url].
Proof.
  cbv zeta.
  match goal with |- snd (start ?c ?n) = _ /\ _ =>
    destruct (startup_gate c n) as (_ & Hfail & _)
  end.
  assert (H : snd (start (OrderBookClient_init 8 100)
                     {| start_status := 200; snapshot_status := 503;
                        snapshot_data := example_snapshot;
                        connections := example_connections |}) = false)
    by (vm_compute; reflexivity).
  split; [exact H|].
  destruct (Hfail H) as [Hrun Heff].
  split; [exact Hrun|]. rewrite Heff. reflexivity.
Defined.

(* ===================================================================== *)
(** ** How far the snapshot conversion is from the exact value            *)
(* ===================================================================== *)

Section ScaledConversion.
Import PyFloat.

(** [n / d >= 2^j] on integers, in the product form. *)
Lemma not_below_pow2_split (n d e b : Z) :
  0 <= n -> 0 < d -> 0 <= b ->
  ~ below_pow2 n d (e + b) ->
  d * 2 ^ Z.max 0 e * 2 ^ b <= n * 2 ^ Z.max 0 (- e).
Proof.
  unfold below_pow2. intros Hn Hd Hb H.
  apply Z.nlt_ge in H.
  set (A := Z.max 0 (- e)). set (B := Z.max 0 e).
  set (A' := Z.max 0 (- (e + b))) in *. set (B' := Z.max 0 (e + b)) in *.
  assert (Hexp : B' + A = B + b + A') by lia.
  apply (Z.mul_le_mono_pos_r _ _ (2 ^ A')); [apply pow2_pos; lia|].
  apply (Z.mul_le_mono_nonneg_r _ _ (2 ^ A)) in H;
    [|apply Z.lt_le_incl, pow2_pos; lia].
  replace (n * 2 ^ A * 2 ^ A') with (n * 2 ^ A' * 2 ^ A) by ring.
  replace (d * 2 ^ B * 2 ^ b * 2 ^ A') with (d * 2 ^ B' * 2 ^ A); [exact H|].
  rewrite <- !Z.mul_assoc, <- !Z.pow_add_r by lia.
  f_equal. f_equal. lia.
Qed.

(** Rounding a quotient between [2^j0] and [2^j1], away from underflow and
    below [2^52]: the result is finite with a negative exponent [e], its
    significand is a nearest integer to [n * 2^-e / d] and has 53 bits. *)
Lemma round_binary64_normal (s : bool) (n d j0 j1 : Z) :
  0 < n -> 0 < d -> emin + 52 <= j0 -> j1 <= 52 ->
  ~ below_pow2 n d j0 -> below_pow2 n d j1 ->
  exists m e,
    round_binary64 s n d = Finite s m e
    /\ j0 - 52 <= e <= j1 - 53
    /\ 2 * Z.abs (m * d - n * 2 ^ (- e)) <= d
    /\ 2 ^ 52 * d <= n * 2 ^ (- e) < 2 ^ 53 * d.
Proof.
  intros Hn Hd Hj0 Hj1 Hlow Hup.
  destruct (floor_log2_spec n d Hn Hd) as [Hf0 Hf1].
  set (f := floor_log2 n d) in *.
  assert (Hfl : j0 <= f).
  { destruct (Z.le_gt_cases j0 f) as [H|H]; [exact H|].
    exfalso. apply Hlow. revert Hf1. apply below_pow2_mono; lia. }
  assert (Hfu : f < j1).
  { destruct (Z.le_gt_cases j1 f) as [H|H]; [|exact H].
    exfalso. apply Hf0. revert Hup. apply below_pow2_mono; lia. }
  unfold round_binary64.
  destruct (Z.eqb_spec n 0) as [H0|_]; [lia|].
  fold f. unfold prec, emin, emax in *.
  replace (Z.max (-1074) (f - (53 - 1))) with (f - 52) by lia.
  set (e := f - 52).
  replace (Z.max 0 (- e)) with (- e) by (unfold e; lia).
  replace (Z.max 0 e) with 0 by (unfold e; lia).
  rewrite Z.pow_0_r, Z.mul_1_r.
  replace ((971 <? e) || ((e =? 971) && _)) with false.
  2:{ symmetry. apply orb_false_iff. split.
      - apply Z.ltb_ge. unfold e. lia.
      - apply andb_false_iff. left. apply Z.eqb_neq. unfold e. lia. }
  exists (rne_div (n * 2 ^ (- e)) d), e.
  assert (Hp : 0 < 2 ^ (- e)) by (apply pow2_pos; unfold e; lia).
  split; [reflexivity|]. split; [unfold e; lia|].
  split; [apply rne_div_spec; [nia|exact Hd]|].
  split.
  - pose proof (not_below_pow2_split n d e 52 ltac:(lia) Hd ltac:(lia)) as H.
    replace (e + 52) with f in H by (unfold e; lia).
    specialize (H Hf0).
    replace (Z.max 0 e) with 0 in H by (unfold e; lia).
    replace (Z.max 0 (- e)) with (- e) in H by (unfold e; lia).
    rewrite Z.pow_0_r in H. lia.
  - pose proof (below_pow2_split n d e 53 ltac:(lia) Hd ltac:(lia)) as H.
    replace (e + 53) with (f + 1) in H by (unfold e; lia).
    specialize (H Hf1).
    replace (Z.max 0 e) with 0 in H by (unfold e; lia).
    replace (Z.max 0 (- e)) with (- e) in H by (unfold e; lia).
    rewrite Z.pow_0_r in H. lia.
Qed.

(** [float(10_000_000)]. *)
Lemma of_int_scale :
  of_int 10000000 = Some (Finite false 5368709120000000 (-29)).
Proof. vm_compute. reflexivity. Qed.

(** The product with [10_000_000] of a float with a negative exponent: one
    rounding of the exact product. *)
Lemma mul_scale (s : bool) (m e : Z) :
  e < 0 ->
  mul (Finite s m e) (Finite false 5368709120000000 (-29))
  = round_binary64 s (m * 5368709120000000) (2 ^ (- e) * 2 ^ 29).
Proof.
  intros He. unfold mul.
  replace (Z.max 0 (e + -29)) with 0 by lia.
  replace (Z.max 0 (- (e + -29))) with (- e + 29) by lia.
  rewrite Z.pow_0_r, Z.mul_1_r, xorb_false_r.
  rewrite Z.pow_add_r by lia. reflexivity.
Qed.

(** Two relative errors of at most [1/T] in a row, on integers. *)
Lemma two_roundings (T n p m2 E1 E2 : Z) :
  0 < T -> 0 <= n -> 0 < E1 -> 0 < E2 ->
  T * Z.abs (p - n * E1) <= n * E1 ->
  T * Z.abs (m2 * E1 - p * E2) <= p * E2 ->
  T * T * m2 <= (T + 1) * (T + 1) * (n * E2)
  /\ (T - 1) * (T - 1) * (n * E2) <= T * T * m2.
Proof.
  intros HT Hn HE1 HE2 HA HB.
  assert (Habs : forall x y, T * Z.abs (x - y) <= y ->
                             T * x <= (T + 1) * y /\ (T - 1) * y <= T * x).
  { intros x y H.
    assert (H1 : T * (x - y) <= T * Z.abs (x - y))
      by (apply Z.mul_le_mono_nonneg_l; lia).
    assert (H2 : T * (y - x) <= T * Z.abs (x - y))
      by (apply Z.mul_le_mono_nonneg_l; lia).
    lia. }
  destruct (Habs _ _ HB) as [U1 L1]. destruct (Habs _ _ HA) as [U2 L2].
  split.
  - apply (Z.mul_le_mono_pos_r _ _ E1 HE1).
    apply (Z.mul_le_mono_nonneg_l _ _ T) in U1; [|lia].
    apply (Z.mul_le_mono_nonneg_l _ _ ((T + 1) * E2)) in U2; [|nia].
    replace (T * T * m2 * E1) with (T * (T * (m2 * E1))) by ring.
    replace ((T + 1) * (T + 1) * (n * E2) * E1)
      with ((T + 1) * E2 * ((T + 1) * (n * E1))) by ring.
    replace (T * ((T + 1) * (p * E2))) with ((T + 1) * E2 * (T * p)) in U1 by ring.
    lia.
  - apply (Z.mul_le_mono_pos_r _ _ E1 HE1).
    apply (Z.mul_le_mono_nonneg_l _ _ T) in L1; [|lia].
    apply (Z.mul_le_mono_nonneg_l _ _ ((T - 1) * E2)) in L2; [|nia].
    replace (T * T * m2 * E1) with (T * (T * (m2 * E1))) by ring.
    replace ((T - 1) * (T - 1) * (n * E2) * E1)
      with ((T - 1) * E2 * ((T - 1) * (n * E1))) by ring.
    replace (T * ((T - 1) * (p * E2))) with ((T - 1) * E2 * (T * p)) in L1 by ring.
    lia.
Qed.

(** The conversion of a literal with at most seven fractional digits,
    [digits / 10^scale] with exact scaled value [n = digits * 10^(7-scale)]. *)
Lemma to_int_mul_scale (sg : bool) (D : Z) (k : nat) :
  0 <= D -> (k <= 7)%nat ->
  D * 10 ^ (7 - Z.of_nat k) <= 2 ^ 51 ->
  exists w,
    to_int (mul (round_binary64 sg D (10 ^ Z.of_nat k))
                (Finite false 5368709120000000 (-29)))
    = Some (if sg then - w else w)
    /\ D * 10 ^ (7 - Z.of_nat k) - 1 <= w <= D * 10 ^ (7 - Z.of_nat k)
    /\ 0 <= w.
Proof.
  intros HD Hk Hn.
  set (K := 10 ^ Z.of_nat k). set (R := 10 ^ (7 - Z.of_nat k)) in *.
  set (n := D * R) in *.
  assert (HK : 0 < K) by (apply Z.pow_pos_nonneg; lia).
  assert (HR : 0 < R) by (apply Z.pow_pos_nonneg; lia).
  assert (HKR : K * R = 10000000).
  { unfold K, R. rewrite <- Z.pow_add_r by lia.
    replace (Z.of_nat k + (7 - Z.of_nat k)) with 7 by lia. reflexivity. }
  destruct (Z.eq_dec D 0) as [HD0|HD0].
  { exists 0. subst D. unfold n. rewrite Z.mul_0_l.
    split; [|lia]. destruct sg; reflexivity. }
  assert (HDn : D <= n) by (unfold n; nia).
  assert (HK7 : K <= 10000000) by nia.
  (* float(s) *)
  destruct (round_binary64_normal sg D K (-24) 52)
    as (m1 & e1 & Hx & He1 & Hnear1 & Hnorm1);
    [lia|exact HK|unfold emin; lia|lia| | |].
  { change (~ D * 2 ^ 24 < K * 2 ^ 0). lia. }
  { change (D * 2 ^ 0 < K * 2 ^ 52). lia. }
  rewrite Hx, mul_scale by lia.
  set (E1 := 2 ^ (- e1)) in *.
  assert (HE1 : 0 < E1) by (apply pow2_pos; lia).
  set (T := 2 ^ 53) in *.
  assert (HT : T = 9007199254740992) by reflexivity.
  (* the exact product against n *)
  assert (HA : T * Z.abs (m1 * 10000000 - n * E1) <= n * E1).
  { replace (m1 * 10000000 - n * E1) with (R * (m1 * K - D * E1))
      by (unfold n; rewrite <- HKR; ring).
    rewrite Z.abs_mul, (Z.abs_eq R) by lia.
    replace (n * E1) with (R * (D * E1)) by (unfold n; ring).
    rewrite Z.mul_assoc, (Z.mul_comm T R), <- Z.mul_assoc.
    apply Z.mul_le_mono_nonneg_l; lia. }
  assert (Hn1 : 1 <= n) by lia.
  assert (HnE : E1 <= n * E1) by nia.
  assert (HnE' : n * E1 <= 2 ^ 51 * E1) by nia.
  assert (Hm1 : 0 < m1) by lia.
  (* float(s) * 10_000_000 *)
  destruct (round_binary64_normal sg (m1 * 5368709120000000) (E1 * 2 ^ 29) (-1) 52)
    as (m2 & e2 & Hy & He2 & Hnear2 & Hnorm2);
    [lia|lia|unfold emin; lia|lia| | |].
  { change (~ m1 * 5368709120000000 * 2 ^ 1 < E1 * 2 ^ 29 * 2 ^ 0). lia. }
  { change (m1 * 5368709120000000 * 2 ^ 0 < E1 * 2 ^ 29 * 2 ^ 52). lia. }
  rewrite Hy.
  set (E2 := 2 ^ (- e2)) in *.
  assert (HE2 : 0 < E2) by (apply pow2_pos; lia).
  assert (HB : T * Z.abs (m2 * E1 - m1 * 10000000 * E2) <= m1 * 10000000 * E2) by lia.
  destruct (two_roundings T n (m1 * 10000000) m2 E1 E2
              ltac:(lia) ltac:(lia) HE1 HE2 HA HB) as [Hup Hlo].
  assert (HnE2 : n * E2 <= 2 ^ 51 * E2) by nia.
  assert (Hbounds : (n - 1) * E2 <= m2 < (n + 1) * E2).
  { rewrite HT in Hup, Hlo.
    replace ((n - 1) * E2) with (n * E2 - E2) by ring.
    replace ((n + 1) * E2) with (n * E2 + E2) by ring.
    lia. }
  unfold to_int.
  replace (Z.max 0 e2) with 0 by lia.
  replace (Z.max 0 (- e2)) with (- e2) by lia.
  rewrite Z.pow_0_r, Z.mul_1_r. fold E2.
  exists (m2 / E2). split; [reflexivity|].
  split; [split|].
  - apply Z.div_le_lower_bound; [exact HE2|]. lia.
  - apply Z.lt_succ_r. apply Z.div_lt_upper_bound; [exact HE2|]. lia.
  - apply Z.div_pos; lia.
Qed.

(** With seven fractional digits at most the exact scaled value is the
    integer [digits * 10^(7 - scale)]. *)
Lemma nearest_scaled_exact (l : DecimalText.literal) :
  (DecimalText.scale l <= 7)%nat ->
  DecimalText.nearest_scaled l
  = if DecimalText.neg l
    then - (DecimalText.digits l * 10 ^ (7 - Z.of_nat (DecimalText.scale l)))
    else DecimalText.digits l * 10 ^ (7 - Z.of_nat (DecimalText.scale l)).
Proof.
  intros Hk. unfold DecimalText.nearest_scaled.
  set (D := DecimalText.digits l). set (k := DecimalText.scale l) in *.
  replace (rne_div (D * 10 ^ 7) (10 ^ Z.of_nat k))
    with (D * 10 ^ (7 - Z.of_nat k)); [reflexivity|].
  symmetry. apply rne_div_unique; [apply Z.pow_pos_nonneg; lia|].
  replace (D * 10 ^ (7 - Z.of_nat k) * 10 ^ Z.of_nat k - D * 10 ^ 7) with 0.
  - cbn [Z.abs Z.mul]. apply Z.pow_pos_nonneg; lia.
  - rewrite <- Z.mul_assoc, <- Z.pow_add_r by lia.
    replace (7 - Z.of_nat k + Z.of_nat k) with 7 by lia. ring.
Qed.

Lemma to_scaled_parsed (s : string) (l : DecimalText.literal) :
  DecimalText.parse s = Some l ->
  to_scaled s
  = to_int (mul (round_binary64 (DecimalText.neg l) (DecimalText.digits l)
                   (10 ^ Z.of_nat (DecimalText.scale l)))
                (Finite false 5368709120000000 (-29))).
Proof.
  intros Hp. unfold to_scaled, float_of_string, float_times_int.
  rewrite Hp, of_int_scale. reflexivity.
Qed.

(** X15. The conversion [int(float(s) * 10_000_000)] of a decimal string with
    seven fractional digits at most, whose exact scaled value is [2^51] at
    most in absolute value (225179981.3685248).  It does not raise, and the
    integer it gives is the exact scaled value or the next integer toward
    zero: never further from zero than the exact value, never of the
    other sign, and one unit off at most. *)
Theorem to_scaled_within_one (s : string) (l : DecimalText.literal) :
  DecimalText.parse s = Some l ->
  (DecimalText.scale l <= 7)%nat ->
  Z.abs (DecimalText.nearest_scaled l) <= 2 ^ 51 ->
  exists v,
    to_scaled s = Some v
    /\ Z.abs (DecimalText.nearest_scaled l) - 1 <= Z.abs v
       <= Z.abs (DecimalText.nearest_scaled l)
    /\ (0 <= DecimalText.nearest_scaled l -> 0 <= v)
    /\ (DecimalText.nearest_scaled l <= 0 -> v <= 0).
Proof.
  intros Hp Hk Hb.
  pose proof (parse_digits_nonneg s l Hp) as HD.
  rewrite (to_scaled_parsed s l Hp).
  rewrite (nearest_scaled_exact l Hk) in *.
  set (n := DecimalText.digits l * 10 ^ (7 - Z.of_nat (DecimalText.scale l))) in *.
  assert (Hn : 0 <= n).
  { unfold n. apply Z.mul_nonneg_nonneg; [exact HD|].
    apply Z.pow_nonneg. lia. }
  assert (Hn51 : n <= 2 ^ 51) by (destruct (DecimalText.neg l); lia).
  destruct (to_int_mul_scale (DecimalText.neg l) (DecimalText.digits l)
              (DecimalText.scale l) HD Hk Hn51) as (w & Hw & Hrange & Hw0).
  fold n in Hrange.
  exists (if DecimalText.neg l then - w else w).
  split; [exact Hw|].
  destruct (DecimalText.neg l); lia.
Qed.

Lemma to_scaled_within_one_witness :
  DecimalText.parse "0.0000021"
  = Some {| DecimalText.neg := false; DecimalText.digits := 21;
            DecimalText.scale := 7 |}
  /\ to_scaled "0.0000021" = Some 20
  /\ exists v,
      to_scaled "0.0000021" = Some v
      /\ Z.abs 21 - 1 <= Z.abs v <= Z.abs 21
      /\ (0 <= 21 -> 0 <= v) /\ (21 <= 0 -> v <= 0).
Proof.
  split; [reflexivity|]. split; [vm_compute; reflexivity|].
  refine (to_scaled_within_one "0.0000021"
            {| DecimalText.neg := false; DecimalText.digits := 21;
               DecimalText.scale := 7 |} eq_refl _ _).
  - cbn [DecimalText.scale]. lia.
  - vm_compute. discriminate.
Defined.

(** A nearest integer to an integer is that integer. *)
Lemma nearest_is_exact (m w d : Z) :
  0 < d -> 2 * Z.abs (m * d - w * d) <= d -> m = w.
Proof.
  intros Hd H.
  replace (m * d - w * d) with ((m - w) * d) in H by ring.
  rewrite Z.abs_mul, (Z.abs_eq d) in H by lia.
  destruct (Z.eq_dec m w) as [Heq|Hne]; [exact Heq|exfalso].
  assert (H1 : 1 <= Z.abs (m - w)) by lia.
  assert (H2 : 1 * d <= Z.abs (m - w) * d)
    by (apply Z.mul_le_mono_nonneg_r; lia).
  lia.
Qed.

(** The conversion of a binary fraction: when [digits / 10^scale] is
    [a / 2^j] with [a < 2^53], neither rounding moves the value. *)
Lemma to_int_mul_scale_exact (sg : bool) (D : Z) (k : nat) (j : Z) :
  0 <= D -> (k <= 7)%nat -> 0 <= j ->
  (10 ^ Z.of_nat k | D * 2 ^ j) ->
  D * 2 ^ j < 2 ^ 53 * 10 ^ Z.of_nat k ->
  D * 10 ^ (7 - Z.of_nat k) < 2 ^ 52 ->
  to_int (mul (round_binary64 sg D (10 ^ Z.of_nat k))
              (Finite false 5368709120000000 (-29)))
  = Some (if sg then - (D * 10 ^ (7 - Z.of_nat k))
          else D * 10 ^ (7 - Z.of_nat k)).
Proof.
  intros HD Hk Hj [a Ha] Ha53 Hn.
  set (K := 10 ^ Z.of_nat k) in *. set (R := 10 ^ (7 - Z.of_nat k)) in *.
  set (n := D * R) in *.
  assert (HK : 0 < K) by (apply Z.pow_pos_nonneg; lia).
  assert (HR : 0 < R) by (apply Z.pow_pos_nonneg; lia).
  assert (HKR : K * R = 10000000).
  { unfold K, R. rewrite <- Z.pow_add_r by lia.
    replace (Z.of_nat k + (7 - Z.of_nat k)) with 7 by lia. reflexivity. }
  destruct (Z.eq_dec D 0) as [HD0|HD0].
  { subst D. unfold n. rewrite Z.mul_0_l. destruct sg; reflexivity. }
  assert (HDn : D <= n) by (unfold n; nia).
  assert (HK7 : K <= 10000000) by nia.
  assert (HJ : 0 < 2 ^ j) by (apply pow2_pos; exact Hj).
  assert (Ha53' : a < 2 ^ 53).
  { rewrite Ha in Ha53. apply Z.mul_lt_mono_pos_r in Ha53; assumption. }
  (* float(s) *)
  destruct (round_binary64_normal sg D K (-24) 52)
    as (m1 & e1 & Hx & He1 & Hnear1 & Hnorm1);
    [lia|exact HK|unfold emin; lia|lia| | |].
  { change (~ D * 2 ^ 24 < K * 2 ^ 0). lia. }
  { change (D * 2 ^ 0 < K * 2 ^ 52). lia. }
  rewrite Hx, mul_scale by lia.
  set (E1 := 2 ^ (- e1)) in *.
  assert (HE1 : 0 < E1) by (apply pow2_pos; lia).
  (* the exponent leaves room for the [j] fractional bits *)
  assert (Hje : j <= - e1).
  { assert (H1 : 2 ^ 52 * 2 ^ j * K <= a * E1 * K).
    { replace (a * E1 * K) with (a * K * E1) by ring. rewrite <- Ha.
      replace (2 ^ 52 * 2 ^ j * K) with (2 ^ 52 * K * 2 ^ j) by ring.
      replace (D * 2 ^ j * E1) with (D * E1 * 2 ^ j) by ring.
      apply Z.mul_le_mono_nonneg_r; lia. }
    apply Z.mul_le_mono_pos_r in H1; [|exact HK].
    assert (H2 : a * E1 < 2 ^ 53 * E1)
      by (apply Z.mul_lt_mono_pos_r; assumption).
    assert (H3 : 2 ^ j < 2 ^ (1 - e1)).
    { replace (1 - e1) with (1 + - e1) by lia.
      rewrite Z.pow_add_r by lia. fold E1. lia. }
    apply Z.pow_lt_mono_r_iff in H3; lia. }
  set (G := 2 ^ (- e1 - j)).
  assert (HG : 0 < G) by (apply pow2_pos; lia).
  assert (HE1G : E1 = 2 ^ j * G).
  { unfold E1, G. rewrite <- Z.pow_add_r by lia. f_equal. lia. }
  assert (Hm1 : m1 = a * G).
  { apply (nearest_is_exact m1 (a * G) K HK).
    replace (a * G * K) with (D * E1); [exact Hnear1|].
    rewrite HE1G, Z.mul_assoc, Ha. ring. }
  assert (Hexact : m1 * 10000000 = n * E1).
  { rewrite Hm1, <- HKR, HE1G. unfold n.
    replace (a * G * (K * R)) with (a * K * (G * R)) by ring.
    rewrite <- Ha. ring. }
  assert (Hn1 : 1 <= n) by lia.
  assert (HD2 : 0 < E1 * 2 ^ 29) by lia.
  assert (HN2 : m1 * 5368709120000000 = n * (E1 * 2 ^ 29)).
  { change 5368709120000000 with (10000000 * 2 ^ 29).
    rewrite Z.mul_assoc, Hexact. ring. }
  (* float(s) * 10_000_000 *)
  rewrite HN2.
  destruct (round_binary64_normal sg (n * (E1 * 2 ^ 29)) (E1 * 2 ^ 29) 0 52)
    as (m2 & e2 & Hy & He2 & Hnear2 & Hnorm2);
    [nia|lia|unfold emin; lia|lia| | |].
  { change (~ n * (E1 * 2 ^ 29) * 2 ^ 0 < E1 * 2 ^ 29 * 2 ^ 0). nia. }
  { change (n * (E1 * 2 ^ 29) * 2 ^ 0 < E1 * 2 ^ 29 * 2 ^ 52). nia. }
  rewrite Hy.
  set (E2 := 2 ^ (- e2)) in *.
  assert (HE2 : 0 < E2) by (apply pow2_pos; lia).
  assert (Hm2 : m2 = n * E2).
  { apply (nearest_is_exact m2 (n * E2) (E1 * 2 ^ 29) HD2).
    replace (n * E2 * (E1 * 2 ^ 29)) with (n * (E1 * 2 ^ 29) * E2) by ring.
    exact Hnear2. }
  unfold to_int.
  replace (Z.max 0 e2) with 0 by lia.
  replace (Z.max 0 (- e2)) with (- e2) by lia.
  rewrite Z.pow_0_r, Z.mul_1_r. fold E2.
  rewrite Hm2, Z.div_mul by lia. reflexivity.
Qed.

(** X16. Whole numbers, halves, quarters and the like convert exactly.  When
    the value of a decimal string with seven fractional digits at most is
    a binary fraction [a / 2^j] with [a] below [2^53], and its exact scaled
    value is below [2^52] in absolute value, then
    [int(float(s) * 10_000_000)] is the exact scaled value: neither the
    reading of the string nor the product rounds. *)
Theorem to_scaled_exact_on_binary_fractions
        (s : string) (l : DecimalText.literal) (j : Z) :
  DecimalText.parse s = Some l ->
  (DecimalText.scale l <= 7)%nat ->
  0 <= j ->
  (10 ^ Z.of_nat (DecimalText.scale l) | DecimalText.digits l * 2 ^ j) ->
  DecimalText.digits l * 2 ^ j < 2 ^ 53 * 10 ^ Z.of_nat (DecimalText.scale l) ->
  Z.abs (DecimalText.nearest_scaled l) < 2 ^ 52 ->
  to_scaled s = Some (DecimalText.nearest_scaled l).
Proof.
  intros Hp Hk Hj Hdiv Ha Hb.
  pose proof (parse_digits_nonneg s l Hp) as HD.
  rewrite (to_scaled_parsed s l Hp).
  rewrite (nearest_scaled_exact l Hk) in *.
  assert (Hn : 0 <= DecimalText.digits l
                    * 10 ^ (7 - Z.of_nat (DecimalText.scale l))).
  { apply Z.mul_nonneg_nonneg; [exact HD|]. apply Z.pow_nonneg. lia. }
  apply to_int_mul_scale_exact with (j := j); try assumption.
  destruct (DecimalText.neg l); lia.
Qed.

Lemma to_scaled_exact_on_binary_fractions_witness :
  to_scaled "97.5000000" = Some 975000000
  /\ to_scaled "-0.125" = Some (-1250000).
Proof.
  split.
  - refine (to_scaled_exact_on_binary_fractions "97.5000000"
              {| DecimalText.neg := false; DecimalText.digits := 975000000;
                 DecimalText.scale := 7 |} 1 eq_refl _ _ _ _ _).
    + cbn [DecimalText.scale]. lia.
    + lia.
    + exists 195. reflexivity.
    + reflexivity.
    + reflexivity.
  - refine (to_scaled_exact_on_binary_fractions "-0.125"
              {| DecimalText.neg := true; DecimalText.digits := 125;
                 DecimalText.scale := 3 |} 3 eq_refl _ _ _ _ _).
    + cbn [DecimalText.scale]. lia.
    + lia.
    + exists 1. reflexivity.
    + reflexivity.
    + reflexivity.
Defined.

End ScaledConversion.

(* ===================================================================== *)
(** ** The book after a stream                                            *)
(* ===================================================================== *)

Lemma process_all_cons (c : OrderBookClient) (m : ws_message)
      (r : list ws_message) :
  process_all c (m :: r) = process_all (_process_delta c m) r.
Proof. reflexivity. Qed.

Lemma book_after_message_depth (b : OrderBook) (m : ws_message) :
  depth (book_after_message b m) = depth b.
Proof.
  unfold book_after_message, book_after_delta.
  destruct (is_delta m); [|reflexivity].
  unfold update_bid, update_ask, _sort_bids, _sort_asks, with_bids, with_asks.
  destruct (side_of m =? 1), (quantity_of m =? 0); reflexivity.
Qed.

Lemma book_after_message_bids (b : OrderBook) (m : ws_message) (k : Z) :
  NoDup (OrderedDict.keys (bids b)) ->
  OrderedDict.get (bids (book_after_message b m)) k
  = overlay (if is_delta m && on_side true m && (price_of m =? k)
             then Some (quantity_of m) else None)
            (OrderedDict.get (bids b) k).
Proof.
  intros Hnd. unfold book_after_message, book_after_delta, on_side.
  destruct (is_delta m); cbn [andb]; [|reflexivity].
  destruct (side_of m =? 1); cbn [Bool.eqb andb].
  - change (bids (with_last_update_id ?x _)) with (bids x).
    rewrite update_bid_lookup by exact Hnd.
    rewrite (Z.eqb_sym k). destruct (price_of m =? k); reflexivity.
  - change (bids (with_last_update_id ?x _)) with (bids x).
    rewrite update_ask_bids. reflexivity.
Qed.

Lemma book_after_message_asks (b : OrderBook) (m : ws_message) (k : Z) :
  NoDup (OrderedDict.keys (asks b)) ->
  OrderedDict.get (asks (book_after_message b m)) k
  = overlay (if is_delta m && on_side false m && (price_of m =? k)
             then Some (quantity_of m) else None)
            (OrderedDict.get (asks b) k).
Proof.
  intros Hnd. unfold book_after_message, book_after_delta, on_side.
  destruct (is_delta m); cbn [andb]; [|reflexivity].
  destruct (side_of m =? 1); cbn [Bool.eqb andb].
  - change (asks (with_last_update_id ?x _)) with (asks x).
    rewrite update_bid_asks. reflexivity.
  - change (asks (with_last_update_id ?x _)) with (asks x).
    rewrite update_ask_lookup by exact Hnd.
    rewrite (Z.eqb_sym k). destruct (price_of m =? k); reflexivity.
Qed.

(** X17. Last writer wins along a whole stream.  After any messages, handled in
    order from a reachable book, a price holds the quantity of the last
    well-formed delta of its side at that price (none when that quantity
    is 0) and, where no delta touched it, what it held before; the
    sequence number is that of the last well-formed delta; the depth never
    changes.  Malformed messages and the order of sequence numbers play no
    part. *)
Theorem stream_overlay (ms : list ws_message) (c : OrderBookClient) :
  reachable_book (order_book c) ->
  (forall k,
      OrderedDict.get (bids (order_book (process_all c ms))) k
      = overlay (last_delta true k ms) (OrderedDict.get (bids (order_book c)) k))
  /\ (forall k,
        OrderedDict.get (asks (order_book (process_all c ms))) k
        = overlay (last_delta false k ms)
                  (OrderedDict.get (asks (order_book c)) k))
  /\ last_update_id (order_book (process_all c ms))
     = match last_ordinal ms with
       | Some n => n
       | None => last_update_id (order_book c)
       end
  /\ depth (order_book (process_all c ms)) = depth (order_book c).
Proof.
  revert c. induction ms as [|m r IH]; intros c Hreach.
  - repeat split; reflexivity.
  - rewrite process_all_cons.
    assert (Hreach' : reachable_book (order_book (_process_delta c m)))
      by (apply reachable_delta; exact Hreach).
    destruct (IH _ Hreach') as (Hb & Ha & Hl & Hd).
    destruct (reachable_NoDup _ Hreach) as [Hnb Hna].
    rewrite order_book_process_delta in Hb, Ha, Hd.
    repeat split.
    + intros k. rewrite Hb, book_after_message_bids by exact Hnb.
      cbn [last_delta]. destruct (last_delta true k r); reflexivity.
    + intros k. rewrite Ha, book_after_message_asks by exact Hna.
      cbn [last_delta]. destruct (last_delta false k r); reflexivity.
    + rewrite Hl, last_update_id_process_delta. cbn [last_ordinal].
      destruct (last_ordinal r); [reflexivity|].
      destruct (is_delta m); reflexivity.
    + rewrite Hd. apply book_after_message_depth.
Qed.

Lemma stream_overlay_witness :
  let ms := [delta_frame 1 6 95000000 0;
             Text "ping";
             delta_frame 1 4 97500000 20000000;
             delta_frame 0 5 97500000 30000000;
             delta_frame 1 2 97500000 40000000] in
  reachable_book (order_book example_client)
  /\ OrderedDict.get (bids (order_book (process_all example_client ms))) 97500000
     = Some 40000000
  /\ OrderedDict.get (bids (order_book (process_all example_client ms))) 95000000
     = None
  /\ OrderedDict.get (bids (order_book (process_all example_client ms))) 100000000
     = Some 10000000
  /\ last_update_id (order_book (process_all example_client ms)) = 2.
Proof.
  cbv zeta.
  pose proof (stream_overlay
                [delta_frame 1 6 95000000 0;
                 Text "ping";
                 delta_frame 1 4 97500000 20000000;
                 delta_frame 0 5 97500000 30000000;
                 delta_frame 1 2 97500000 40000000]
                example_client example_client_reachable) as (Hb & _ & Hl & _).
  split; [exact example_client_reachable|].
  rewrite !Hb, Hl. repeat split; vm_compute; reflexivity.
Defined.

(* ===================================================================== *)
(** ** Reconnections                                                      *)
(* ===================================================================== *)

Lemma filter_assertion_app (E E' : list effect) :
  filter is_assertion (E ++ E') = filter is_assertion E ++ filter is_assertion E'.
Proof. apply filter_app. Qed.

(** X18. Reconnections are transparent.  How the stream is cut into
    connections, how many of them there are and how each one ends changes
    neither the book the read loop ends with, nor whether it is still
    running, nor what it sends to the assertion endpoint: these depend on
    the messages in their order of arrival only. *)
Theorem reconnection_transparent (c : OrderBookClient)
        (cns cns' : list connection) :
  all_messages cns = all_messages cns' ->
  order_book (_connect_websocket c cns) = order_book (_connect_websocket c cns')
  /\ running (_connect_websocket c cns) = running (_connect_websocket c cns')
  /\ filter is_assertion (effects (_connect_websocket c cns))
     = filter is_assertion (effects (_connect_websocket c cns')).
Proof.
  intros Hms. unfold _connect_websocket.
  set (c1 := with_running c true).
  assert (Hrun : running c1 = true) by reflexivity.
  destruct (first_reaching (target_ordinal c1) (all_messages cns))
    as [Hq|(pre & d & post & Hsplit & Hpre & Hd)].
  - destruct (reconnect_loop_quiet cns c1 Hrun Hq) as (E & -> & HE & _).
    rewrite Hms in Hq.
    destruct (reconnect_loop_quiet cns' c1 Hrun Hq) as (E' & -> & HE' & _).
    cbn [order_book running effects]. rewrite Hms.
    split; [reflexivity|]. split; [reflexivity|].
    rewrite !filter_assertion_app.
    rewrite (filter_assertion_quiet _ HE), (filter_assertion_quiet _ HE').
    reflexivity.
  - destruct (reconnect_loop_trigger cns c1 pre d post Hrun Hsplit Hpre Hd)
      as (E1 & E2 & -> & HE1 & HE2).
    rewrite Hms in Hsplit.
    destruct (reconnect_loop_trigger cns' c1 pre d post Hrun Hsplit Hpre Hd)
      as (E1' & E2' & -> & HE1' & HE2').
    cbn [order_book running effects].
    split; [reflexivity|]. split; [reflexivity|].
    rewrite !filter_assertion_app.
    rewrite (filter_assertion_quiet _ HE1), (filter_assertion_quiet _ HE1').
    rewrite (filter_assertion_sleeps _ HE2), (filter_assertion_sleeps _ HE2').
    reflexivity.
Qed.

Lemma reconnection_transparent_witness :
  let one := [ {| messages := [delta_frame 1 6 95000000 0;
                               delta_frame 0 7 105000000 10000000;
                               delta_frame 1 8 97500000 20000000;
                               delta_frame 1 9 97500000 0;
                               delta_frame 0 10 105000000 0];
                  close := OtherError |} ] in
  order_book (_connect_websocket example_client example_connections)
  = order_book (_connect_websocket example_client one)
  /\ running (_connect_websocket example_client example_connections)
     = running (_connect_websocket example_client one)
  /\ filter is_assertion
       (effects (_connect_websocket example_client example_connections))
     = filter is_assertion (effects (_connect_websocket example_client one)).
Proof.
  cbv zeta. apply reconnection_transparent. reflexivity.
Defined.

(* ===================================================================== *)
(** ** A whole run of [main]                                              *)
(* ===================================================================== *)




(* ===================================================================== *)
(** ** The frame layout                                                   *)
(* ===================================================================== *)

Lemma be_uint_app (l : list Byte.byte) (b : Byte.byte) :
  be_uint (l ++ [b]) = 256 * be_uint l + Z.of_N (Strings.Byte.to_N b).
Proof. unfold be_uint. rewrite fold_left_app. reflexivity. Qed.

(** The byte of a number below 256. *)
Lemma byte_of_value (x : Z) :
  0 <= x < 256 ->
  exists b, Strings.Byte.of_N (Z.to_N x) = Some b
            /\ Z.of_N (Strings.Byte.to_N b) = x.
Proof.
  intros Hx. destruct (Strings.Byte.of_N (Z.to_N x)) as [b|] eqn:E.
  - exists b. split; [reflexivity|].
    apply Strings.Byte.to_of_N in E. rewrite E. lia.
  - apply Strings.Byte.of_N_None_iff in E. lia.
Qed.

Lemma be_bytes_S (w : nat) (z : Z) :
  be_bytes (S w) z
  = be_bytes w (z / 256)
      ++ [match Strings.Byte.of_N (Z.to_N (z mod 256)) with
          | Some b => b
          | None => Byte.x00
          end].
Proof.
  unfold be_bytes. rewrite seq_S, map_app. cbn [map Nat.add]. f_equal.
  - apply map_ext_in. intros i Hi. apply in_seq in Hi.
    replace (Z.of_nat (S w - 1 - i)) with (Z.of_nat (w - 1 - i) + 1) by lia.
    rewrite Z.pow_add_r, Z.pow_1_r by lia.
    rewrite (Z.mul_comm _ 256), <- Z.div_div; [reflexivity|lia|].
    apply Z.pow_pos_nonneg; lia.
  - replace (S w - 1 - w)%nat with 0%nat by lia.
    cbn [Z.of_nat]. rewrite Z.pow_0_r, Z.div_1_r. reflexivity.
Qed.

Lemma length_be_bytes (w : nat) (z : Z) : List.length (be_bytes w z) = w.
Proof. unfold be_bytes. now rewrite length_map, length_seq. Qed.

(** Unpacking what was packed gives the number back, modulo the width. *)
Lemma be_uint_be_bytes (w : nat) :
  forall z, be_uint (be_bytes w z) = z mod 256 ^ Z.of_nat w.
Proof.
  induction w as [|w IH]; intros z.
  - cbn. now rewrite Z.mod_1_r.
  - rewrite be_bytes_S, be_uint_app, IH.
    destruct (byte_of_value (z mod 256)) as (b & -> & ->);
      [apply Z.mod_pos_bound; lia|].
    rewrite Nat2Z.inj_succ, Z.pow_succ_r by lia.
    rewrite Z.rem_mul_r; [lia|lia|apply Z.pow_pos_nonneg; lia].
Qed.

(** Packing what was unpacked gives the bytes back. *)
Lemma be_bytes_be_uint (l : list Byte.byte) :
  be_bytes (List.length l) (be_uint l) = l.
Proof.
  induction l as [|b l IH] using rev_ind; [reflexivity|].
  rewrite length_app. cbn [List.length]. rewrite Nat.add_1_r.
  rewrite be_bytes_S, be_uint_app.
  pose proof (Strings.Byte.to_N_bounded b) as Hb.
  set (t := Z.of_N (Strings.Byte.to_N b)) in *.
  assert (Ht : 0 <= t < 256) by (unfold t; lia).
  replace ((256 * be_uint l + t) / 256) with (be_uint l)
    by (symmetry; rewrite Z.mul_comm, Z.div_add_l by lia;
        rewrite (Z.div_small t) by lia; lia).
  replace ((256 * be_uint l + t) mod 256) with t
    by (symmetry; rewrite Z.mul_comm, Z.add_comm, Z.mod_add by lia;
        apply Z.mod_small; lia).
  rewrite IH. unfold t. rewrite N2Z.id, Strings.Byte.of_to_N. reflexivity.
Qed.

Lemma firstn_app_length {A} (a r : list A) (n : nat) :
  List.length a = n -> firstn n (a ++ r) = a.
Proof.
  intros <-. rewrite firstn_app, Nat.sub_diag, firstn_all, firstn_O.
  apply app_nil_r.
Qed.

Lemma skipn_app_length {A} (a r : list A) (n : nat) :
  List.length a = n -> skipn n (a ++ r) = r.
Proof.
  intros <-. rewrite skipn_app, Nat.sub_diag, skipn_all. reflexivity.
Qed.

(** The fields of a packed frame. *)
Lemma delta_frame_fields (side ordinal price quantity : Z) :
  let m := delta_frame side ordinal price quantity in
  is_delta m = true
  /\ side_of m = side mod 2 ^ 16
  /\ ordinal_of m = ordinal mod 2 ^ 64
  /\ price_of m = price mod 2 ^ 64
  /\ quantity_of m = quantity mod 2 ^ 64.
Proof.
  cbv zeta. unfold delta_frame.
  cbn [is_delta side_of ordinal_of price_of quantity_of].
  set (A := be_bytes 2 side). set (B := be_bytes 8 ordinal).
  set (C := be_bytes 8 price). set (D := be_bytes 8 quantity).
  assert (HA : List.length A = 2%nat) by apply length_be_bytes.
  assert (HB : List.length B = 8%nat) by apply length_be_bytes.
  assert (HC : List.length C = 8%nat) by apply length_be_bytes.
  assert (HD : List.length D = 8%nat) by apply length_be_bytes.
  split; [rewrite !length_app, HA, HB, HC, HD; reflexivity|].
  split; [rewrite (firstn_app_length A _ 2 HA); apply (be_uint_be_bytes 2)|].
  split.
  { rewrite (skipn_app_length A _ 2 HA), (firstn_app_length B _ 8 HB).
    apply (be_uint_be_bytes 8). }
  split.
  { replace (A ++ B ++ C ++ D) with ((A ++ B) ++ C ++ D)
      by (now rewrite <- app_assoc).
    rewrite (skipn_app_length (A ++ B) _ 10)
      by (rewrite length_app, HA, HB; reflexivity).
    rewrite (firstn_app_length C _ 8 HC). apply (be_uint_be_bytes 8). }
  replace (A ++ B ++ C ++ D) with ((A ++ B ++ C) ++ D)
    by (now rewrite <- !app_assoc).
  rewrite (skipn_app_length (A ++ B ++ C) _ 18)
    by (rewrite !length_app, HA, HB, HC; reflexivity).
  rewrite firstn_all2 by (rewrite HD; lia). apply (be_uint_be_bytes 8).
Qed.

(** X20. The 26 bytes are the four fields and nothing else.  A frame packed
    from a side below [2^16] and a sequence number, a price and a quantity
    below [2^64] is handled as a delta with exactly these fields; and every
    26-byte message is the packing of the fields read from it, so two
    different messages never give the same delta. *)
Theorem frame_round_trip :
  (forall (c : OrderBookClient) (side ordinal price quantity : Z),
      0 <= side < 2 ^ 16 -> 0 <= ordinal < 2 ^ 64 ->
      0 <= price < 2 ^ 64 -> 0 <= quantity < 2 ^ 64 ->
      _process_delta c (delta_frame side ordinal price quantity)
      = apply_delta c side ordinal price quantity)
  /\ (forall m : list Byte.byte,
        List.length m = 26%nat ->
        Binary m = delta_frame (side_of (Binary m)) (ordinal_of (Binary m))
                     (price_of (Binary m)) (quantity_of (Binary m))).
Proof.
  split.
  - intros c side ordinal price quantity Hs Ho Hp Hq.
    destruct (delta_frame_fields side ordinal price quantity)
      as (Hd & Hside & Hord & Hprice & Hqty).
    rewrite process_delta_wellformed by exact Hd.
    rewrite Hside, Hord, Hprice, Hqty, !Z.mod_small by assumption.
    reflexivity.
  - intros m Hm. unfold delta_frame.
    cbn [side_of ordinal_of price_of quantity_of]. f_equal.
    assert (H2 : List.length (firstn 2 m) = 2%nat)
      by (rewrite length_firstn; lia).
    assert (H8a : List.length (firstn 8 (skipn 2 m)) = 8%nat)
      by (rewrite length_firstn, length_skipn; lia).
    assert (H8b : List.length (firstn 8 (skipn 10 m)) = 8%nat)
      by (rewrite length_firstn, length_skipn; lia).
    assert (H8c : List.length (firstn 8 (skipn 18 m)) = 8%nat)
      by (rewrite length_firstn, length_skipn; lia).
    pose proof (be_bytes_be_uint (firstn 2 m)) as E1. rewrite H2 in E1.
    pose proof (be_bytes_be_uint (firstn 8 (skipn 2 m))) as E2.
    rewrite H8a in E2.
    pose proof (be_bytes_be_uint (firstn 8 (skipn 10 m))) as E3.
    rewrite H8b in E3.
    pose proof (be_bytes_be_uint (firstn 8 (skipn 18 m))) as E4.
    rewrite H8c in E4.
    rewrite E1, E2, E3, E4.
    rewrite (firstn_all2 (n := 8) (skipn 18 m))
      by (rewrite length_skipn; lia).
    change 18%nat with (8 + 10)%nat. rewrite <- skipn_skipn, firstn_skipn.
    change 10%nat with (8 + 2)%nat. rewrite <- skipn_skipn, firstn_skipn.
    now rewrite firstn_skipn.
Qed.

Lemma frame_round_trip_witness :
  _process_delta example_client (delta_frame 1 6 95000000 0)
  = apply_delta example_client 1 6 95000000 0
  /\ Binary (repeat Byte.xff 26)
     = delta_frame 65535 18446744073709551615 18446744073709551615
         18446744073709551615.
Proof.
  split.
  - apply (proj1 frame_round_trip example_client 1 6 95000000 0); lia.
  - exact (proj2 frame_round_trip (repeat Byte.xff 26) eq_refl).
Defined.

(* ===================================================================== *)
(** ** Snapshots of plain decimals                                        *)
(* ===================================================================== *)

Lemma to_scaled_plain_number (s : string) :
  plain_number s -> exists v, to_scaled s = Some v /\ within_one s v.
Proof.
  intros (l & Hp & Hk & Hb).
  pose proof (parse_digits_nonneg s l Hp) as HD.
  rewrite (to_scaled_parsed s l Hp).
  unfold within_one, exact_scaled. rewrite Hp. cbn [option_map].
  rewrite (nearest_scaled_exact l Hk) in *.
  set (n := DecimalText.digits l * 10 ^ (7 - Z.of_nat (DecimalText.scale l))) in *.
  assert (Hn : 0 <= n).
  { unfold n. apply Z.mul_nonneg_nonneg; [exact HD|].
    apply Z.pow_nonneg. lia. }
  assert (Hn51 : n <= 2 ^ 51) by (destruct (DecimalText.neg l); lia).
  destruct (to_int_mul_scale (DecimalText.neg l) (DecimalText.digits l)
              (DecimalText.scale l) HD Hk Hn51) as (w & Hw & Hrange & Hw0).
  fold n in Hrange.
  exists (if DecimalText.neg l then - w else w).
  split; [exact Hw|]. eexists. split; [reflexivity|].
  destruct (DecimalText.neg l); repeat split; lia.
Qed.

Lemma decode_plain_levels (levels : list (string * string)) :
  Forall plain_level levels ->
  exists l, decode_levels levels = Some l /\ Forall2 level_within_one levels l.
Proof.
  induction 1 as [|[p q] r [Hp Hq] _ IH].
  - exists []. split; [reflexivity|constructor].
  - cbn [fst snd] in Hp, Hq.
    destruct (to_scaled_plain_number p Hp) as (price & Hprice & Hnp).
    destruct (to_scaled_plain_number q Hq) as (quantity & Hquantity & Hnq).
    destruct IH as (l & Hl & Hall).
    exists ((price, quantity) :: l). cbn [decode_levels].
    rewrite Hprice, Hquantity, Hl. split; [reflexivity|].
    constructor; [split; assumption|exact Hall].
Qed.

(** X21. A snapshot of plain decimals always loads.  When every price and
    quantity string is a plain decimal with seven fractional digits at
    most and a scaled value of [2^51] at most, [_process_snapshot] does not
    raise, every converted price and quantity is the exact scaled value
    or the next integer toward zero (same sign, one unit smaller in
    absolute value at most), and the ledgers end in order. *)
Theorem snapshot_loads (b : OrderBook) (snapshot : BookJson) :
  Forall plain_level (json_bids snapshot) ->
  Forall plain_level (json_asks snapshot) ->
  exists b' lb la,
    _process_snapshot b snapshot = (b', true)
    /\ decode_levels (json_bids snapshot) = Some lb
    /\ decode_levels (json_asks snapshot) = Some la
    /\ Forall2 level_within_one (json_bids snapshot) lb
    /\ Forall2 level_within_one (json_asks snapshot) la
    /\ book_ordered b'.
Proof.
  intros Hb Ha.
  destruct (decode_plain_levels _ Hb) as (lb & Hlb & Hnb).
  destruct (decode_plain_levels _ Ha) as (la & Hla & Hna).
  destruct (_process_snapshot b snapshot) as [b' ok] eqn:Hs.
  assert (Hok : ok = true).
  { unfold _process_snapshot in Hs.
    cbn [bids asks with_bids with_asks with_last_update_id] in Hs.
    rewrite (store_levels_decoded (json_bids snapshot)), Hlb in Hs.
    cbn [negb] in Hs.
    rewrite (store_levels_decoded (json_asks snapshot)), Hla in Hs.
    cbn [negb] in Hs. now injection Hs. }
  subst ok. exists b', lb, la.
  split; [reflexivity|]. split; [exact Hlb|]. split; [exact Hla|].
  split; [exact Hnb|]. split; [exact Hna|].
  exact (process_snapshot_ordered _ _ _ Hs).
Qed.

Lemma snapshot_loads_witness :
  Forall plain_level (json_bids example_snapshot)
  /\ Forall plain_level (json_asks example_snapshot)
  /\ exists b' lb la,
      _process_snapshot (OrderBook_init 100) example_snapshot = (b', true)
      /\ decode_levels (json_bids example_snapshot) = Some lb
      /\ decode_levels (json_asks example_snapshot) = Some la
      /\ Forall2 level_within_one (json_bids example_snapshot) lb
      /\ Forall2 level_within_one (json_asks example_snapshot) la
      /\ book_ordered b'.
Proof.
  assert (Hn : forall s l,
             DecimalText.parse s = Some l ->
             (DecimalText.scale l <=? 7)%nat = true ->
             (Z.abs (DecimalText.nearest_scaled l) <=? 2 ^ 51) = true ->
             plain_number s).
  { intros s l Hp Hk Hb. exists l. split; [exact Hp|].
    split; [apply Nat.leb_le; exact Hk|apply Z.leb_le; exact Hb]. }
  assert (Hb : Forall plain_level (json_bids example_snapshot)).
  { repeat (apply Forall_cons || apply Forall_nil); split;
      (eapply Hn; [vm_compute; reflexivity|reflexivity|reflexivity]). }
  assert (Ha : Forall plain_level (json_asks example_snapshot)).
  { repeat (apply Forall_cons || apply Forall_nil); split;
      (eapply Hn; [vm_compute; reflexivity|reflexivity|reflexivity]). }
  split; [exact Hb|]. split; [exact Ha|].
  exact (snapshot_loads (OrderBook_init 100) example_snapshot Hb Ha).
Defined.

(* ===================================================================== *)
(** ** The payload fed back to the conversion                             *)
(* ===================================================================== *)

Lemma format_decimal_literal (v : Z) :
  Z.abs v < 2 ^ 29 * 10 ^ 7 ->
  exists s,
    format_decimal v = Some s
    /\ DecimalText.parse s
       = Some {| DecimalText.neg := (v <? 0); DecimalText.digits := Z.abs v;
                 DecimalText.scale := 7 |}.
Proof.
  intros Hv.
  destruct (true_divide_scaled7 v Hv) as (m & e & Hdiv & Hw).
  unfold format_decimal. rewrite Hdiv. unfold format_7f. rewrite Hw.
  eexists. split; [reflexivity|].
  apply parse_fixed7, Z.abs_nonneg.
Qed.

(** X22. What [format_decimal] prints, [_process_snapshot] does not always read
    back: the two conversions of the client are not inverse to each other.
    For a scaled integer [v] of [2^51] at most in absolute value,
    [int(float(format_decimal(v)) * 10_000_000)] is [v] or the next integer
    toward zero, never anything else. *)
Theorem payload_reload_within_one (v : Z) :
  Z.abs v <= 2 ^ 51 ->
  exists s w,
    format_decimal v = Some s
    /\ to_scaled s = Some w
    /\ Z.abs v - 1 <= Z.abs w <= Z.abs v
    /\ (0 <= v -> 0 <= w)
    /\ (v <= 0 -> w <= 0).
Proof.
  intros Hv.
  destruct (format_decimal_literal v) as (s & Hs & Hp); [lia|].
  exists s. rewrite (to_scaled_parsed s _ Hp).
  cbn [DecimalText.neg DecimalText.digits DecimalText.scale].
  destruct (to_int_mul_scale (v <? 0) (Z.abs v) 7 (Z.abs_nonneg v)
              (Nat.le_refl 7)) as (w & Hw & Hrange & Hw0).
  { change (10 ^ (7 - Z.of_nat 7)) with 1. lia. }
  change (10 ^ (7 - Z.of_nat 7)) with 1 in Hrange. rewrite Z.mul_1_r in Hrange.
  exists (if v <? 0 then - w else w).
  split; [exact Hs|]. split; [exact Hw|].
  destruct (Z.ltb_spec v 0); lia.
Qed.

Lemma payload_reload_within_one_witness :
  Z.abs 21 <= 2 ^ 51
  /\ format_decimal 21 = Some "0.0000021"%string
  /\ to_scaled "0.0000021" = Some 20
  /\ exists s w,
      format_decimal 21 = Some s
      /\ to_scaled s = Some w
      /\ Z.abs 21 - 1 <= Z.abs w <= Z.abs 21
      /\ (0 <= 21 -> 0 <= w)
      /\ (21 <= 0 -> w <= 0).
Proof.
  assert (H : Z.abs 21 <= 2 ^ 51) by (vm_compute; discriminate).
  split; [exact H|]. split; [vm_compute; reflexivity|].
  split; [vm_compute; reflexivity|].
  exact (payload_reload_within_one 21 H).
Defined.

(* ===================================================================== *)
(** ** The pause between connections                                      *)
(* ===================================================================== *)

Lemma serve_connection_effects (c : OrderBookClient) (cn : connection) :
  running c = true ->
  Forall (fun m => reaches_target (target_ordinal c) m = false) (messages cn) ->
  serve_connection c cn
  = {| target_ordinal := target_ordinal c;
       order_book := order_book (process_all c (messages cn));
       running := true;
       effects := effects c ++ connection_effects cn |}.
Proof.
  intros Hrun Hq. unfold serve_connection, connection_effects.
  rewrite (read_messages_quiet (messages cn) (emit c (WsConnect delta_url)))
    by assumption.
  rewrite (process_all_quiet (messages cn) (emit c (WsConnect delta_url)))
    by assumption.
  rewrite !order_book_process_all. cbn [order_book emit].
  destruct (close cn);
    unfold with_order_book, emit;
    cbn [running target_ordinal order_book effects];
    rewrite ?Hrun; unfold emit; cbn [running target_ordinal order_book effects];
    rewrite <- ?app_assoc; cbn [app]; reflexivity.
Qed.

Lemma reconnect_loop_effects (cns : list connection) :
  forall c,
    running c = true ->
    Forall (fun m => reaches_target (target_ordinal c) m = false)
           (all_messages cns) ->
    effects (reconnect_loop c cns)
    = effects c ++ flat_map connection_effects cns.
Proof.
  induction cns as [|cn rest IH]; intros c Hrun Hq.
  - cbn [reconnect_loop flat_map]. now rewrite app_nil_r.
  - cbn [reconnect_loop flat_map]. rewrite Hrun.
    unfold all_messages in Hq. cbn [flat_map] in Hq.
    apply Forall_app in Hq as [Hq1 Hq2].
    rewrite (serve_connection_effects c cn Hrun Hq1).
    rewrite IH; [|reflexivity|exact Hq2].
    cbn [effects]. now rewrite <- app_assoc.
Qed.

(** X23. The one-second pause follows errors only.  While no well-formed
    delta reaches the target, the read loop does exactly this, connection
    after connection: it connects, and it sleeps one second when the
    connection ended with [ConnectionClosed] or another exception.  A
    stream that simply ends is reconnected at once, without a pause. *)
Theorem pause_after_errors_only (c : OrderBookClient) (cns : list connection) :
  Forall (fun m => reaches_target (target_ordinal c) m = false)
         (all_messages cns) ->
  effects (_connect_websocket c cns)
  = effects c ++ flat_map connection_effects cns.
Proof.
  intros Hq. unfold _connect_websocket.
  now rewrite reconnect_loop_effects.
Qed.

Lemma pause_after_errors_only_witness :
  let cns := [ {| messages := [delta_frame 1 6 95000000 0];
                  close := EndOfStream |};
               {| messages := [Text "ping"]; close := ConnectionClosed |};
               {| messages := []; close := OtherError |};
               {| messages := [delta_frame 0 7 105000000 0];
                  close := EndOfStream |} ] in
  effects (_connect_websocket example_client cns)
  = [WsConnect delta_url;
     WsConnect delta_url; Sleep 1;
     WsConnect delta_url; Sleep 1;
     WsConnect delta_url].
Proof.
  cbv zeta.
  rewrite pause_after_errors_only; [reflexivity|].
  repeat constructor.
Defined.

(* ===================================================================== *)
(** ** Zero quantities in a snapshot                                      *)
(* ===================================================================== *)

Lemma process_snapshot_bid_lookup (b : OrderBook) (snapshot : BookJson)
      (lb la : list (Z * Z)) :
  decode_levels (json_bids snapshot) = Some lb ->
  decode_levels (json_asks snapshot) = Some la ->
  snd (_process_snapshot b snapshot) = true
  /\ strictly_descending (bids (fst (_process_snapshot b snapshot)))
  /\ forall k,
      OrderedDict.get (bids (fst (_process_snapshot b snapshot))) k
      = last_quantity lb k.
Proof.
  intros Hb Ha.
  destruct (_process_snapshot b snapshot) as [b' ok] eqn:Hs.
  assert (Hok : ok = true).
  { unfold _process_snapshot in Hs.
    cbn [bids asks with_bids with_asks with_last_update_id] in Hs.
    rewrite (store_levels_decoded (json_bids snapshot)), Hb in Hs.
    cbn [negb] in Hs.
    rewrite (store_levels_decoded (json_asks snapshot)), Ha in Hs.
    cbn [negb] in Hs. now injection Hs. }
  subst ok. cbn [fst snd]. split; [reflexivity|].
  pose proof (process_snapshot_ordered _ _ _ Hs) as [Hsb _].
  split; [exact Hsb|].
  apply process_snapshot_ok in Hs as (_ & _ & _ & _ & Hbids & _).
  rewrite (store_levels_decoded (json_bids snapshot)), Hb in Hbids.
  cbn [fst] in Hbids. intros k.
  rewrite Hbids. unfold sorted_descending.
  rewrite (get_permutation _ _ k (fold_set_NoDup lb [] (NoDup_nil _))
             (sorted_items_perm _ _)).
  rewrite get_fold_set. now destruct (last_quantity lb k).
Qed.

(** C1.  The invariant "no entry has quantity 0" is broken by the snapshot
    path.  Whenever a snapshot loads and the last bid level it gives for
    a price converts to quantity 0, [_process_snapshot] stores that price
    with quantity 0, so the book has a zero entry; [update_bid] with the
    same price and quantity, the path deltas take, leaves the price
    absent. *)
Theorem snapshot_stores_zero_quantities (b : OrderBook) (snapshot : BookJson)
        (lb la : list (Z * Z)) (price : Z) :
  decode_levels (json_bids snapshot) = Some lb ->
  decode_levels (json_asks snapshot) = Some la ->
  last_quantity lb price = Some 0 ->
  let b' := fst (_process_snapshot b snapshot) in
  snd (_process_snapshot b snapshot) = true
  /\ OrderedDict.get (bids b') price = Some 0
  /\ ~ book_no_zero b'
  /\ OrderedDict.get (bids (update_bid b' price 0)) price = None.
Proof.
  intros Hb Ha Hzero. cbv zeta.
  destruct (process_snapshot_bid_lookup b snapshot lb la Hb Ha)
    as (Hok & Hsorted & Hget).
  pose proof (strictly_descending_NoDup _ Hsorted) as Hnd.
  assert (Hstored : OrderedDict.get
                      (bids (fst (_process_snapshot b snapshot))) price
                    = Some 0) by (now rewrite Hget).
  split; [exact Hok|]. split; [exact Hstored|]. split.
  - intros [Hbids _]. apply (get_In _ _ _ Hnd) in Hstored.
    unfold no_zero_quantity in Hbids.
    rewrite Forall_forall in Hbids. now apply (Hbids _ Hstored).
  - rewrite update_bid_get by exact Hnd. reflexivity.
Qed.

Lemma snapshot_stores_zero_quantities_witness :
  let b' := fst (_process_snapshot (OrderBook_init 100) zero_snapshot) in
  json_bids zero_snapshot = [("10.0000000", "0.0000000")]%string
  /\ snd (_process_snapshot (OrderBook_init 100) zero_snapshot) = true
  /\ OrderedDict.get (bids b') 100000000 = Some 0
  /\ ~ book_no_zero b'
  /\ OrderedDict.get (bids (update_bid b' 100000000 0)) 100000000 = None.
Proof.
  cbv zeta. split; [reflexivity|].
  refine (snapshot_stores_zero_quantities (OrderBook_init 100) zero_snapshot
            [(100000000, 0)] [] 100000000 _ _ _).
  - vm_compute. reflexivity.
  - reflexivity.
  - reflexivity.
Defined.

(* ===================================================================== *)
(** ** Digits lost by [format_decimal]                                    *)
(* ===================================================================== *)

(** C8.  [format_decimal] does not keep every scaled integer.  The price
    5368709120000003 fits the 64-bit field of a delta and is stored as
    it comes; [to_json] prints it as 536870912.0000004, the decimal of
    another integer, because the quotient by ten million is rounded to a
    float first.  Below [2^29 * 10^7] in absolute value nothing is lost:
    the string read as an exact decimal and scaled by [10^7] is the
    integer again. *)
Theorem format_decimal_loses_digits :
  let v := 5368709120000003 in
  let b' := order_book (_process_delta example_client
                          (delta_frame 1 6 v 10000000)) in
  0 <= v < 2 ^ 64
  /\ OrderedDict.get (bids b') v = Some 10000000
  /\ format_decimal v = Some "536870912.0000004"%string
  /\ option_map (fun body => hd_error (json_bids body)) (to_json b')
     = Some (Some ("536870912.0000004", "1.0000000")%string)
  /\ exact_scaled "536870912.0000004" = Some 5368709120000004
  /\ 5368709120000004 <> v
  /\ (forall w, Z.abs w < 2 ^ 29 * 10 ^ 7 ->
                exists s, format_decimal w = Some s /\ exact_scaled s = Some w).
Proof.
  cbv zeta.
  split; [split; [discriminate|reflexivity]|].
  split; [vm_compute; reflexivity|].
  split; [vm_compute; reflexivity|].
  split; [vm_compute; reflexivity|].
  split; [vm_compute; reflexivity|].
  split; [discriminate|].
  exact format_decimal_exact.
Qed.

(* ===================================================================== *)
(** ** The side of a delta                                                *)
(* ===================================================================== *)

(** C10.  A well-formed frame updates the bid ledger exactly when its side
    field is 1; with any other side value, from 0 to 65535, the same price
    and quantity update the ask ledger.  In both cases the sequence number
    is taken over and the ledger of the other side is untouched.  On a
    reachable book the update shows in the ledger of that side: the price
    holds the quantity of the frame, or is absent when that quantity is 0,
    and every other price keeps what it held. *)
Theorem side_routing (c : OrderBookClient) (m : ws_message) :
  is_delta m = true ->
  let b := order_book c in
  let b' := order_book (_process_delta c m) in
  0 <= side_of m < 65536
  /\ (side_of m = 1 ->
      b' = with_last_update_id
             (update_bid b (price_of m) (quantity_of m)) (ordinal_of m)
      /\ asks b' = asks b)
  /\ (side_of m <> 1 ->
      b' = with_last_update_id
             (update_ask b (price_of m) (quantity_of m)) (ordinal_of m)
      /\ bids b' = bids b)
  /\ (reachable_book b ->
      (side_of m = 1 ->
       forall k,
         OrderedDict.get (bids b') k
         = if k =? price_of m
           then (if quantity_of m =? 0 then None else Some (quantity_of m))
           else OrderedDict.get (bids b) k)
      /\ (side_of m <> 1 ->
          forall k,
            OrderedDict.get (asks b') k
            = if k =? price_of m
              then (if quantity_of m =? 0 then None else Some (quantity_of m))
              else OrderedDict.get (asks b) k)).
Proof.
  intros Hm. cbv zeta.
  destruct (process_delta_routes c m Hm) as (Hrange & Hbid & Hask).
  split; [exact Hrange|]. split; [exact Hbid|]. split; [exact Hask|].
  intros Hreach. destruct (reachable_NoDup _ Hreach) as [Hnb Hna].
  split; intros Hs k.
  - destruct (Hbid Hs) as [-> _]. cbn [bids with_last_update_id].
    now apply update_bid_lookup.
  - destruct (Hask Hs) as [-> _]. cbn [asks with_last_update_id].
    now apply update_ask_lookup.
Qed.

Lemma side_routing_witness :
  let b := order_book example_client in
  let m := delta_frame 1 6 97500000 20000000 in
  let m' := delta_frame 65535 7 105000000 70000000 in
  side_of m = 1
  /\ OrderedDict.get (bids b) 97500000 = None
  /\ OrderedDict.get (bids (order_book (_process_delta example_client m)))
       97500000 = Some 20000000
  /\ asks (order_book (_process_delta example_client m)) = asks b
  /\ last_update_id (order_book (_process_delta example_client m)) = 6
  /\ side_of m' = 65535
  /\ OrderedDict.get (asks b) 105000000 = Some 20000000
  /\ OrderedDict.get (asks (order_book (_process_delta example_client m')))
       105000000 = Some 70000000
  /\ bids (order_book (_process_delta example_client m')) = bids b.
Proof.
  cbv zeta.
  pose proof (side_routing example_client
                (delta_frame 1 6 97500000 20000000) eq_refl) as H.
  pose proof (side_routing example_client
                (delta_frame 65535 7 105000000 70000000) eq_refl) as H'.
  cbv zeta in H, H'.
  destruct H as (_ & Hbid & _ & Hlook).
  destruct H' as (_ & _ & Hask & Hlook').
  assert (Hs : side_of (delta_frame 1 6 97500000 20000000) = 1)
    by (vm_compute; reflexivity).
  assert (Hs' : side_of (delta_frame 65535 7 105000000 70000000) <> 1)
    by (vm_compute; discriminate).
  destruct (Hbid Hs) as [Hb Hasks]. destruct (Hask Hs') as [Hb' Hbids].
  destruct (Hlook example_client_reachable) as [Hl _].
  destruct (Hlook' example_client_reachable) as [_ Hl'].
  split; [exact Hs|]. split; [vm_compute; reflexivity|].
  split; [rewrite (Hl Hs); vm_compute; reflexivity|].
  split; [exact Hasks|].
  split; [rewrite Hb; vm_compute; reflexivity|].
  split; [vm_compute; reflexivity|]. split; [vm_compute; reflexivity|].
  split; [rewrite (Hl' Hs'); vm_compute; reflexivity|].
  exact Hbids.
Defined.
